(** * Todo-app task API: the stored document and its four request handlers

    A shallow embedding of the Express server of the repository
    ([server/utils/storage.js], [server/controllers/taskController.js],
    [server/routes/tasks.js]) together with the part of the JavaScript
    runtime these files rely on ([JSON.parse], [JSON.stringify],
    [parseInt], property reads and writes on plain objects).

    Conventions of the model.
    - A JavaScript string is a [string]; every [ascii] stands for one code
      unit, so the model covers the strings whose code units are below 256.
    - A JavaScript number is an integer [Z] of the safe range
      [-(2^53-1) .. 2^53-1], where the arithmetic of doubles is exact.
      Whenever the program would leave that range, or meet a number the
      model cannot hold (a fraction, an exponent, minus zero), the model
      answers "outside the model" instead of guessing.
    - [undefined] is the [None] of an [option Value]. *)

From Stdlib Require Import ZArith NArith List String Ascii Bool Lia.
From Stdlib Require Import DecimalString DecimalN DecimalPos DecimalFacts Sorted.
Import ListNotations.

Local Open Scope string_scope.
Local Open Scope Z_scope.

(** ** JSON values *)

Unset Elimination Schemes.
Inductive Value : Type :=
| JNull
| JBool (b : bool)
| JNum (n : Z)
| JStr (s : string)
| JArr (items : list Value)
| JObj (fields : list (string * Value)).
Set Elimination Schemes.

Section ValueInd.
Variable P : Value -> Prop.
Hypothesis Hnull : P JNull.
Hypothesis Hbool : forall b, P (JBool b).
Hypothesis Hnum : forall n, P (JNum n).
Hypothesis Hstr : forall s, P (JStr s).
Hypothesis Harr : forall items, Forall P items -> P (JArr items).
Hypothesis Hobj :
  forall fields, Forall (fun kv => P (snd kv)) fields -> P (JObj fields).

Fixpoint Value_ind (v : Value) : P v :=
  match v with
  | JNull => Hnull
  | JBool b => Hbool b
  | JNum n => Hnum n
  | JStr s => Hstr s
  | JArr items =>
      Harr items
        ((fix all (l : list Value) : Forall P l :=
            match l with
            | [] => Forall_nil P
            | x :: l' => Forall_cons x (Value_ind x) (all l')
            end) items)
  | JObj fields =>
      Hobj fields
        ((fix all (l : list (string * Value))
            : Forall (fun kv => P (snd kv)) l :=
            match l with
            | [] => Forall_nil _
            | kv :: l' => Forall_cons kv (Value_ind (snd kv)) (all l')
            end) fields)
  end.
End ValueInd.

(** [Number.MAX_SAFE_INTEGER] *)
Definition MAX_SAFE_INTEGER : Z := 9007199254740991.

Definition safe_integer (n : Z) : bool :=
  (- MAX_SAFE_INTEGER <=? n) && (n <=? MAX_SAFE_INTEGER).

(** ** Own properties of a plain object

    An object keeps its own string keys in the order the language
    prescribes: the keys that are array indices first, in ascending
    numeric order, then the other keys in the order of their creation.
    Writing an existing key replaces its value in place. *)

(** Equality of two runs of decimal digits. *)
Definition uint_eqb (a b : Decimal.uint) : bool :=
  if Decimal.uint_eq_dec a b then true else false.

(** A key is an array index when it is the canonical decimal form of an
    integer of [0 .. 2^32-2]. *)
Definition array_index (k : string) : option N :=
  match NilEmpty.uint_of_string k with
  | Some d =>
      if uint_eqb (Decimal.unorm d) d && (N.of_uint d <=? 4294967294)%N
      then Some (N.of_uint d) else None
  | None => None
  end.

Fixpoint obj_get (k : string) (o : list (string * Value)) : option Value :=
  match o with
  | [] => None
  | (k', v) :: o' => if String.eqb k k' then Some v else obj_get k o'
  end.

Fixpoint obj_replace (k : string) (v : Value) (o : list (string * Value))
  : list (string * Value) :=
  match o with
  | [] => []
  | (k', v') :: o' =>
      if String.eqb k k' then (k', v) :: o' else (k', v') :: obj_replace k v o'
  end.

Fixpoint obj_insert_index (i : N) (k : string) (v : Value)
  (o : list (string * Value)) : list (string * Value) :=
  match o with
  | [] => [(k, v)]
  | (k', v') :: o' =>
      match array_index k' with
      | Some j =>
          if (j <? i)%N then (k', v') :: obj_insert_index i k v o'
          else (k, v) :: o
      | None => (k, v) :: o
      end
  end.

Definition obj_put (k : string) (v : Value) (o : list (string * Value))
  : list (string * Value) :=
  match obj_get k o with
  | Some _ => obj_replace k v o
  | None =>
      match array_index k with
      | Some i => obj_insert_index i k v o
      | None => o ++ [(k, v)]
      end
  end.

(** The object obtained by defining the entries one after the other, as
    [JSON.parse] does with the members of an object literal. *)
Definition obj_of_entries (l : list (string * Value)) : list (string * Value) :=
  fold_left (fun o kv => obj_put (fst kv) (snd kv) o) l [].

(** Structural equality of two values, as a boolean. *)
Fixpoint Value_eqb (a b : Value) {struct a} : bool :=
  match a, b with
  | JNull, JNull => true
  | JBool x, JBool y => Bool.eqb x y
  | JNum x, JNum y => Z.eqb x y
  | JStr x, JStr y => String.eqb x y
  | JArr l1, JArr l2 =>
      (fix all (l1 l2 : list Value) : bool :=
         match l1, l2 with
         | [], [] => true
         | x :: l1', y :: l2' => Value_eqb x y && all l1' l2'
         | _, _ => false
         end) l1 l2
  | JObj o1, JObj o2 =>
      (fix all (o1 o2 : list (string * Value)) : bool :=
         match o1, o2 with
         | [], [] => true
         | (k1, x) :: o1', (k2, y) :: o2' =>
             String.eqb k1 k2 && Value_eqb x y && all o1' o2'
         | _, _ => false
         end) o1 o2
  | _, _ => false
  end.

(** A value as the runtime can hold it: numbers in the safe range and
    every object with its keys in the order of the language. *)
Fixpoint wf_value (v : Value) : bool :=
  match v with
  | JNull | JBool _ | JStr _ => true
  | JNum n => safe_integer n
  | JArr items => forallb wf_value items
  | JObj fields =>
      forallb (fun kv => wf_value (snd kv)) fields
      && Value_eqb (JObj (obj_of_entries fields)) (JObj fields)
  end.

(** ** [JSON.stringify (value, null, 2)]

    The serialisation of the language standard with a gap of two spaces:
    [SerializeJSONProperty], [QuoteJSONString], [SerializeJSONObject] and
    [SerializeJSONArray].  Every printer takes the text that follows as its
    last argument. *)

Definition dquote : ascii := "034"%char.
Definition backslash : ascii := "092"%char.
Definition newline : ascii := "010"%char.

(** A hexadecimal digit, in lower case as [JSON.stringify] writes it. *)
Definition hex_digit (n : N) : ascii :=
  if (n <? 10)%N then ascii_of_N (48 + n) else ascii_of_N (87 + n).

(** [QuoteJSONString]: one code unit of a quoted string. *)
Definition quote_char (c : ascii) (k : string) : string :=
  let n := N_of_ascii c in
  if Ascii.eqb c dquote then String backslash (String dquote k)
  else if Ascii.eqb c backslash then String backslash (String backslash k)
  else if (n =? 8)%N then String backslash (String "b" k)
  else if (n =? 12)%N then String backslash (String "f" k)
  else if (n =? 10)%N then String backslash (String "n" k)
  else if (n =? 13)%N then String backslash (String "r" k)
  else if (n =? 9)%N then String backslash (String "t" k)
  else if (n <? 32)%N then
    String backslash (String "u" (String "0" (String "0"
      (String (hex_digit (n / 16)) (String (hex_digit (n mod 16)) k)))))
  else String c k.

Fixpoint quote_chars (s : string) (k : string) : string :=
  match s with
  | EmptyString => String dquote k
  | String c r => quote_char c (quote_chars r k)
  end.

Definition quote (s : string) (k : string) : string :=
  String dquote (quote_chars s k).

(** [Number::toString] on an integer: its decimal digits. *)
Definition print_number (n : Z) (k : string) : string :=
  let digits := NilEmpty.string_of_uint (N.to_uint (Z.abs_N n)) ++ k in
  if n <? 0 then String "-" digits else digits.

(** The indentation of a line. *)
Fixpoint spaces (n : nat) (k : string) : string :=
  match n with
  | O => k
  | S m => String " " (spaces m k)
  end.

(** The items after the first one, each on a line of its own. *)
Definition print_more {A : Type} (pr : A -> string -> string) (ind : nat)
  : list A -> string -> string :=
  fix more (l : list A) (k : string) : string :=
    match l with
    | [] => k
    | x :: l' => String "," (String newline (spaces ind (pr x (more l' k))))
    end.

(** A bracketed list: empty, the two brackets; otherwise every item on
    a line of its own, two spaces deeper than the closing bracket. *)
Definition print_block {A : Type} (pr : A -> string -> string)
  (opening closing : ascii) (ind : nat) (l : list A) (k : string) : string :=
  match l with
  | [] => String opening (String closing k)
  | x :: l' =>
      String opening (String newline (spaces (ind + 2)
        (pr x (print_more pr (ind + 2) l'
           (String newline (spaces ind (String closing k)))))))
  end.

Fixpoint print_value (ind : nat) (v : Value) (k : string) {struct v} : string :=
  match v with
  | JNull => "null" ++ k
  | JBool true => "true" ++ k
  | JBool false => "false" ++ k
  | JNum n => print_number n k
  | JStr s => quote s k
  | JArr items =>
      print_block (print_value (ind + 2)) "[" "]" ind items k
  | JObj fields =>
      print_block
        (fun kv k' =>
           quote (fst kv)
             (String ":" (String " " (print_value (ind + 2) (snd kv) k'))))
        "{" "}" ind fields k
  end.

Definition JSON_stringify (v : Value) : string := print_value 0 v "".

(** ** [JSON.parse] *)

(** The outcome of reading a prefix of a text. *)
Inductive presult (A : Type) : Type :=
| POk (a : A) (rest : string)
| PSyntax
| PUnmodelled.
Arguments POk {A} a rest.
Arguments PSyntax {A}.
Arguments PUnmodelled {A}.

Definition pmap {A B : Type} (f : A -> B) (r : presult A) : presult B :=
  match r with
  | POk a rest => POk (f a) rest
  | PSyntax => PSyntax
  | PUnmodelled => PUnmodelled
  end.

(** The white space of the JSON grammar: space, tab, line feed, carriage
    return. *)
Definition is_json_ws (c : ascii) : bool :=
  let n := N_of_ascii c in
  (n =? 32)%N || (n =? 9)%N || (n =? 10)%N || (n =? 13)%N.

Fixpoint skip_ws (s : string) : string :=
  match s with
  | EmptyString => EmptyString
  | String c r => if is_json_ws c then skip_ws r else s
  end.

(** The value of a hexadecimal digit, in either case. *)
Definition hex_value (c : ascii) : option N :=
  let n := N_of_ascii c in
  if (48 <=? n)%N && (n <=? 57)%N then Some (n - 48)%N
  else if (97 <=? n)%N && (n <=? 102)%N then Some (n - 87)%N
  else if (65 <=? n)%N && (n <=? 70)%N then Some (n - 55)%N
  else None.

Definition hex4 (a b c d : ascii) : option N :=
  match hex_value a, hex_value b, hex_value c, hex_value d with
  | Some x, Some y, Some z, Some w => Some (((x * 16 + y) * 16 + z) * 16 + w)%N
  | _, _, _, _ => None
  end.

(** The character a one-letter escape stands for. *)
Definition simple_escape (e : ascii) : option ascii :=
  if Ascii.eqb e dquote then Some dquote
  else if Ascii.eqb e backslash then Some backslash
  else if Ascii.eqb e "/" then Some "/"%char
  else if Ascii.eqb e "b" then Some "008"%char
  else if Ascii.eqb e "f" then Some "012"%char
  else if Ascii.eqb e "n" then Some "010"%char
  else if Ascii.eqb e "r" then Some "013"%char
  else if Ascii.eqb e "t" then Some "009"%char
  else None.

(** The characters of a string literal after its opening quote.  An
    escape of a code unit above 255 is outside the model. *)
Fixpoint parse_chars (s : string) : presult string :=
  match s with
  | EmptyString => PSyntax
  | String c r =>
      if Ascii.eqb c dquote then POk EmptyString r
      else if Ascii.eqb c backslash then
        match r with
        | EmptyString => PSyntax
        | String e r1 =>
            match simple_escape e with
            | Some x => pmap (String x) (parse_chars r1)
            | None =>
                if Ascii.eqb e "u" then
                  match r1 with
                  | String h1 (String h2 (String h3 (String h4 r2))) =>
                      match hex4 h1 h2 h3 h4 with
                      | Some n =>
                          if (n <? 256)%N
                          then pmap (String (ascii_of_N n)) (parse_chars r2)
                          else PUnmodelled
                      | None => PSyntax
                      end
                  | _ => PSyntax
                  end
                else PSyntax
            end
        end
      else if (N_of_ascii c <? 32)%N then PSyntax
      else pmap (String c) (parse_chars r)
  end.

(** The decimal digit a character stands for. *)
Definition digit_of_char (c : ascii) : option (Decimal.uint -> Decimal.uint) :=
  match c with
  | "0"%char => Some Decimal.D0
  | "1"%char => Some Decimal.D1
  | "2"%char => Some Decimal.D2
  | "3"%char => Some Decimal.D3
  | "4"%char => Some Decimal.D4
  | "5"%char => Some Decimal.D5
  | "6"%char => Some Decimal.D6
  | "7"%char => Some Decimal.D7
  | "8"%char => Some Decimal.D8
  | "9"%char => Some Decimal.D9
  | _ => None
  end.

(** The longest run of decimal digits at the head of a text. *)
Fixpoint span_digits (s : string) : Decimal.uint * string :=
  match s with
  | EmptyString => (Decimal.Nil, EmptyString)
  | String c r =>
      match digit_of_char c with
      | Some digit => let (d, rest) := span_digits r in (digit d, rest)
      | None => (Decimal.Nil, s)
      end
  end.

Definition starts_fraction_or_exponent (s : string) : bool :=
  match s with
  | String c _ => Ascii.eqb c "." || Ascii.eqb c "e" || Ascii.eqb c "E"
  | EmptyString => false
  end.

(** A number literal.  Its integer part is [0] or starts with a digit
    other than [0].  A fraction, an exponent, minus zero and an integer
    beyond the safe range denote numbers the model does not hold. *)
Definition parse_number (s : string) : presult Value :=
  let (negative, s1) :=
    match s with
    | String c r => if Ascii.eqb c "-" then (true, r) else (false, s)
    | EmptyString => (false, s)
    end in
  let (d, rest) := span_digits s1 in
  if negb (uint_eqb (Decimal.unorm d) d) then PSyntax
  else if starts_fraction_or_exponent rest then PUnmodelled
  else
    let n := Z.of_N (N.of_uint d) in
    if negative && (n =? 0) then PUnmodelled
    else if MAX_SAFE_INTEGER <? n then PUnmodelled
    else POk (JNum (if negative then - n else n)) rest.

(** The text after a word that it starts with. *)
Fixpoint strip_prefix (word s : string) : option string :=
  match word with
  | EmptyString => Some s
  | String a word' =>
      match s with
      | String b s' => if Ascii.eqb a b then strip_prefix word' s' else None
      | EmptyString => None
      end
  end.

Definition parse_literal (word : string) (v : Value) (s : string)
  : presult Value :=
  match strip_prefix word s with
  | Some rest => POk v rest
  | None => PSyntax
  end.

(** A value, the text being already stripped of its leading white space.
    The fuel bounds the number of nested calls: a call uses one unit and
    reads at least one character before the next one, or two units for
    one character where a bracket opens, so that [JSON_parse] gives more
    than a text can use. *)
Fixpoint parse_value (fuel : nat) (s : string) {struct fuel} : presult Value :=
  match fuel with
  | O => PUnmodelled
  | S f =>
      match s with
      | EmptyString => PSyntax
      | String c r =>
          if Ascii.eqb c "{" then
            match skip_ws r with
            | String c' r' =>
                if Ascii.eqb c' "}" then POk (JObj []) r'
                else pmap (fun l => JObj (obj_of_entries l))
                       (parse_members f (skip_ws r))
            | EmptyString => PSyntax
            end
          else if Ascii.eqb c "[" then
            match skip_ws r with
            | String c' r' =>
                if Ascii.eqb c' "]" then POk (JArr []) r'
                else pmap JArr (parse_elements f (skip_ws r))
            | EmptyString => PSyntax
            end
          else if Ascii.eqb c dquote then pmap JStr (parse_chars r)
          else if Ascii.eqb c "t" then parse_literal "true" (JBool true) s
          else if Ascii.eqb c "f" then parse_literal "false" (JBool false) s
          else if Ascii.eqb c "n" then parse_literal "null" JNull s
          else parse_number s
      end
  end

with parse_elements (fuel : nat) (s : string) {struct fuel}
  : presult (list Value) :=
  match fuel with
  | O => PUnmodelled
  | S f =>
      match parse_value f s with
      | POk v r =>
          match skip_ws r with
          | String c r' =>
              if Ascii.eqb c "," then
                pmap (cons v) (parse_elements f (skip_ws r'))
              else if Ascii.eqb c "]" then POk [v] r'
              else PSyntax
          | EmptyString => PSyntax
          end
      | PSyntax => PSyntax
      | PUnmodelled => PUnmodelled
      end
  end

with parse_members (fuel : nat) (s : string) {struct fuel}
  : presult (list (string * Value)) :=
  match fuel with
  | O => PUnmodelled
  | S f =>
      match s with
      | String c r =>
          if Ascii.eqb c dquote then
            match parse_chars r with
            | POk key r1 =>
                match skip_ws r1 with
                | String c1 r2 =>
                    if Ascii.eqb c1 ":" then
                      match parse_value f (skip_ws r2) with
                      | POk v r3 =>
                          match skip_ws r3 with
                          | String c3 r4 =>
                              if Ascii.eqb c3 "," then
                                pmap (cons (key, v))
                                  (parse_members f (skip_ws r4))
                              else if Ascii.eqb c3 "}" then POk [(key, v)] r4
                              else PSyntax
                          | EmptyString => PSyntax
                          end
                      | PSyntax => PSyntax
                      | PUnmodelled => PUnmodelled
                      end
                    else PSyntax
                | EmptyString => PSyntax
                end
            | PSyntax => PSyntax
            | PUnmodelled => PUnmodelled
            end
          else PSyntax
      | EmptyString => PSyntax
      end
  end.

(** What [JSON.parse] does with a text: it returns a value, throws a
    [SyntaxError], or meets a text the model does not cover. *)
Inductive parsed : Type :=
| Parsed (v : Value)
| Rejected
| Unmodelled.

Definition JSON_parse (text : string) : parsed :=
  match parse_value (S (2 * String.length text)) (skip_ws text) with
  | POk v rest =>
      match skip_ws rest with
      | EmptyString => Parsed v
      | String _ _ => Rejected
      end
  | PSyntax => Rejected
  | PUnmodelled => Unmodelled
  end.

(** ** [parseInt (string)] without a radix

    Leading white space is dropped, then a sign, then a [0x] prefix that
    selects radix 16; the value is that of the longest run of digits, and
    [NaN] (here [None]) when there is none.  The integer is kept exact:
    compared with a number of the safe range it answers as the double
    does. *)

(** The white space that [parseInt] and [trim] drop, among the code
    units below 256. *)
Definition is_str_ws (c : ascii) : bool :=
  let n := N_of_ascii c in
  (n =? 9)%N || (n =? 10)%N || (n =? 11)%N || (n =? 12)%N || (n =? 13)%N
  || (n =? 32)%N || (n =? 160)%N.

Fixpoint trim_start (s : string) : string :=
  match s with
  | EmptyString => EmptyString
  | String c r => if is_str_ws c then trim_start r else s
  end.

Definition digit_in_radix (radix : N) (c : ascii) : option N :=
  match hex_value c with
  | Some d => if (d <? radix)%N then Some d else None
  | None => None
  end.

Fixpoint digits_value (radix : N) (s : string) (acc : N) : N :=
  match s with
  | EmptyString => acc
  | String c r =>
      match digit_in_radix radix c with
      | Some d => digits_value radix r (acc * radix + d)%N
      | None => acc
      end
  end.

Definition parseInt (s : string) : option Z :=
  let s1 := trim_start s in
  let (sign, s2) :=
    match s1 with
    | String c r =>
        if Ascii.eqb c "-" then (-1, r)
        else if Ascii.eqb c "+" then (1, r)
        else (1, s1)
    | EmptyString => (1, s1)
    end in
  let (radix, s3) :=
    match s2 with
    | String c (String x r) =>
        if Ascii.eqb c "0" && (Ascii.eqb x "x" || Ascii.eqb x "X")
        then (16%N, r) else (10%N, s2)
    | _ => (10%N, s2)
    end in
  match s3 with
  | String c _ =>
      match digit_in_radix radix c with
      | Some _ => Some (sign * Z.of_N (digits_value radix s3 0))
      | None => None
      end
  | EmptyString => None
  end.

(** ** Values at run time *)

(** [!v] is [negb (truthy v)]. *)
Definition truthy (v : option Value) : bool :=
  match v with
  | None | Some JNull => false
  | Some (JBool b) => b
  | Some (JNum n) => negb (n =? 0)
  | Some (JStr s) => negb (String.eqb s EmptyString)
  | Some (JArr _) | Some (JObj _) => true
  end.

(** [typeof v === "boolean"] *)
Definition typeof_boolean (v : option Value) : bool :=
  match v with
  | Some (JBool _) => true
  | _ => false
  end.

(** [v === n] for [n] a number or [NaN]. *)
Definition strict_equals_number (v : option Value) (n : option Z) : bool :=
  match v, n with
  | Some (JNum a), Some b => a =? b
  | _, _ => false
  end.

(** ** Exceptions, the file and the monad of the handlers *)

Inductive exn : Type :=
| TypeError
| SyntaxError
| FsError
| Error (message : string).

Inductive outcome (A : Type) : Type :=
| Return (a : A)
| Throw (e : exn).
Arguments Return {A} a.
Arguments Throw {A} e.

(** The data file as the server sees it: [file] is the text that
    [fs.readFile (DATA_PATH, "utf8")] resolves with, [None] when it rejects
    (no such file, no permission); [writable] tells whether
    [fs.writeFile] succeeds; [writeCalls] counts the calls of
    [fs.writeFile].  A write that succeeds replaces the whole text, a
    write that fails leaves it as it was. *)
Record FS : Type := mkFS {
  file : option string;
  writable : bool;
  writeCalls : nat
}.

(** A computation reads and changes the file and returns, throws, or
    leaves the model ([None]). *)
Definition M (A : Type) : Type := FS -> option (outcome A * FS).

Definition ret {A : Type} (a : A) : M A := fun fs => Some (Return a, fs).

Definition throw {A : Type} (e : exn) : M A := fun fs => Some (Throw e, fs).

Definition unmodelled {A : Type} : M A := fun _ => None.

Definition bind {A B : Type} (m : M A) (k : A -> M B) : M B :=
  fun fs =>
    match m fs with
    | Some (Return a, fs') => k a fs'
    | Some (Throw e, fs') => Some (Throw e, fs')
    | None => None
    end.

Definition try_catch {A : Type} (m : M A) (handler : exn -> M A) : M A :=
  fun fs =>
    match m fs with
    | Some (Throw e, fs') => handler e fs'
    | r => r
    end.

Notation "x <- m ;; k" := (bind m (fun x => k))
  (at level 61, m at next level, right associativity).
Notation "m ;;; k" := (bind m (fun _ => k))
  (at level 61, right associativity).

Definition fs_readFile : M string :=
  fun fs =>
    match file fs with
    | Some text => Some (Return text, fs)
    | None => Some (Throw FsError, fs)
    end.

Definition fs_writeFile (text : string) : M unit :=
  fun fs =>
    if writable fs
    then Some (Return tt, mkFS (Some text) (writable fs) (S (writeCalls fs)))
    else Some (Throw FsError, mkFS (file fs) (writable fs) (S (writeCalls fs))).

Definition JSON_parse_M (text : string) : M Value :=
  match JSON_parse text with
  | Parsed v => ret v
  | Rejected => throw SyntaxError
  | Unmodelled => unmodelled
  end.

(** [v.k] for the property names this program reads ([tasks], [nextId],
    [id], [title], [completed]), which no built-in prototype defines:
    [null] throws, an object answers with its own property, every other
    value with [undefined]. *)
Definition get_prop (v : Value) (k : string) : M (option Value) :=
  match v with
  | JNull => throw TypeError
  | JObj o => ret (obj_get k o)
  | _ => ret None
  end.

(** [o.k = x] on an object. *)
Definition set_prop (v : Value) (k : string) (x : Value) : Value :=
  match v with
  | JObj o => JObj (obj_put k x o)
  | _ => v
  end.

(** ** server/utils/storage.js *)

Definition e_acute : ascii := "233"%char.
Definition a_circumflex : ascii := "226"%char.
Definition a_grave : ascii := "224"%char.

Definition default_data : Value :=
  JObj [("tasks", JArr []); ("nextId", JNum 1)].

Definition readData : M Value :=
  try_catch
    (data <- fs_readFile ;;
     JSON_parse_M data)
    (fun _ => ret default_data).

Definition write_error_message : string :=
  "Impossible d'" ++ String e_acute "crire dans le fichier de donn"
  ++ String e_acute "es".

Definition writeData (data : Value) : M unit :=
  try_catch
    (fs_writeFile (JSON_stringify data))
    (fun _ => throw (Error write_error_message)).

(** ** server/controllers/taskController.js *)

(** What a controller reads of a request: [req.params.id], absent on
    the routes without [:id], and [req.body] as [express.json ()] left it.
    The only thing the controllers do with the body is to destructure it,
    which throws on [null] and on [undefined] alike: [JNull] stands for
    both (a request without a JSON body has the body [undefined]). *)
Record Request : Type := mkRequest {
  params_id : option string;
  body : Value
}.

(** The response sent: [res.status (code).json (payload)], the status
    being 200 when the controller sets none. *)
Record Response : Type := mkResponse {
  status : Z;
  payload : Value
}.

Definition error_payload (message : string) : Value :=
  JObj [("error", JStr message)].

(** The messages of the error responses. *)
Definition donnees_invalides : string :=
  "Donn" ++ String e_acute "es invalides".

Definition tache_non_trouvee : string :=
  "T" ++ String a_circumflex "che non trouv" ++ String e_acute "e".

Definition erreur_recuperation : string :=
  "Erreur lors de la r" ++ String e_acute "cup" ++ String e_acute
  "ration des t" ++ String a_circumflex "ches".

Definition erreur_creation : string :=
  "Erreur lors de la cr" ++ String e_acute "ation de la t"
  ++ String a_circumflex "che".

Definition erreur_mise_a_jour : string :=
  "Erreur lors de la mise " ++ String a_grave " jour".

Definition erreur_suppression : string := "Erreur lors de la suppression".

(** [parseInt (req.params.id)] *)
Definition parse_id (req : Request) : option Z :=
  match params_id req with
  | Some s => parseInt s
  | None => None
  end.

(** [tasks.findIndex (predicate)] on an array, [-1] when no item
    matches. *)
Fixpoint findIndex_from (predicate : Value -> M bool) (l : list Value)
  (i : Z) : M Z :=
  match l with
  | [] => ret (-1)
  | x :: l' =>
      found <- predicate x ;;
      if found then ret i else findIndex_from predicate l' (i + 1)
  end.

Definition findIndex (predicate : Value -> M bool) (l : list Value) : M Z :=
  findIndex_from predicate l 0.

(** [(task) => task.id === id] *)
Definition has_id (id : option Z) (task : Value) : M bool :=
  task_id <- get_prop task "id" ;;
  ret (strict_equals_number task_id id).

(** [data.tasks] when it is an array; calling [push], [findIndex] or
    [splice] on anything else throws. *)
Definition tasks_of (data : Value) : M (list Value) :=
  tasks <- get_prop data "tasks" ;;
  match tasks with
  | Some (JArr l) => ret l
  | _ => throw TypeError
  end.

(** The list with [f] applied to its item of index [i]. *)
Fixpoint list_update {A : Type} (l : list A) (i : nat) (f : A -> A) : list A :=
  match l, i with
  | [], _ => []
  | x :: l', O => f x :: l'
  | x :: l', S j => x :: list_update l' j f
  end.

(** [tasks[i].k = x] *)
Definition assign_at (l : list Value) (i : Z) (k : string) (x : Value)
  : list Value :=
  list_update l (Z.to_nat i) (fun task => set_prop task k x).

(** [tasks.splice (i, 1)] *)
Definition splice_one (l : list Value) (i : Z) : list Value :=
  firstn (Z.to_nat i) l ++ skipn (S (Z.to_nat i)) l.

(** [data.nextId++] *)
Definition increment_nextId (data : Value) : M Value :=
  nextId <- get_prop data "nextId" ;;
  match nextId with
  | Some (JNum n) =>
      if safe_integer (n + 1) then ret (set_prop data "nextId" (JNum (n + 1)))
      else unmodelled
  | _ => unmodelled
  end.

Definition deleted_payload : Value :=
  JObj [("message", JStr "Task deleted successfully")].

(** [res.json (data.tasks)]; a document without [tasks] would be sent as
    [undefined], which is no JSON value. *)
Definition getAllTasks (req : Request) : M Response :=
  try_catch
    (data <- readData ;;
     tasks <- get_prop data "tasks" ;;
     match tasks with
     | Some l => ret (mkResponse 200 l)
     | None => unmodelled
     end)
    (fun _ => ret (mkResponse 500 (error_payload erreur_recuperation))).

Definition createTask (req : Request) : M Response :=
  try_catch
    (title <- get_prop (body req) "title" ;;
     completed <- get_prop (body req) "completed" ;;
     if negb (truthy title) || negb (typeof_boolean completed) then
       ret (mkResponse 400 (error_payload donnees_invalides))
     else
       data <- readData ;;
       nextId <- get_prop data "nextId" ;;
       match nextId, title, completed with
       | Some id, Some title, Some completed =>
           let newTask :=
             JObj [("id", id); ("title", title); ("completed", completed)] in
           tasks <- tasks_of data ;;
           let data := set_prop data "tasks" (JArr (tasks ++ [newTask])) in
           data <- increment_nextId data ;;
           writeData data ;;;
           ret (mkResponse 201 newTask)
       | _, _, _ => unmodelled
       end)
    (fun _ => ret (mkResponse 500 (error_payload erreur_creation))).

Definition updateTask (req : Request) : M Response :=
  try_catch
    (let id := parse_id req in
     title <- get_prop (body req) "title" ;;
     completed <- get_prop (body req) "completed" ;;
     data <- readData ;;
     tasks <- tasks_of data ;;
     taskIndex <- findIndex (has_id id) tasks ;;
     if taskIndex =? -1 then
       ret (mkResponse 404 (error_payload tache_non_trouvee))
     else
       let tasks :=
         match title with
         | Some title => assign_at tasks taskIndex "title" title
         | None => tasks
         end in
       let tasks :=
         match completed with
         | Some completed => assign_at tasks taskIndex "completed" completed
         | None => tasks
         end in
       let data := set_prop data "tasks" (JArr tasks) in
       writeData data ;;;
       ret (mkResponse 200 (nth (Z.to_nat taskIndex) tasks JNull)))
    (fun _ => ret (mkResponse 500 (error_payload erreur_mise_a_jour))).

Definition deleteTask (req : Request) : M Response :=
  try_catch
    (let id := parse_id req in
     data <- readData ;;
     tasks <- tasks_of data ;;
     taskIndex <- findIndex (has_id id) tasks ;;
     if taskIndex =? -1 then
       ret (mkResponse 404 (error_payload tache_non_trouvee))
     else
       let data := set_prop data "tasks" (JArr (splice_one tasks taskIndex)) in
       writeData data ;;;
       ret (mkResponse 200 deleted_payload))
    (fun _ => ret (mkResponse 500 (error_payload erreur_suppression))).

(** ** server/routes/tasks.js

    Each route hands the request to its controller; no other middleware
    stands before it. *)

Inductive Method : Type := GET | POST | PUT | DELETE.

Definition router (method : Method) (req : Request) : M Response :=
  match method with
  | GET => getAllTasks req
  | POST => createTask req
  | PUT => updateTask req
  | DELETE => deleteTask req
  end.

(** ** A run of the server

    Requests are served one at a time (the lost-update race of
    overlapping requests is left out); between two requests the disk may
    start or stop accepting writes. *)

Inductive event : Type :=
| Receive (method : Method) (req : Request)
| Disk (accepts_writes : bool).

Record exchange : Type := mkExchange {
  ex_method : Method;
  ex_request : Request;
  ex_response : Response
}.

(** The controllers catch every exception, so a request always gets its
    response; the [Throw] case below is never taken (lemma
    [router_never_throws]). *)
Fixpoint run (events : list event) (fs : FS) : option (list exchange * FS) :=
  match events with
  | [] => Some ([], fs)
  | Disk b :: rest => run rest (mkFS (file fs) b (writeCalls fs))
  | Receive method req :: rest =>
      match router method req fs with
      | Some (Return res, fs') =>
          match run rest fs' with
          | Some (log, fs'') => Some (mkExchange method req res :: log, fs'')
          | None => None
          end
      | Some (Throw _, _) | None => None
      end
  end.

(** * Vocabulary of the statements *)

(** The property [k] of a value that is not [null]. *)
Definition prop (v : Value) (k : string) : option Value :=
  match v with
  | JObj o => obj_get k o
  | _ => None
  end.

(** The task carries the number [n] as its [id]. *)
Definition task_has_id (n : Z) (task : Value) : Prop :=
  prop task "id" = Some (JNum n).

(** The id a create request was answered with. *)
Definition assigned_id (x : exchange) : option Z :=
  match ex_method x, status (ex_response x) =? 201,
        prop (payload (ex_response x)) "id" with
  | POST, true, Some (JNum i) => Some i
  | _, _, _ => None
  end.

Fixpoint assigned_ids (log : list exchange) : list Z :=
  match log with
  | [] => []
  | x :: log' =>
      match assigned_id x with
      | Some i => i :: assigned_ids log'
      | None => assigned_ids log'
      end
  end.

Definition event_body_wf (e : event) : bool :=
  match e with
  | Receive _ req => wf_value (body req)
  | Disk _ => true
  end.

(** [String.prototype.trim], which the client applies to a title before
    it sends it. *)
Fixpoint trim_end (s : string) : string :=
  match s with
  | EmptyString => EmptyString
  | String c r =>
      match trim_end r with
      | EmptyString => if is_str_ws c then EmptyString else String c EmptyString
      | r' => String c r'
      end
  end.

Definition trim (s : string) : string := trim_end (trim_start s).

(** A path parameter that starts, after its white space, with neither a
    sign nor a digit. *)
Definition non_numeric (s : string) : bool :=
  match trim_start s with
  | EmptyString => true
  | String c _ =>
      negb (Ascii.eqb c "-" || Ascii.eqb c "+"
            || match digit_of_char c with Some _ => true | None => false end)
  end.

(** [task.id === id] as a value, for a task that is not [null]. *)
Definition matches (id : option Z) (task : Value) : bool :=
  strict_equals_number (prop task "id") id.

(** What [findIndex] returns on a list of tasks: the callback throws on
    a [null] item. *)
Fixpoint first_match (id : option Z) (l : list Value) (i : Z) : outcome Z :=
  match l with
  | [] => Return (-1)
  | JNull :: _ => Throw TypeError
  | x :: l' => if matches id x then Return i else first_match id l' (i + 1)
  end.

(** The text does not start with a digit. *)
Definition no_digit_head (k : string) : Prop :=
  match k with
  | EmptyString => True
  | String c _ => digit_of_char c = None
  end.

(** The text that follows a printed value: nothing, a comma or a line
    break. *)
Definition follows (k : string) : Prop :=
  k = EmptyString \/ exists r, k = String "," r \/ k = String newline r.

(** The first character of a printed value is neither white space nor a
    closing bracket. *)
Definition head_ok (c : ascii) : bool :=
  negb (is_json_ws c) && negb (Ascii.eqb c "]") && negb (Ascii.eqb c "}").

(** The first character of a printed number: a minus sign or a digit. *)
Definition number_head (c : ascii) : bool :=
  Ascii.eqb c "-" ||
  match digit_of_char c with Some _ => true | None => false end.

(** A bound on the fuel that parsing the text of a value takes. *)
Fixpoint size (v : Value) : nat :=
  match v with
  | JArr items => S (list_sum (map (fun x => S (size x)) items))
  | JObj fields => S (list_sum (map (fun kv => S (size (snd kv))) fields))
  | _ => O
  end.

Definition members_size (o : list (string * Value)) : nat :=
  list_sum (map (fun kv => S (size (snd kv))) o).

Definition elements_size (l : list Value) : nat :=
  list_sum (map (fun x => S (size x)) l).

(** The text of the value, whatever its indentation and whatever
    follows it, parses back to the value and leaves what follows. *)
Definition parses_back (v : Value) : Prop :=
  wf_value v = true ->
  forall ind k f, follows k -> (size v < f)%nat ->
    parse_value f (print_value ind v k) = POk v k.

(** The key is an array index smaller than [i]. *)
Definition index_below (i : N) (k : string) : Prop :=
  exists j, array_index k = Some j /\ (j <? i)%N = true.

(** An object whose entries were defined one after the other, each at
    the end. *)
Inductive ordered : list (string * Value) -> Prop :=
| ordered_nil : ordered []
| ordered_snoc :
    forall o k v, ordered o -> obj_get k o = None ->
      obj_put k v o = (o ++ [(k, v)])%list -> ordered (o ++ [(k, v)])%list.

(** No item of the list is the task looked for. *)
Definition no_match (id : option Z) (l : list Value) : Prop :=
  Forall (fun task => task <> JNull /\ matches id task = false) l.

(** The fields of a task after [updateTask] has assigned the properties
    that the body defines. *)
Definition patched (request_body : Value) (f : list (string * Value))
  : list (string * Value) :=
  let f1 :=
    match prop request_body "title" with
    | Some title => obj_put "title" title f
    | None => f
    end in
  match prop request_body "completed" with
  | Some completed => obj_put "completed" completed f1
  | None => f1
  end.

(** The document has a [tasks] array in which the task looked for is
    the first one after [before]. *)
Definition found_in (id : option Z) (data : Value)
  (o : list (string * Value)) (before : list Value) (task : Value)
  (after : list Value) : Prop :=
  data = JObj o
  /\ obj_get "tasks" o = Some (JArr (before ++ task :: after))
  /\ no_match id before
  /\ matches id task = true.

(** The task that [createTask] builds. *)
Definition new_task (n : Z) (title completed : Value) : Value :=
  JObj [("id", JNum n); ("title", title); ("completed", completed)].

(** The file after one task was created in an empty store. *)
Definition one_task_store : FS :=
  mkFS
    (Some (JSON_stringify
             (JObj [("tasks",
                     JArr [new_task 1 (JStr "Buy milk") (JBool false)]);
                    ("nextId", JNum 2)])))
    true 0.

(** The file holds a document with a [tasks] array and the counter
    [nextId = n]. *)
Definition stored (fs : FS) (n : Z) : Prop :=
  exists o ts,
    readData fs = Some (Return (JObj o), fs)
    /\ obj_get "tasks" o = Some (JArr ts)
    /\ obj_get "nextId" o = Some (JNum n).


(** The stores and the run of the examples. *)
Definition empty_store : FS := mkFS None true 0.

Definition sample_document : Value :=
  JObj [("tasks",
         JArr [JObj [("id", JNum 1); ("title", JStr "Buy milk");
                     ("completed", JBool false)]]);
        ("nextId", JNum 2)].

Definition three_tasks_store : FS :=
  mkFS
    (Some (JSON_stringify
             (JObj [("tasks",
                     JArr [new_task 1 (JStr "A") (JBool false);
                           new_task 2 (JStr "B") (JBool true);
                           new_task 3 (JStr "C") (JBool false)]);
                    ("nextId", JNum 4)])))
    true 0.

Definition sample_events : list event :=
  [Receive POST
     (mkRequest None (JObj [("title", JStr "a"); ("completed", JBool false)]));
   Receive DELETE (mkRequest (Some "1") (JObj []));
   Disk false;
   Receive POST
     (mkRequest None (JObj [("title", JStr "b"); ("completed", JBool true)]));
   Disk true;
   Receive POST
     (mkRequest None (JObj [("title", JStr "c"); ("completed", JBool true)]))].

(** A text of the examples is written with apostrophes where the JSON
    text has double quotes. *)
Fixpoint with_double_quotes (s : string) : string :=
  match s with
  | EmptyString => EmptyString
  | String c r =>
      String (if Ascii.eqb c "'" then dquote else c) (with_double_quotes r)
  end.

(** The scenario of the specification: create, list, update, delete,
    list. *)
Definition scenario : list event :=
  [Receive POST
     (mkRequest None
        (JObj [("title", JStr "Buy milk"); ("completed", JBool false)]));
   Receive GET (mkRequest None (JObj []));
   Receive PUT (mkRequest (Some "1") (JObj [("completed", JBool true)]));
   Receive DELETE (mkRequest (Some "1") (JObj []));
   Receive GET (mkRequest None (JObj []))].

(** * Vocabulary of the properties of the routes *)

(** The status codes that the controller of a route sends. *)
Definition statuses_of (method : Method) : list Z :=
  match method with
  | GET => [200; 500]
  | POST => [201; 400; 500]
  | PUT => [200; 404; 500]
  | DELETE => [200; 404; 500]
  end.

(** The numeric ids of the tasks of a list, when every task is an object
    that carries one. *)
Fixpoint ids_of (ts : list Value) : option (list Z) :=
  match ts with
  | [] => Some []
  | task :: ts' =>
      match prop task "id", ids_of ts' with
      | Some (JNum i), Some l => Some (i :: l)
      | _, _ => None
      end
  end.

(** The file holds a document whose tasks carry pairwise distinct numeric
    ids, all of them below the counter [nextId]. *)
Definition consistent (fs : FS) : Prop :=
  exists o ts n ids,
    readData fs = Some (Return (JObj o), fs)
    /\ obj_get "tasks" o = Some (JArr ts)
    /\ obj_get "nextId" o = Some (JNum n)
    /\ ids_of ts = Some ids
    /\ NoDup ids
    /\ Forall (fun i => i < n) ids.

(** The request that the guard of [createTask] turns down. *)
Definition create_guard (req : Request) : bool :=
  negb (truthy (prop (body req) "title"))
  || negb (typeof_boolean (prop (body req) "completed")).

(** * [JSON.stringify (value)]

    The serialisation without a gap, as [fetch] bodies and [res.json]
    use it: no white space at all between the tokens. *)

(** The items after the first one, each after a comma. *)
Definition print_rest {A : Type} (pr : A -> string -> string)
  : list A -> string -> string :=
  fix rest (l : list A) (k : string) : string :=
    match l with
    | [] => k
    | x :: l' => String "," (pr x (rest l' k))
    end.

Definition print_list {A : Type} (pr : A -> string -> string)
  (opening closing : ascii) (l : list A) (k : string) : string :=
  match l with
  | [] => String opening (String closing k)
  | x :: l' => String opening (pr x (print_rest pr l' (String closing k)))
  end.

Fixpoint print_compact (v : Value) (k : string) {struct v} : string :=
  match v with
  | JNull => "null" ++ k
  | JBool true => "true" ++ k
  | JBool false => "false" ++ k
  | JNum n => print_number n k
  | JStr s => quote s k
  | JArr items => print_list print_compact "[" "]" items k
  | JObj fields =>
      print_list
        (fun kv k' => quote (fst kv) (String ":" (print_compact (snd kv) k')))
        "{" "}" fields k
  end.

Definition JSON_stringify_compact (v : Value) : string := print_compact v "".

(** The text that follows a value printed without a gap: nothing, a
    comma or a closing bracket. *)
Definition closes (k : string) : Prop :=
  match k with
  | EmptyString => True
  | String c _ => c = ","%char \/ c = "]"%char \/ c = "}"%char
  end.

(** The text of the value, printed without a gap, parses back to the
    value and leaves what follows. *)
Definition parses_back_compact (v : Value) : Prop :=
  wf_value v = true ->
  forall k f, closes k -> (size v < f)%nat ->
    parse_value f (print_compact v k) = POk v k.

(** * The client

    [src/services/tasks.service.ts] and the hooks and the form that call
    it, over what they read of their runtime: [fetch], its [Response] and
    the values that an [await] throws.  The types of
    [src/types/task.type.ts] are taken at their word: a title is a string,
    [completed] a boolean, an id an integer. *)

(** [s.includes (sub)] *)
Fixpoint includes (s sub : string) : bool :=
  match strip_prefix sub s with
  | Some _ => true
  | None =>
      match s with
      | EmptyString => false
      | String _ r => includes r sub
      end
  end.

(** [String (v)], as a template and the constructor of [Error] apply
    it.  An integer of the safe range is printed by its digits; the text
    of another number (with an exponent from [10^21] on) and the text of
    an array are left out of the model. *)
Definition to_string (v : Value) : option string :=
  match v with
  | JNull => Some "null"
  | JBool true => Some "true"
  | JBool false => Some "false"
  | JNum n => if safe_integer n then Some (print_number n "") else None
  | JStr s => Some s
  | JArr _ => None
  | JObj _ => Some "[object Object]"
  end.

Definition e_circumflex : ascii := "234"%char.
Definition e_grave : ascii := "232"%char.

(** ** [class ApiError extends Error] *)

Module ApiError.

Record t : Type := mk {
  message : string;
  status : Z;
  code : option Value;
  validationErrors : option Value
}.

End ApiError.

(** ** [fetch] *)

Module Fetch.

(** What an [await] throws: an [ApiError], another [Error] with its name
    and its message, or a value that is no [Error]. *)
Inductive thrown : Type :=
| ThrowApiError (e : ApiError.t)
| ThrowError (name message : string)
| ThrowOther.

(** [error instanceof Error] *)
Definition instanceof_Error (error : thrown) : bool :=
  match error with
  | ThrowOther => false
  | _ => true
  end.

(** [error.name]; the constructor of [ApiError] sets it. *)
Definition name_of (error : thrown) : string :=
  match error with
  | ThrowApiError _ => "ApiError"
  | ThrowError name _ => name
  | ThrowOther => ""
  end.

(** [error.message] *)
Definition message_of (error : thrown) : string :=
  match error with
  | ThrowApiError e => ApiError.message e
  | ThrowError _ message => message
  | ThrowOther => ""
  end.

Module Request.

(** [fetch (url, {method, headers, body})] *)
Record t : Type := mk {
  url : string;
  method : Method;
  headers : list (string * string);
  body : option string
}.

End Request.

Module Response.

(** What the service reads of a [Response]: [status], [statusText],
    [headers] (the names in lower case) and the promise of [json ()],
    which resolves with a value or rejects. *)
Record t : Type := mk {
  status : Z;
  statusText : string;
  headers : list (string * string);
  json : Value + thrown
}.

(** [response.ok] *)
Definition ok (response : t) : bool :=
  (200 <=? status response) && (status response <=? 299).

(** [response.headers.get (name)] *)
Definition headers_get (name : string) (response : t) : option string :=
  option_map snd
    (find (fun h => String.eqb (fst h) name) (headers response)).

End Response.

(** The promise of [fetch] resolves with a response or rejects. *)
Inductive outcome : Type :=
| Resolves (response : Response.t)
| Rejects (error : thrown).

End Fetch.

(** ** [class TasksService] *)

Module TasksService.

Definition API_BASE_URL : string := "http://localhost:3001/api".

Definition DEFAULT_HEADERS : list (string * string) :=
  [("Content-Type", "application/json"); ("Accept", "application/json")].

Definition donnees_de_requete_invalides : string :=
  "Donn" ++ String e_acute "es de requ" ++ String e_circumflex "te invalides".

Definition timeout_de_la_requete : string :=
  "Timeout de la requ" ++ String e_circumflex "te - Serveur inaccessible".

Definition erreur_reseau : string :=
  "Erreur r" ++ String e_acute "seau - V" ++ String e_acute
  "rifiez que le serveur Express est d" ++ String e_acute "marr"
  ++ String e_acute "".

Definition erreur_de_parsing : string :=
  "Erreur de parsing de la r" ++ String e_acute "ponse JSON: ".

(** [`HTTP_${response.status}`]; a status is an integer below 1000. *)
Definition http_code (status : Z) : string := "HTTP_" ++ print_number status "".

(** [`/tasks/${id}`].  The id is an integer of the safe range, printed by
    its digits; the text of another number (with an exponent from [10^21]
    on) is left out of the model. *)
Definition task_endpoint (id : Z) : option string :=
  if safe_integer id then Some ("/tasks/" ++ print_number id "") else None.

(** [handleHttpError (response)], by the [ApiError] it throws: it never
    returns.  The body of the response is read as JSON, and replaced by
    [{error: response.statusText || "Erreur serveur"}] when that fails.
    The operator [in] throws on a body that is no object, with a message
    of the engine's own: such a body is left out of the model ([None]).
    The names [errors], [error] and [code] are no property of a
    prototype, so an array has none of them. *)
Definition handleHttpError (response : Fetch.Response.t)
  : option ApiError.t :=
  let status := Fetch.Response.status response in
  let errorData :=
    match Fetch.Response.json response with
    | inl data => data
    | inr _ =>
        JObj [("error",
               JStr (if String.eqb (Fetch.Response.statusText response) ""
                     then "Erreur serveur"
                     else Fetch.Response.statusText response))]
    end in
  match errorData with
  | JObj _ | JArr _ =>
      match (if status =? 400 then prop errorData "errors" else None) with
      | Some errors =>
          Some (ApiError.mk donnees_de_requete_invalides 400
                  (Some (JStr "VALIDATION_ERROR")) (Some errors))
      | None =>
          match prop errorData "error" with
          | Some error =>
              match to_string error with
              | Some message =>
                  Some (ApiError.mk message status
                          (if truthy (prop errorData "code")
                           then prop errorData "code"
                           else Some (JStr (http_code status)))
                          None)
              | None => None
              end
          | None =>
              Some (ApiError.mk ("Erreur HTTP " ++ print_number status "")
                      status (Some (JStr (http_code status))) None)
          end
      end
  | _ => None
  end.

(** The [try] block of [makeRequest] once [fetch] has settled: the value
    it returns or what it throws. *)
Definition try_block (settled : Fetch.outcome) : option (Value + Fetch.thrown) :=
  match settled with
  | Fetch.Rejects error => Some (inr error)
  | Fetch.Resolves response =>
      if negb (Fetch.Response.ok response) then
        option_map (fun e => inr (Fetch.ThrowApiError e))
          (handleHttpError response)
      else if (Fetch.Response.status response =? 204)
              || match Fetch.Response.headers_get "content-length" response with
                 | Some length => String.eqb length "0"
                 | None => false
                 end
      then Some (inl (JObj []))
      else
        match Fetch.Response.json response with
        | inl data => Some (inl data)
        | inr parseError =>
            Some (inr (Fetch.ThrowApiError
                         (ApiError.mk
                            (erreur_de_parsing
                             ++ (if Fetch.instanceof_Error parseError
                                 then Fetch.message_of parseError
                                 else "Format invalide"))
                            (Fetch.Response.status response)
                            (Some (JStr "PARSE_ERROR")) None)))
        end
  end.

(** The [catch] block of [makeRequest]: the [ApiError] it throws for
    what the [try] block threw. *)
Definition catch_block (error : Fetch.thrown) : ApiError.t :=
  if Fetch.instanceof_Error error
     && String.eqb (Fetch.name_of error) "AbortError"
  then ApiError.mk timeout_de_la_requete 408 (Some (JStr "REQUEST_TIMEOUT")) None
  else if Fetch.instanceof_Error error
          && includes (Fetch.message_of error) "fetch"
  then ApiError.mk erreur_reseau 0 (Some (JStr "NETWORK_ERROR")) None
  else
    match error with
    | Fetch.ThrowApiError e => e
    | _ =>
        ApiError.mk
          (if Fetch.instanceof_Error error then Fetch.message_of error
           else "Erreur inconnue")
          500 (Some (JStr "UNKNOWN_ERROR")) None
    end.

Section Service.
Context {World : Type}.

(** [fetch], in a world that it reads and changes; [None] is a request
    that the model of the world does not cover.  The timer that aborts
    the request after [REQUEST_TIMEOUT] is part of how [fetch] settles: an
    aborted request rejects with an [AbortError]. *)
Variable fetch : Fetch.Request.t -> World -> option (Fetch.outcome * World).

Definition makeRequest (endpoint : string) (method : Method)
  (body : option string) (w : World)
  : option ((Value + ApiError.t) * World) :=
  match fetch (Fetch.Request.mk (API_BASE_URL ++ endpoint) method
                 DEFAULT_HEADERS body) w with
  | Some (settled, w') =>
      match try_block settled with
      | Some (inl data) => Some (inl data, w')
      | Some (inr error) => Some (inr (catch_block error), w')
      | None => None
      end
  | None => None
  end.

Definition getAllTasks : World -> option ((Value + ApiError.t) * World) :=
  makeRequest "/tasks" GET None.

Definition createTask (task : Value)
  : World -> option ((Value + ApiError.t) * World) :=
  makeRequest "/tasks" POST (Some (JSON_stringify_compact task)).

Definition updateTask (id : Z) (updates : Value) (w : World)
  : option ((Value + ApiError.t) * World) :=
  match task_endpoint id with
  | Some endpoint =>
      makeRequest endpoint PUT (Some (JSON_stringify_compact updates)) w
  | None => None
  end.

(** The message of the response is dropped: the method promises [void]. *)
Definition deleteTask (id : Z) (w : World)
  : option ((unit + ApiError.t) * World) :=
  match task_endpoint id with
  | Some endpoint =>
      match makeRequest endpoint DELETE None w with
      | Some (inl _, w') => Some (inl tt, w')
      | Some (inr error, w') => Some (inr error, w')
      | None => None
      end
  | None => None
  end.

Definition checkApiHealth (w : World) : option (bool * World) :=
  match getAllTasks w with
  | Some (inl _, w') => Some (true, w')
  | Some (inr _, w') => Some (false, w')
  | None => None
  end.

End Service.

End TasksService.

(** ** [useCreateTask]

    A call of the hook's function is modelled by what it returns and by
    the state updates and the calls of the optional callbacks that it
    makes, in their order; the callbacks are taken to return. *)

Module useCreateTask.

Inductive effect : Type :=
| setIsSubmitting (submitting : bool)
| setError (error : option ApiError.t)
| setLastCreatedTask (task : Value)
| onInvalidateCache
| onSuccess (task : Value)
| onError (error : ApiError.t).

Definition le_titre_est_requis : string :=
  "Le titre de la t" ++ String a_circumflex "che est requis".

Definition le_titre_est_trop_long : string :=
  "Le titre ne peut pas d" ++ String e_acute "passer 200 caract"
  ++ String e_grave "res".

Section Hook.
Context {World : Type}.
Variable fetch : Fetch.Request.t -> World -> option (Fetch.outcome * World).

Definition createTask (title : string) (completed : bool) (w : World)
  : option (option Value * list effect * World) :=
  if String.eqb title "" || (String.length (trim title) =? 0)%nat then
    let validationError :=
      ApiError.mk le_titre_est_requis 400 (Some (JStr "VALIDATION_ERROR")) None in
    Some (None, [setError (Some validationError); onError validationError], w)
  else if (200 <? String.length title)%nat then
    let validationError :=
      ApiError.mk le_titre_est_trop_long 400 (Some (JStr "VALIDATION_ERROR"))
        None in
    Some (None, [setError (Some validationError); onError validationError], w)
  else
    let cleanTaskData :=
      JObj [("title", JStr (trim title)); ("completed", JBool completed)] in
    match TasksService.createTask fetch cleanTaskData w with
    | Some (inl newTask, w') =>
        Some (Some newTask,
              [setIsSubmitting true; setError None;
               setLastCreatedTask newTask; onInvalidateCache;
               onSuccess newTask; setIsSubmitting false], w')
    | Some (inr apiError, w') =>
        Some (None,
              [setIsSubmitting true; setError None;
               setError (Some apiError); onError apiError;
               setIsSubmitting false], w')
    | None => None
    end.

End Hook.

End useCreateTask.

(** ** [useUpdateTask] *)

Module useUpdateTask.

Inductive effect : Type :=
| setTaskLoading (id : Z) (loading : bool)
| clearError (id : Z)
| setTaskError (id : Z) (error : ApiError.t)
| onOptimisticUpdate (id : Z) (updates : Value)
| onInvalidateCache
| onSuccess (task : Value)
| onRollback (id : Z)
| onError (error : ApiError.t).

Definition le_titre_est_vide : string :=
  "Le titre ne peut pas " ++ String e_circumflex "tre vide".

(** [cleanUpdates]: the fields that are given, the title trimmed. *)
Definition cleanUpdates (title : option string) (completed : option bool)
  : Value :=
  let o :=
    match title with
    | Some title => obj_put "title" (JStr (trim title)) []
    | None => []
    end in
  JObj match completed with
       | Some completed => obj_put "completed" (JBool completed) o
       | None => o
       end.

Section Hook.
Context {World : Type}.
Variable fetch : Fetch.Request.t -> World -> option (Fetch.outcome * World).

Definition updateTask (id : Z) (title : option string)
  (completed : option bool) (w : World)
  : option (option Value * list effect * World) :=
  let rejected message :=
    let validationError :=
      ApiError.mk message 400 (Some (JStr "VALIDATION_ERROR")) None in
    Some (None, [setTaskError id validationError; onError validationError], w) in
  match
    match title with
    | Some title =>
        if (String.length (trim title) =? 0)%nat then Some le_titre_est_vide
        else if (200 <? String.length title)%nat
        then Some useCreateTask.le_titre_est_trop_long
        else None
    | None => None
    end
  with
  | Some message => rejected message
  | None =>
      let updates := cleanUpdates title completed in
      match TasksService.updateTask fetch id updates w with
      | Some (inl updatedTask, w') =>
          Some (Some updatedTask,
                [setTaskLoading id true; clearError id;
                 onOptimisticUpdate id updates; onInvalidateCache;
                 onSuccess updatedTask; setTaskLoading id false], w')
      | Some (inr apiError, w') =>
          Some (None,
                [setTaskLoading id true; clearError id;
                 onOptimisticUpdate id updates; onRollback id;
                 setTaskError id apiError; onError apiError;
                 setTaskLoading id false], w')
      | None => None
      end
  end.

Definition toggleTaskCompletion (id : Z) (currentCompleted : bool)
  : World -> option (option Value * list effect * World) :=
  updateTask id None (Some (negb currentCompleted)).

End Hook.

End useUpdateTask.

(** * The server behind [fetch]: [server/app.js]

    [app.use (express.json ())], [app.use ("/api", taskRoutes)] and
    [app.listen (3001)], as a client of [http://localhost:3001] meets
    them: the world of the client is the data file of the server.  The
    port is the default one, and the page of the client comes from the
    origin that [middleware/cors.js] allows.  The middlewares that leave
    the body and the route alone (helmet, morgan, cors) are not modelled;
    what the error handler and the 404 page of Express answer is left out
    of the model ([None]). *)

Module App.

(** The reason phrase that comes with a status. *)
Definition statusText (status : Z) : string :=
  if status =? 200 then "OK"
  else if status =? 201 then "Created"
  else if status =? 400 then "Bad Request"
  else if status =? 404 then "Not Found"
  else if status =? 500 then "Internal Server Error"
  else "".

(** [Buffer.byteLength (text, "utf8")] for code units below 256. *)
Fixpoint byteLength (text : string) : nat :=
  match text with
  | EmptyString => O
  | String c r => ((if (N_of_ascii c <? 128)%N then 1 else 2) + byteLength r)%nat
  end.

(** [res.status (code).json (payload)] as the client receives it: the
    payload printed without a gap, its length in the header, and the value
    that [response.json ()] parses back from the text. *)
Definition respond (res : Response) : option Fetch.Response.t :=
  let text := JSON_stringify_compact (payload res) in
  match JSON_parse text with
  | Parsed data =>
      Some (Fetch.Response.mk (status res) (statusText (status res))
              [("content-type", "application/json; charset=utf-8");
               ("content-length",
                NilEmpty.string_of_uint (N.to_uint (N.of_nat (byteLength text))))]
              (inl data))
  | _ => None
  end.

(** A character that a path segment holds as it is. *)
Definition plain_char (c : ascii) : bool :=
  let n := N_of_ascii c in
  ((48 <=? n) && (n <=? 57) || (65 <=? n) && (n <=? 90)
   || (97 <=? n) && (n <=? 122) || (n =? 45))%N.

Fixpoint plain (segment : string) : bool :=
  match segment with
  | EmptyString => true
  | String c r => plain_char c && plain r
  end.

(** The routes of [routes/tasks.js] under [/api]: [req.params.id] of the
    route that the method and the path select. *)
Definition route (method : Method) (path : string) : option (option string) :=
  match strip_prefix "/tasks" path with
  | Some EmptyString =>
      match method with
      | GET | POST => Some None
      | _ => None
      end
  | Some (String c segment) =>
      if Ascii.eqb c "/" && plain segment
         && negb (String.eqb segment "") then
        match method with
        | PUT | DELETE => Some (Some segment)
        | _ => None
        end
      else None
  | None => None
  end.

(** The limit of [express.json ({limit: "10mb"})], in bytes. *)
Definition json_limit : N := 10485760.

(** The request declares a body of JSON. *)
Definition declares_json (request : Fetch.Request.t) : bool :=
  existsb
    (fun h => String.eqb (fst h) "Content-Type"
              && String.eqb (snd h) "application/json")
    (Fetch.Request.headers request).

(** [express.json ({limit: "10mb"})]: [req.body] of a request.  [fetch]
    sends a request without a body with no length, and [req.body] stays
    undefined; but for the methods POST and PUT it sends the length 0, and
    the parser then gives the empty object to a request that declares
    JSON.  A body is parsed when the request declares JSON and the text is
    within the limit, and only an object or an array passes the strict
    mode. *)
Definition express_json (request : Fetch.Request.t) : option Value :=
  match Fetch.Request.body request with
  | None =>
      match Fetch.Request.method request with
      | POST | PUT =>
          if declares_json request then Some (JObj []) else Some JNull
      | _ => Some JNull
      end
  | Some text =>
      if declares_json request
         && (N.of_nat (byteLength text) <=? json_limit)%N
      then
        match JSON_parse text with
        | Parsed (JObj o) => Some (JObj o)
        | Parsed (JArr l) => Some (JArr l)
        | _ => None
        end
      else None
  end.

Definition listen (request : Fetch.Request.t) (fs : FS)
  : option (Fetch.outcome * FS) :=
  match strip_prefix "http://localhost:3001/api" (Fetch.Request.url request) with
  | Some path =>
      match route (Fetch.Request.method request) path, express_json request with
      | Some id, Some body =>
          match router (Fetch.Request.method request) (mkRequest id body) fs with
          | Some (Return res, fs') =>
              option_map (fun response => (Fetch.Resolves response, fs'))
                (respond res)
          | _ => None
          end
      | _, _ => None
      end
  | None => None
  end.

End App.

(** * [cypress/support/api-helpers.ts] *)

Module ApiHelpers.

(** [`http://localhost:3001/api/tasks/${task.id}`]; reading the id of
    [null] throws. *)
Definition task_url (task : Value) : option string :=
  match task with
  | JNull => None
  | _ =>
      option_map (append "http://localhost:3001/api/tasks/")
        match prop task "id" with
        | Some id => to_string id
        | None => Some "undefined"
        end
  end.

(** [cy.request] with [failOnStatusCode: false], one request after the
    other. *)
Definition request (method : Method) (url : string) (fs : FS)
  : option (Fetch.outcome * FS) :=
  App.listen (Fetch.Request.mk url method [] None) fs.

Fixpoint delete_each (tasks : list Value) (fs : FS) : option FS :=
  match tasks with
  | [] => Some fs
  | task :: rest =>
      match task_url task with
      | Some url =>
          match request DELETE url fs with
          | Some (_, fs') => delete_each rest fs'
          | None => None
          end
      | None => None
      end
  end.

Definition cleanupAllTasks (fs : FS) : option FS :=
  match request GET "http://localhost:3001/api/tasks" fs with
  | Some (Fetch.Resolves response, fs') =>
      match Fetch.Response.status response =? 200,
            Fetch.Response.json response with
      | true, inl (JArr tasks) => delete_each tasks fs'
      | _, _ => Some fs'
      end
  | _ => None
  end.

End ApiHelpers.

(** * Vocabulary of the properties of the client *)

(** What a call of the service gives for a response of the server: the
    payload of a response of status 2xx, else an [ApiError] with the
    message of the payload, the status and the code [HTTP_<status>]. *)
Definition received (res : Response) : Value + ApiError.t :=
  if (200 <=? status res) && (status res <=? 299) then inl (payload res)
  else
    inr (ApiError.mk
           match prop (payload res) "error" with
           | Some (JStr message) => message
           | _ => EmptyString
           end
           (status res)
           (Some (JStr (TasksService.http_code (status res)))) None).

(** The same for a call that promises [void]. *)
Definition received_void (res : Response) : unit + ApiError.t :=
  match received res with
  | inl _ => inl tt
  | inr error => inr error
  end.

(** What the service makes of the answer of a route. *)
Definition answered {A : Type} (receive : Response -> A)
  (r : option (outcome Response * FS)) : option (A * FS) :=
  match r with
  | Some (Return res, fs') => Some (receive res, fs')
  | _ => None
  end.

(** The text of the value, as the service sends it, is within the limit
    of the server. *)
Definition within_limit (v : Value) : Prop :=
  (N.of_nat (App.byteLength (JSON_stringify_compact v)) <= App.json_limit)%N.

(** The error that a hook makes of an input it turns down. *)
Definition validation_error (message : string) : ApiError.t :=
  ApiError.mk message 400 (Some (JStr "VALIDATION_ERROR")) None.

(** The file holds a document with the tasks [ts] and the counter [n]. *)
Definition holds (fs : FS) (ts : list Value) (n : Z) : Prop :=
  exists o,
    readData fs = Some (Return (JObj o), fs)
    /\ obj_get "tasks" o = Some (JArr ts)
    /\ obj_get "nextId" o = Some (JNum n).

(** ** [useTasks]

    The hook of the list, in the file of the hooks: [fetchTasks] and the
    two functions that call it.  The service throws nothing but an
    [ApiError], so the branch of [catch] for another value is not met. *)

Module useTasks.

Inductive effect : Type :=
| setLoading (loading : bool)
| setError (error : option ApiError.t)
| setTasks (tasks : Value)
| setIsHealthy (healthy : bool).

(** [err.code === text] *)
Definition code_is (error : ApiError.t) (text : string) : bool :=
  match ApiError.code error with
  | Some (JStr code) => String.eqb code text
  | _ => false
  end.

Section Hook.
Context {World : Type}.
Variable fetch : Fetch.Request.t -> World -> option (Fetch.outcome * World).

Definition fetchTasks (showLoading : bool) (w : World)
  : option (list effect * World) :=
  let before :=
    ((if showLoading then [setLoading true] else []) ++ [setError None])%list in
  let finally := if showLoading then [setLoading false] else [] in
  match TasksService.getAllTasks fetch w with
  | Some (inl fetchedTasks, w') =>
      Some ((before ++ [setTasks fetchedTasks; setIsHealthy true]
             ++ finally)%list, w')
  | Some (inr err, w') =>
      Some ((before
             ++ [setError (Some err)]
             ++ (if code_is err "NETWORK_ERROR" || code_is err "REQUEST_TIMEOUT"
                 then [setIsHealthy false] else [])
             ++ finally)%list, w')
  | None => None
  end.

Definition refetch : World -> option (list effect * World) :=
  fetchTasks true.

Definition invalidateCache (w : World) : option (list effect * World) :=
  match fetchTasks true w with
  | Some (effects, w') => Some (setTasks (JArr []) :: effects, w')
  | None => None
  end.

End Hook.

End useTasks.

(** ** [useTasksManager]

    The hooks as the manager configures them: [useCreateTask] and
    [useUpdateTask] are given the callbacks [onSuccess] and
    [onInvalidateCache] and no other, so a call [callbacks.f?.(...)] of
    another callback is not made.  [onInvalidateCache] is
    [invalidateCache] of [useTasks]; the hooks start it and do not await
    it, and it stays the effect of that name. *)

Module useTasksManager.

(** The effects of [useCreateTask] without the call of [onError]. *)
Definition create_effect (e : useCreateTask.effect) : bool :=
  match e with
  | useCreateTask.onError _ => false
  | _ => true
  end.

(** The effects of [useUpdateTask] without the calls of
    [onOptimisticUpdate], [onRollback] and [onError]. *)
Definition update_effect (e : useUpdateTask.effect) : bool :=
  match e with
  | useUpdateTask.onOptimisticUpdate _ _
  | useUpdateTask.onRollback _
  | useUpdateTask.onError _ => false
  | _ => true
  end.

Section Manager.
Context {World : Type}.
Variable fetch : Fetch.Request.t -> World -> option (Fetch.outcome * World).

(** [createHook.createTask] *)
Definition createTask (title : string) (completed : bool) (w : World)
  : option (option Value * list useCreateTask.effect * World) :=
  match useCreateTask.createTask fetch title completed w with
  | Some (result, effects, w') =>
      Some (result, filter create_effect effects, w')
  | None => None
  end.

(** [updateHook.updateTask] *)
Definition updateTask (id : Z) (title : option string)
  (completed : option bool) (w : World)
  : option (option Value * list useUpdateTask.effect * World) :=
  match useUpdateTask.updateTask fetch id title completed w with
  | Some (result, effects, w') =>
      Some (result, filter update_effect effects, w')
  | None => None
  end.

End Manager.

End useTasksManager.

(** ** [app/todo/page.tsx]: the handlers of the page *)

Module Page.

Section Handlers.
Context {World : Type}.
Variable fetch : Fetch.Request.t -> World -> option (Fetch.outcome * World).

(** [handleCreateTask]: it awaits [createTask] of the manager and logs
    the title of the task when there is one. *)
Definition handleCreateTask (title : string) (completed : bool) (w : World)
  : option (list useCreateTask.effect * World) :=
  match useTasksManager.createTask fetch title completed w with
  | Some (_, effects, w') => Some (effects, w')
  | None => None
  end.

End Handlers.

End Page.

(** ** [TaskForm]: the submission of the form

    The property [onSubmit] is [handleCreateTask], as the page passes
    it. *)

Module TaskForm.

Inductive effect : Type :=
| preventDefault
| submitted (effects : list useCreateTask.effect)
| setTitle (title : string).

Section Form.
Context {World : Type}.
Variable fetch : Fetch.Request.t -> World -> option (Fetch.outcome * World).

Definition handleSubmit (title : string) (w : World)
  : option (list effect * World) :=
  if (String.length (trim title) =? 0)%nat then Some ([preventDefault], w)
  else
    match Page.handleCreateTask fetch (trim title) false w with
    | Some (effects, w') =>
        Some ([preventDefault; submitted effects; setTitle ""], w')
    | None => None
    end.

End Form.

End TaskForm.

(** ** [TaskItem]: the handlers of an item of the list

    The property [onUpdate] is [updateTask] of the manager, as the page
    passes it through the list. *)

Module TaskItem.

Inductive effect : Type :=
| updated (effects : list useUpdateTask.effect)
| setIsEditing (editing : bool).

Section Item.
Context {World : Type}.
Variable fetch : Fetch.Request.t -> World -> option (Fetch.outcome * World).

(** [task.id] and [task.completed] of the item, as the types give them. *)
Definition handleToggleComplete (id : Z) (completed : bool) (w : World)
  : option (list effect * World) :=
  match useTasksManager.updateTask fetch id None (Some (negb completed)) w with
  | Some (_, effects, w') => Some ([updated effects], w')
  | None => None
  end.

Definition handleSaveEdit (id : Z) (editTitle : string) (w : World)
  : option (list effect * World) :=
  if (String.length (trim editTitle) =? 0)%nat then Some ([], w)
  else
    match useTasksManager.updateTask fetch id (Some (trim editTitle)) None w with
    | Some (result, effects, w') =>
        Some (if truthy result then [updated effects; setIsEditing false]
              else [updated effects], w')
    | None => None
    end.

End Item.

End TaskItem.

(** * Properties of the runtime model *)

(** ** Equality test *)

Lemma Value_eqb_eq : forall a b, Value_eqb a b = true -> a = b.
Proof.
  induction a as [ | x | x | x | l IH | o IH ] using Value_ind;
    intros [ | y | y | y | l2 | o2 ]; simpl; try discriminate; intros H.
  - reflexivity.
  - apply Bool.eqb_prop in H. congruence.
  - apply Z.eqb_eq in H. congruence.
  - apply String.eqb_eq in H. congruence.
  - f_equal. revert l2 H.
    induction IH as [ | x l Hx _ IHl ]; intros [ | y l2 ] H;
      try discriminate; try reflexivity.
    apply andb_true_iff in H. destruct H as [H1 H2].
    f_equal; [ apply Hx, H1 | apply IHl, H2 ].
  - f_equal. revert o2 H.
    induction IH as [ | [k x] o Hx _ IHo ]; intros [ | [k2 y] o2 ] H;
      try discriminate; try reflexivity.
    apply andb_true_iff in H. destruct H as [H H3].
    apply andb_true_iff in H. destruct H as [H1 H2].
    apply String.eqb_eq in H1. simpl in Hx.
    f_equal; [ f_equal; [ exact H1 | apply Hx, H2 ] | apply IHo, H3 ].
Qed.

Lemma wf_value_obj_entries :
  forall o, wf_value (JObj o) = true -> obj_of_entries o = o.
Proof.
  intros o H. simpl in H. apply andb_true_iff in H. destruct H as [_ H].
  apply (Value_eqb_eq (JObj (obj_of_entries o)) (JObj o)) in H. congruence.
Qed.

(** ** Strings *)

Lemma parse_quote_chars :
  forall s k, parse_chars (quote_chars s k) = POk s k.
Proof.
  induction s as [ | c s IH ]; intros k.
  - reflexivity.
  - simpl quote_chars.
    destruct c as [[] [] [] [] [] [] [] []];
      cbn -[parse_chars quote_chars]; 
      try (cbn [parse_chars]; cbn -[parse_chars quote_chars]; rewrite IH; reflexivity).
Qed.

(** ** Numbers *)

Lemma span_digits_string_of_uint :
  forall d k, no_digit_head k ->
    span_digits (NilEmpty.string_of_uint d ++ k) = (d, k).
Proof.
  induction d; intros k Hk; simpl;
    try (rewrite (IHd k Hk); reflexivity).
  destruct k as [ | c r ]; [ reflexivity | ].
  simpl in *. rewrite Hk. reflexivity.
Qed.

Lemma to_uint_unorm : forall m, Decimal.unorm (N.to_uint m) = N.to_uint m.
Proof.
  intros m. rewrite <- (DecimalN.Unsigned.to_of (N.to_uint m)).
  rewrite DecimalN.Unsigned.of_to. reflexivity.
Qed.

Lemma string_of_uint_head :
  forall d k, d <> Decimal.Nil ->
    exists c r, NilEmpty.string_of_uint d ++ k = String c r
                /\ Ascii.eqb c "-" = false /\ is_json_ws c = false.
Proof.
  intros d k Hd. destruct d; try congruence;
    simpl; eexists; eexists; (split; [ reflexivity | split; reflexivity ]).
Qed.

Lemma to_uint_not_nil : forall m, N.to_uint m <> Decimal.Nil.
Proof.
  intros [ | p ]; simpl.
  - discriminate.
  - apply DecimalPos.Unsigned.to_uint_nonnil.
Qed.

Lemma follows_no_digit : forall k, follows k -> no_digit_head k.
Proof.
  intros k [-> | [r [-> | ->]]]; simpl; auto.
Qed.

Lemma follows_no_fraction :
  forall k, follows k -> starts_fraction_or_exponent k = false.
Proof.
  intros k [-> | [r [-> | ->]]]; reflexivity.
Qed.

Lemma parse_print_number :
  forall n k, safe_integer n = true -> follows k ->
    parse_number (print_number n k) = POk (JNum n) k.
Proof.
  intros n k Hn Hk. unfold safe_integer in Hn.
  apply andb_true_iff in Hn. destruct Hn as [Hlo Hhi].
  apply Z.leb_le in Hlo. apply Z.leb_le in Hhi.
  unfold print_number, parse_number.
  destruct (string_of_uint_head (N.to_uint (Z.abs_N n)) k (to_uint_not_nil _))
    as [c [r [E [Hc _]]]].
  destruct (n <? 0) eqn:Hneg.
  - apply Z.ltb_lt in Hneg.
    replace (Ascii.eqb "-" "-") with true by reflexivity.
    rewrite (span_digits_string_of_uint _ _ (follows_no_digit _ Hk)).
    rewrite to_uint_unorm. unfold uint_eqb.
    destruct (Decimal.uint_eq_dec _ _) as [_ | Hne]; [ | congruence ].
    cbn [negb]. rewrite (follows_no_fraction _ Hk).
    rewrite DecimalN.Unsigned.of_to. rewrite N2Z.inj_abs_N.
    replace (Z.abs n =? 0) with false by (symmetry; apply Z.eqb_neq; lia).
    replace (MAX_SAFE_INTEGER <? Z.abs n) with false
      by (symmetry; apply Z.ltb_ge; lia).
    cbn [andb]. do 2 f_equal. lia.
  - apply Z.ltb_ge in Hneg.
    rewrite E. rewrite Hc. rewrite <- E.
    rewrite (span_digits_string_of_uint _ _ (follows_no_digit _ Hk)).
    rewrite to_uint_unorm. unfold uint_eqb.
    destruct (Decimal.uint_eq_dec _ _) as [_ | Hne]; [ | congruence ].
    cbn [negb]. rewrite (follows_no_fraction _ Hk).
    rewrite DecimalN.Unsigned.of_to. rewrite N2Z.inj_abs_N.
    replace (MAX_SAFE_INTEGER <? Z.abs n) with false
      by (symmetry; apply Z.ltb_ge; lia).
    cbn [andb]. do 2 f_equal. lia.
Qed.

(** ** White space *)

Lemma skip_ws_spaces : forall n s, skip_ws (spaces n s) = skip_ws s.
Proof.
  induction n as [ | n IH ]; intros s; simpl; auto.
Qed.

Lemma quote_char_head :
  forall c k, exists a r, quote_char c k = String a r.
Proof.
  intros c k. unfold quote_char.
  repeat match goal with
         | |- context [if ?b then _ else _] => destruct b
         end; eexists; eexists; reflexivity.
Qed.

Lemma print_number_head :
  forall n k, exists c r, print_number n k = String c r /\ number_head c = true.
Proof.
  intros n k. unfold print_number.
  destruct (n <? 0).
  - eexists; eexists; split; reflexivity.
  - generalize (to_uint_not_nil (Z.abs_N n)).
    destruct (N.to_uint (Z.abs_N n)); try congruence; intros _;
      simpl; eexists; eexists; split; reflexivity.
Qed.

Lemma number_head_ok : forall c, number_head c = true -> head_ok c = true.
Proof.
  intros c. destruct c as [[] [] [] [] [] [] [] []]; 
    try reflexivity; intros H; discriminate H.
Qed.

Lemma parse_value_number :
  forall f c r, number_head c = true ->
    parse_value (S f) (String c r) = parse_number (String c r).
Proof.
  intros f c r. destruct c as [[] [] [] [] [] [] [] []];
    try reflexivity; intros H; discriminate H.
Qed.

Lemma print_value_head :
  forall v ind k, exists c r,
    print_value ind v k = String c r /\ head_ok c = true.
Proof.
  intros [ | [] | n | s | [ | x l ] | [ | kv o ] ] ind k;
    try (eexists; eexists; split; reflexivity).
  destruct (print_number_head n k) as [c [r [E H]]].
  exists c, r. split; [ exact E | apply number_head_ok, H ].
Qed.

Lemma skip_ws_print_value :
  forall v ind k, skip_ws (print_value ind v k) = print_value ind v k.
Proof.
  intros v ind k. destruct (print_value_head v ind k) as [c [r [E H]]].
  rewrite E. simpl. unfold head_ok in H.
  destruct (is_json_ws c); [ discriminate H | reflexivity ].
Qed.

(** ** Fuel *)

(** ** A printed value parses back to itself *)

Lemma follows_print_more :
  forall (A : Type) (pr : A -> string -> string) ind l c ind' k,
    follows (print_more pr ind l (String newline (spaces ind' (String c k)))).
Proof.
  intros A pr ind [ | x l ] c ind' k; right; eexists; simpl; eauto.
Qed.

Ltac solve_follows :=
  first [ apply follows_print_more | right; eexists; simpl; eauto ].

Lemma parse_print_elements :
  forall ind0 ind k l, Forall parses_back l -> forallb wf_value l = true ->
    forall x f, parses_back x -> wf_value x = true ->
      (elements_size (x :: l) < f)%nat ->
      parse_elements f
        (print_value ind x
           (print_more (print_value ind) ind l
              (String newline (spaces ind0 (String "]" k)))))
      = POk (x :: l) k.
Proof.
  intros ind0 ind k l IH. induction IH as [ | y l Hy _ IHl ];
    intros Hwf x f Hx Hwx Hf; (destruct f as [ | f ]; [ lia | ]);
    unfold elements_size in Hf; simpl in Hf; cbn [parse_elements].
  - rewrite (Hx Hwx); [ | solve_follows | lia ].
    simpl. rewrite skip_ws_spaces. reflexivity.
  - simpl in Hwf. apply andb_true_iff in Hwf. destruct Hwf as [Hwy Hwl].
    rewrite (Hx Hwx); [ | solve_follows | lia ].
    simpl. rewrite skip_ws_spaces, skip_ws_print_value.
    rewrite (IHl Hwl y f Hy Hwy); [ reflexivity | ].
    unfold elements_size. simpl. lia.
Qed.

Local Arguments quote : simpl never.

Lemma skip_ws_quote : forall s k, skip_ws (quote s k) = quote s k.
Proof. reflexivity. Qed.

Lemma parse_print_members :
  forall ind0 ind k o,
    Forall (fun kv => parses_back (snd kv)) o ->
    forallb (fun kv => wf_value (snd kv)) o = true ->
    forall key x f, parses_back x -> wf_value x = true ->
      (members_size ((key, x) :: o) < f)%nat ->
      parse_members f
        (quote key (String ":" (String " "
           (print_value ind x
              (print_more
                 (fun kv k' =>
                    quote (fst kv)
                      (String ":" (String " " (print_value ind (snd kv) k'))))
                 ind o
                 (String newline (spaces ind0 (String "}" k)))))))) 
      = POk ((key, x) :: o) k.
Proof.
  intros ind0 ind k o IH. induction IH as [ | [key' y] o Hy _ IHo ];
    intros Hwf key x f Hx Hwx Hf; (destruct f as [ | f ]; [ lia | ]);
    unfold members_size in Hf; simpl in Hf; cbn [parse_members].
  - unfold quote. replace (Ascii.eqb dquote dquote) with true by reflexivity.
    rewrite parse_quote_chars. simpl. rewrite skip_ws_print_value.
    rewrite (Hx Hwx); [ | solve_follows | lia ].
    simpl. rewrite skip_ws_spaces. reflexivity.
  - simpl in Hwf. apply andb_true_iff in Hwf. destruct Hwf as [Hwy Hwo].
    simpl in Hy.
    unfold quote at 1. replace (Ascii.eqb dquote dquote) with true by reflexivity.
    rewrite parse_quote_chars. simpl. rewrite skip_ws_print_value.
    rewrite (Hx Hwx); [ | solve_follows | lia ].
    simpl. rewrite skip_ws_spaces, skip_ws_quote.
    rewrite (IHo Hwo key' y f Hy Hwy); [ reflexivity | ].
    unfold members_size. simpl. lia.
Qed.

Theorem parse_print_value : forall v, parses_back v.
Proof.
  induction v as [ | b | n | s | l IH | o IH ] using Value_ind;
    intros Hwf ind k f Hk Hf; (destruct f as [ | f ]; [ lia | ]).
  - reflexivity.
  - destruct b; reflexivity.
  - simpl in Hwf. destruct (print_number_head n k) as [c [r [E Hc]]].
    cbn [print_value]. rewrite E, (parse_value_number f c r Hc), <- E.
    apply parse_print_number; assumption.
  - cbn [print_value]. unfold quote. simpl. rewrite parse_quote_chars.
    reflexivity.
  - destruct l as [ | x l ]; [ reflexivity | ].
    inversion IH as [ | ? ? Hx Hl ]; subst.
    simpl in Hwf. apply andb_true_iff in Hwf. destruct Hwf as [Hwx Hwl].
    cbn [print_value print_block size] in *.
    simpl. rewrite skip_ws_spaces, skip_ws_print_value.
    destruct (print_value_head x (ind + 2)
                (print_more (print_value (ind + 2)) (ind + 2) l
                   (String newline (spaces ind (String "]" k)))))
      as [c [r [E Hc]]].
    rewrite E. unfold head_ok in Hc.
    destruct (Ascii.eqb c "]"); 
      [ rewrite andb_false_r in Hc; discriminate Hc | ].
    rewrite <- E.
    rewrite (parse_print_elements ind (ind + 2) k l Hl Hwl x f Hx Hwx);
      [ reflexivity | unfold elements_size; simpl in *; lia ].
  - destruct o as [ | [key x] o ]; [ reflexivity | ].
    inversion IH as [ | ? ? Hx Ho ]; subst.
    pose proof (wf_value_obj_entries _ Hwf) as Hnorm.
    simpl in Hwf. apply andb_true_iff in Hwf. destruct Hwf as [Hwf _].
    apply andb_true_iff in Hwf. destruct Hwf as [Hwx Hwo].
    cbn [print_value print_block size fst snd] in *.
    simpl. rewrite skip_ws_spaces, skip_ws_quote.
    unfold quote at 1.
    replace (Ascii.eqb dquote "}") with false by reflexivity.
    fold (quote key).
    rewrite (parse_print_members ind (ind + 2) k o Ho Hwo key x f Hx Hwx);
      [ simpl; rewrite Hnorm; reflexivity
      | unfold members_size; simpl in *; lia ].
Qed.

(** ** The text is long enough to be its own fuel *)

Lemma length_append :
  forall a b, String.length (a ++ b) = (String.length a + String.length b)%nat.
Proof.
  induction a as [ | c a IH ]; intros b; simpl; auto.
Qed.

Lemma length_spaces :
  forall n k, String.length (spaces n k) = (n + String.length k)%nat.
Proof.
  induction n as [ | n IH ]; intros k; simpl; auto.
Qed.

Lemma length_quote_char :
  forall c k, (String.length k <= String.length (quote_char c k))%nat.
Proof.
  intros c k. unfold quote_char.
  repeat match goal with
         | |- context [if ?b then _ else _] => destruct b
         end; simpl; lia.
Qed.

Lemma length_quote :
  forall s k, (String.length k <= String.length (quote s k))%nat.
Proof.
  intros s k. unfold quote. simpl.
  induction s as [ | c s IH ]; simpl.
  - lia.
  - pose proof (length_quote_char c (quote_chars s k)). lia.
Qed.

Section PrintLength.
Context {A : Type} (pr : A -> string -> string) (sz : A -> nat).

Lemma length_print_more :
  forall ind l k,
    Forall (fun x => forall k',
              (sz x + String.length k' <= String.length (pr x k'))%nat) l ->
    (list_sum (map (fun x => S (sz x)) l) + String.length k
     <= String.length (print_more pr ind l k))%nat.
Proof.
  intros ind l k H. induction H as [ | x l Hx _ IH ]; simpl.
  - lia.
  - rewrite length_spaces.
    pose proof (Hx (print_more pr ind l k)). lia.
Qed.

Lemma length_print_block :
  forall a b ind l k,
    Forall (fun x => forall k',
              (sz x + String.length k' <= String.length (pr x k'))%nat) l ->
    (S (list_sum (map (fun x => S (sz x)) l)) + String.length k
     <= String.length (print_block pr a b ind l k))%nat.
Proof.
  intros a b ind l k H. destruct H as [ | x l Hx Hl ]; simpl.
  - lia.
  - rewrite length_spaces.
    pose proof (Hx (print_more pr (ind + 2) l
                      (String newline (spaces ind (String b k))))) as H1.
    pose proof (length_print_more (ind + 2) l
                  (String newline (spaces ind (String b k))) Hl) as H2.
    simpl in H2. rewrite length_spaces in H2. simpl in H2. lia.
Qed.
End PrintLength.

Lemma length_print_value :
  forall v ind k,
    (size v + String.length k <= String.length (print_value ind v k))%nat.
Proof.
  induction v as [ | b | n | s | l IH | o IH ] using Value_ind; intros ind k.
  - simpl. lia.
  - destruct b; simpl; lia.
  - simpl. unfold print_number. destruct (n <? 0); simpl;
      rewrite length_append; lia.
  - simpl. apply length_quote.
  - cbn [print_value size].
    apply (length_print_block (print_value (ind + 2)) size).
    eapply Forall_impl; [ | exact IH ]. intros x Hx k'. apply Hx.
  - cbn [print_value size].
    apply (length_print_block
             (fun kv k' =>
                quote (fst kv)
                  (String ":" (String " " (print_value (ind + 2) (snd kv) k'))))
             (fun kv => size (snd kv))).
    eapply Forall_impl; [ | exact IH ]. intros [key x] Hx k'. simpl in *.
    pose proof (length_quote key
                  (String ":" (String " " (print_value (ind + 2) x k')))) as H1.
    pose proof (Hx (ind + 2)%nat k') as H2. simpl in H1. lia.
Qed.

Lemma JSON_parse_stringify :
  forall v, wf_value v = true -> JSON_parse (JSON_stringify v) = Parsed v.
Proof.
  intros v Hwf. unfold JSON_parse, JSON_stringify.
  rewrite skip_ws_print_value.
  rewrite (parse_print_value v Hwf); [ reflexivity | left; reflexivity | ].
  pose proof (length_print_value v 0 "") as H. simpl in H. lia.
Qed.

(** ** Reading and writing the properties of an object *)

Local Open Scope list_scope.

Lemma Value_eqb_refl : forall a, Value_eqb a a = true.
Proof.
  induction a as [ | x | x | x | l IH | o IH ] using Value_ind; simpl.
  - reflexivity.
  - apply Bool.eqb_reflx.
  - apply Z.eqb_refl.
  - apply String.eqb_refl.
  - induction IH as [ | x l Hx _ IHl ]; [ reflexivity | ].
    rewrite Hx, IHl. reflexivity.
  - induction IH as [ | [k x] o Hx _ IHo ]; [ reflexivity | ].
    simpl in Hx. rewrite String.eqb_refl, Hx, IHo. reflexivity.
Qed.

Lemma obj_get_app :
  forall k o1 o2,
    obj_get k (o1 ++ o2) =
    match obj_get k o1 with Some v => Some v | None => obj_get k o2 end.
Proof.
  intros k o1 o2. induction o1 as [ | [k' v'] o1 IH ]; simpl.
  - reflexivity.
  - destruct (String.eqb k k'); [ reflexivity | exact IH ].
Qed.

Lemma obj_get_replace :
  forall k k' v o,
    obj_get k (obj_replace k' v o) =
    if String.eqb k k'
    then match obj_get k' o with Some _ => Some v | None => None end
    else obj_get k o.
Proof.
  intros k k' v o. induction o as [ | [k1 v1] o IH ]; simpl.
  - destruct (String.eqb k k'); reflexivity.
  - destruct (String.eqb k' k1) eqn:E1; simpl.
    + apply String.eqb_eq in E1. subst k1.
      destruct (String.eqb k k'); reflexivity.
    + destruct (String.eqb k k1) eqn:E2.
      * apply String.eqb_eq in E2. subst k1.
        destruct (String.eqb k k') eqn:E3; [ | reflexivity ].
        apply String.eqb_eq in E3. subst k'.
        rewrite String.eqb_refl in E1. discriminate E1.
      * exact IH.
Qed.

Lemma obj_get_insert_index :
  forall i k k' v o,
    obj_get k' o = None ->
    obj_get k (obj_insert_index i k' v o) =
    if String.eqb k k' then Some v else obj_get k o.
Proof.
  intros i k k' v o. induction o as [ | [k1 v1] o IH ]; simpl; intros Hn.
  - destruct (String.eqb k k'); reflexivity.
  - destruct (String.eqb k' k1) eqn:E1; [ discriminate Hn | ].
    destruct (array_index k1) as [ j | ]; [ destruct (j <? i)%N | ]; simpl;
      try reflexivity.
    rewrite (IH Hn).
    destruct (String.eqb k k1) eqn:E2; [ | reflexivity ].
    apply String.eqb_eq in E2. subst k1.
    destruct (String.eqb k k') eqn:E3; [ | reflexivity ].
    apply String.eqb_eq in E3. subst k'.
    rewrite String.eqb_refl in E1. discriminate E1.
Qed.

Lemma obj_get_put :
  forall k k' v o,
    obj_get k (obj_put k' v o) =
    if String.eqb k k' then Some v else obj_get k o.
Proof.
  intros k k' v o. unfold obj_put.
  destruct (obj_get k' o) as [ x | ] eqn:E.
  - rewrite obj_get_replace, E. reflexivity.
  - destruct (array_index k') as [ i | ].
    + apply obj_get_insert_index, E.
    + rewrite obj_get_app. simpl.
      destruct (String.eqb k k') eqn:E1.
      * apply String.eqb_eq in E1. subst k'. rewrite E. reflexivity.
      * destruct (obj_get k o); reflexivity.
Qed.

Lemma obj_get_In :
  forall k v o, In (k, v) o -> obj_get k o <> None.
Proof.
  intros k v o. induction o as [ | [k1 v1] o IH ]; simpl; intros H.
  - contradiction.
  - destruct (String.eqb k k1) eqn:E; [ discriminate | ].
    destruct H as [H | H]; [ | exact (IH H) ].
    inversion H; subst. rewrite String.eqb_refl in E. discriminate E.
Qed.

Lemma obj_replace_absent :
  forall k v o, obj_get k o = None -> obj_replace k v o = o.
Proof.
  intros k v o. induction o as [ | [k1 v1] o IH ]; simpl; intros H.
  - reflexivity.
  - destruct (String.eqb k k1); [ discriminate H | ].
    rewrite (IH H). reflexivity.
Qed.

Lemma obj_replace_app :
  forall k v o1 o2,
    obj_replace k v (o1 ++ o2) =
    match obj_get k o1 with
    | Some _ => (obj_replace k v o1 ++ o2)%list
    | None => (o1 ++ obj_replace k v o2)%list
    end.
Proof.
  intros k v o1 o2. induction o1 as [ | [k1 v1] o1 IH ]; simpl.
  - reflexivity.
  - destruct (String.eqb k k1); [ reflexivity | ].
    rewrite IH. destruct (obj_get k o1); reflexivity.
Qed.

Lemma obj_replace_keys :
  forall k v o, map fst (obj_replace k v o) = map fst o.
Proof.
  intros k v o. induction o as [ | [k1 v1] o IH ]; simpl.
  - reflexivity.
  - destruct (String.eqb k k1); simpl; [ reflexivity | ].
    rewrite IH. reflexivity.
Qed.

Lemma obj_get_keys :
  forall k o1 o2, map fst o1 = map fst o2 ->
    obj_get k o1 = None -> obj_get k o2 = None.
Proof.
  intros k o1. induction o1 as [ | [k1 v1] o1 IH ];
    intros [ | [k2 v2] o2 ] H; simpl in *; try discriminate; auto.
  inversion H; subst. destruct (String.eqb k k2); [ discriminate | ].
  apply IH. assumption.
Qed.

(** ** The order of the keys *)

Lemma insert_index_at_end :
  forall i k v o, Forall (index_below i) (map fst o) ->
    obj_insert_index i k v o = o ++ [(k, v)].
Proof.
  intros i k v o. induction o as [ | [k1 v1] o IH ]; simpl; intros H.
  - reflexivity.
  - inversion H as [ | ? ? [j [Hj Hlt]] Ho ]; subst.
    rewrite Hj, Hlt, (IH Ho). reflexivity.
Qed.

Lemma insert_index_at_end_inv :
  forall i k v o, obj_get k o = None ->
    obj_insert_index i k v o = o ++ [(k, v)] ->
    Forall (index_below i) (map fst o).
Proof.
  intros i k v o. induction o as [ | [k1 v1] o IH ]; simpl; intros Hn H.
  - constructor.
  - destruct (String.eqb k k1) eqn:E; [ discriminate Hn | ].
    assert (Hmid : (k, v) :: (k1, v1) :: o <> (k1, v1) :: o ++ [(k, v)]).
    { intros Heq. inversion Heq; subst.
      rewrite String.eqb_refl in E. discriminate E. }
    destruct (array_index k1) as [ j | ] eqn:Ej;
      [ destruct (j <? i)%N eqn:Hlt | ]; try (exfalso; exact (Hmid H)).
    inversion H as [H1]. constructor.
    + exists j. split; assumption.
    + apply IH; assumption.
Qed.

Lemma put_at_end_keys :
  forall k v v' o1 o2, map fst o1 = map fst o2 ->
    obj_get k o1 = None -> obj_put k v o1 = o1 ++ [(k, v)] ->
    obj_put k v' o2 = o2 ++ [(k, v')].
Proof.
  intros k v v' o1 o2 Hk Hn H. unfold obj_put in *.
  rewrite (obj_get_keys k o1 o2 Hk Hn). rewrite Hn in H.
  destruct (array_index k) as [ i | ]; [ | reflexivity ].
  apply insert_index_at_end. rewrite <- Hk.
  apply (insert_index_at_end_inv i k v); assumption.
Qed.

Lemma length_obj_put :
  forall k v o,
    List.length (obj_put k v o) =
    match obj_get k o with Some _ => List.length o | None => S (List.length o) end.
Proof.
  intros k v o. unfold obj_put. destruct (obj_get k o) eqn:E.
  - rewrite <- (List.length_map fst), obj_replace_keys, List.length_map. reflexivity.
  - destruct (array_index k) as [ i | ].
    + clear E. induction o as [ | [k1 v1] o IH ]; simpl; [ reflexivity | ].
      destruct (array_index k1) as [ j | ]; [ destruct (j <? i)%N | ];
        simpl; auto.
    + rewrite List.length_app. simpl. lia.
Qed.

Lemma length_obj_of_entries_from :
  forall l acc,
    (List.length (fold_left (fun o kv => obj_put (fst kv) (snd kv) o) l acc)
     <= List.length acc + List.length l)%nat.
Proof.
  induction l as [ | [k v] l IH ]; intros acc; simpl.
  - lia.
  - specialize (IH (obj_put k v acc)). rewrite length_obj_put in IH.
    destruct (obj_get k acc); lia.
Qed.

Lemma obj_insert_index_split :
  forall i k v o, exists a b,
    o = a ++ b /\ obj_insert_index i k v o = a ++ (k, v) :: b.
Proof.
  intros i k v o. induction o as [ | [k1 v1] o [a [b [E1 E2]]] ]; simpl.
  - exists [], []. split; reflexivity.
  - destruct (array_index k1) as [ j | ]; [ destruct (j <? i)%N | ].
    + exists ((k1, v1) :: a), b. simpl. rewrite E2, <- E1. split; reflexivity.
    + exists [], ((k1, v1) :: o). split; reflexivity.
    + exists [], ((k1, v1) :: o). split; reflexivity.
Qed.

Lemma put_at_end_inv :
  forall k v m l, obj_get k m = None ->
    obj_put k v m = l ++ [(k, v)] -> m = l.
Proof.
  intros k v m l Hn H. unfold obj_put in H. rewrite Hn in H.
  destruct (array_index k) as [ i | ].
  - destruct (obj_insert_index_split i k v m) as [a [b [E1 E2]]].
    rewrite E2 in H. destruct b as [ | x b ].
    + rewrite List.app_nil_r in E1. subst a. apply List.app_inj_tail in H. tauto.
    + exfalso. apply (obj_get_In k v m); [ | exact Hn ].
      rewrite E1. apply List.in_or_app. right.
      assert (Hlast : In (k, v) (x :: b)).
      { destruct (List.exists_last (l := x :: b)) as [b' [y Hb]]; [ discriminate | ].
        rewrite Hb in *. 
        change (a ++ (k, v) :: b' ++ [y]) with (a ++ ((k, v) :: b') ++ [y]) in H.
        rewrite List.app_assoc in H. apply List.app_inj_tail in H. destruct H as [_ <-].
        apply List.in_or_app. right. left. reflexivity. }
      exact Hlast.
  - apply List.app_inj_tail in H. tauto.
Qed.

Lemma entries_ordered :
  forall o, obj_of_entries o = o -> ordered o.
Proof.
  intros o. induction o as [ | [k v] o IH ] using rev_ind; intros H.
  - constructor.
  - unfold obj_of_entries in H. rewrite List.fold_left_app in H. simpl in H.
    fold (obj_of_entries o) in H.
    assert (Hlen : (List.length (obj_of_entries o) <= List.length o)%nat).
    { pose proof (length_obj_of_entries_from o []) as L. simpl in L. exact L. }
    assert (Hn : obj_get k (obj_of_entries o) = None).
    { destruct (obj_get k (obj_of_entries o)) eqn:E; [ | reflexivity ].
      exfalso. apply (f_equal (@List.length _)) in H.
      rewrite length_obj_put, E, List.length_app in H. simpl in H. lia. }
    pose proof (put_at_end_inv k v _ _ Hn H) as Ho.
    rewrite Ho in *. apply ordered_snoc; auto.
Qed.

Lemma ordered_entries :
  forall o, ordered o -> obj_of_entries o = o.
Proof.
  intros o H. induction H as [ | o k v _ IH Hn Hput ].
  - reflexivity.
  - unfold obj_of_entries. rewrite List.fold_left_app. simpl.
    fold (obj_of_entries o). rewrite IH. exact Hput.
Qed.

Lemma ordered_replace :
  forall k v o, ordered o -> ordered (obj_replace k v o).
Proof.
  intros k v o H. induction H as [ | o k1 v1 Ho IH Hn Hput ].
  - constructor.
  - rewrite obj_replace_app. destruct (obj_get k o) eqn:E.
    + apply ordered_snoc.
      * exact IH.
      * apply (obj_get_keys k1 o); [ | exact Hn ].
        symmetry. apply obj_replace_keys.
      * apply (put_at_end_keys k1 v1 v1 o); auto.
        symmetry. apply obj_replace_keys.
    + simpl. destruct (String.eqb k k1) eqn:E1.
      * apply ordered_snoc; auto.
        apply (put_at_end_keys k1 v1 v o); auto.
      * apply ordered_snoc; auto.
Qed.

Lemma ordered_put :
  forall k v o, array_index k = None -> ordered o -> ordered (obj_put k v o).
Proof.
  intros k v o Hk H. unfold obj_put. destruct (obj_get k o) eqn:E.
  - apply ordered_replace, H.
  - rewrite Hk. apply ordered_snoc; auto.
    unfold obj_put. rewrite E, Hk. reflexivity.
Qed.

Lemma In_obj_put :
  forall k v o kv, In kv (obj_put k v o) -> snd kv = v \/ In kv o.
Proof.
  intros k v o kv. unfold obj_put. destruct (obj_get k o) eqn:E.
  - clear E. induction o as [ | [k1 v1] o IH ]; simpl; [ tauto | ].
    destruct (String.eqb k k1); simpl; intros [H | H]; subst; simpl; auto.
    destruct (IH H); auto.
  - destruct (array_index k) as [ i | ].
    + destruct (obj_insert_index_split i k v o) as [a [b [E1 E2]]].
      rewrite E2, E1. intros H. apply List.in_app_or in H.
      destruct H as [H | [H | H]]; subst; simpl; auto;
        right; apply List.in_or_app; auto.
    + intros H. apply List.in_app_or in H. destruct H as [H | [H | []]];
        subst; simpl; auto.
Qed.

Lemma wf_value_obj :
  forall o, wf_value (JObj o) = true <->
    (forall kv, In kv o -> wf_value (snd kv) = true) /\ ordered o.
Proof.
  intros o. split.
  - intros H. split.
    + simpl in H. apply andb_true_iff in H. destruct H as [H _].
      rewrite forallb_forall in H. exact H.
    + apply entries_ordered, wf_value_obj_entries, H.
  - intros [H1 H2]. simpl. apply andb_true_iff. split.
    + apply forallb_forall. exact H1.
    + pose proof (ordered_entries o H2) as E. 
      change (Value_eqb (JObj (obj_of_entries o)) (JObj o) = true).
      rewrite E. apply Value_eqb_refl.
Qed.

Lemma wf_value_put :
  forall k v o, array_index k = None ->
    wf_value (JObj o) = true -> wf_value v = true ->
    wf_value (JObj (obj_put k v o)) = true.
Proof.
  intros k v o Hk Ho Hv. apply wf_value_obj in Ho. destruct Ho as [H1 H2].
  apply wf_value_obj. split.
  - intros kv Hin. apply In_obj_put in Hin. destruct Hin as [-> | Hin]; auto.
  - apply ordered_put; assumption.
Qed.

Lemma wf_value_get :
  forall k v o, wf_value (JObj o) = true -> obj_get k o = Some v ->
    wf_value v = true.
Proof.
  intros k v o Ho Hg. apply wf_value_obj in Ho. destruct Ho as [H1 _].
  induction o as [ | [k1 v1] o IH ]; simpl in *; [ discriminate | ].
  destruct (String.eqb k k1).
  - inversion Hg; subst. apply (H1 (k1, v)). auto.
  - apply IH; auto.
Qed.

(** ** Every object that [JSON.parse] builds has its keys in order *)

Lemma array_index_inj :
  forall k1 k2 i, array_index k1 = Some i -> array_index k2 = Some i -> k1 = k2.
Proof.
  intros k1 k2 i. unfold array_index, uint_eqb.
  destruct (NilEmpty.uint_of_string k1) as [ d1 | ] eqn:E1; [ | discriminate ].
  destruct (NilEmpty.uint_of_string k2) as [ d2 | ] eqn:E2; [ | discriminate ].
  destruct (Decimal.uint_eq_dec (Decimal.unorm d1) d1) as [N1 | ];
    [ | discriminate ].
  destruct (Decimal.uint_eq_dec (Decimal.unorm d2) d2) as [N2 | ];
    [ | discriminate ].
  destruct (N.of_uint d1 <=? 4294967294)%N; [ | discriminate ].
  destruct (N.of_uint d2 <=? 4294967294)%N; [ | discriminate ].
  simpl. intros H1 H2. inversion H1 as [H1']. inversion H2 as [H2'].
  assert (Hd : d1 = d2).
  { rewrite <- N1, <- N2. apply DecimalN.Unsigned.of_inj. congruence. }
  apply NilEmpty.sus in E1. apply NilEmpty.sus in E2. congruence.
Qed.

Lemma index_below_dec :
  forall i k, {index_below i k} + {~ index_below i k}.
Proof.
  intros i k. unfold index_below.
  destruct (array_index k) as [ j | ].
  - destruct (j <? i)%N eqn:E.
    + left. exists j. auto.
    + right. intros [j' [H1 H2]]. inversion H1; subst. congruence.
  - right. intros [j' [H1 _]]. discriminate H1.
Qed.

Lemma insert_index_app_below :
  forall i k v o l, Forall (index_below i) (map fst o) ->
    obj_insert_index i k v (o ++ l) = o ++ obj_insert_index i k v l.
Proof.
  intros i k v o l. induction o as [ | [k1 v1] o IH ]; simpl; intros H.
  - reflexivity.
  - inversion H as [ | ? ? [j [Hj Hlt]] Ho ]; subst.
    rewrite Hj, Hlt, (IH Ho). reflexivity.
Qed.

Lemma insert_index_app_stop :
  forall i k v o l, ~ Forall (index_below i) (map fst o) ->
    obj_insert_index i k v (o ++ l) = obj_insert_index i k v o ++ l.
Proof.
  intros i k v o l. induction o as [ | [k1 v1] o IH ]; simpl; intros H.
  - exfalso. apply H. constructor.
  - destruct (array_index k1) as [ j | ] eqn:Ej;
      [ destruct (j <? i)%N eqn:Hlt | ]; try reflexivity.
    rewrite IH; [ reflexivity | ].
    intros Ho. apply H. constructor; [ | exact Ho ].
    exists j. auto.
Qed.

Lemma index_below_trans :
  forall i j l, (i <= j)%N ->
    Forall (index_below i) l -> Forall (index_below j) l.
Proof.
  intros i j l Hij H. eapply Forall_impl; [ | exact H ].
  intros k [x [Hx Hlt]]. exists x. split; [ exact Hx | ].
  apply N.ltb_lt in Hlt. apply N.ltb_lt. lia.
Qed.

Lemma put_index_at_end :
  forall k v o i, array_index k = Some i -> obj_get k o = None ->
    Forall (index_below i) (map fst o) -> obj_put k v o = o ++ [(k, v)].
Proof.
  intros k v o i Hk Hn H. unfold obj_put. rewrite Hn, Hk.
  apply insert_index_at_end, H.
Qed.

Lemma put_at_end_below :
  forall k v o i, array_index k = Some i -> obj_get k o = None ->
    obj_put k v o = o ++ [(k, v)] -> Forall (index_below i) (map fst o).
Proof.
  intros k v o i Hk Hn H. unfold obj_put in H. rewrite Hn, Hk in H.
  apply (insert_index_at_end_inv i k v); assumption.
Qed.

Lemma obj_get_snoc_None :
  forall k o k1 v1, obj_get k (o ++ [(k1, v1)]) = None ->
    obj_get k o = None /\ String.eqb k k1 = false.
Proof.
  intros k o k1 v1 H. rewrite obj_get_app in H.
  destruct (obj_get k o); [ discriminate H | ].
  simpl in H. destruct (String.eqb k k1); [ discriminate H | auto ].
Qed.

Lemma eqb_false_sym :
  forall a b, String.eqb a b = false -> String.eqb b a = false.
Proof.
  intros a b H. rewrite String.eqb_sym. exact H.
Qed.

Lemma ordered_insert_index :
  forall i k v o, array_index k = Some i -> ordered o -> obj_get k o = None ->
    ordered (obj_insert_index i k v o).
Proof.
  intros i k v o Hk Ho. induction Ho as [ | o k1 v1 Ho IH Hn1 Hput1 ];
    intros Hn.
  - simpl. apply (ordered_snoc [] k v); [ constructor | reflexivity | ].
    unfold obj_put. simpl. rewrite Hk. reflexivity.
  - apply obj_get_snoc_None in Hn. destruct Hn as [Hn Hne].
    specialize (IH Hn).
    destruct (Forall_dec (index_below i) (index_below_dec i) (map fst o))
      as [Hall | Hnot].
    + rewrite (insert_index_app_below i k v o _ Hall). simpl.
      assert (Hko : ordered (o ++ [(k, v)])).
      { apply ordered_snoc; auto. eapply put_index_at_end; eauto. }
      assert (Hg : obj_get k1 (o ++ [(k, v)]) = None).
      { rewrite obj_get_app, Hn1. simpl.
        rewrite (eqb_false_sym _ _ Hne). reflexivity. }
      destruct (array_index k1) as [ j1 | ] eqn:Ej1;
        [ destruct (j1 <? i)%N eqn:Hlt | ].
      * change (o ++ [(k1, v1); (k, v)]) with (o ++ [(k1, v1)] ++ [(k, v)]).
        rewrite List.app_assoc. apply ordered_snoc.
        -- apply ordered_snoc; assumption.
        -- rewrite obj_get_app, Hn. simpl. rewrite Hne. reflexivity.
        -- apply (put_index_at_end k v _ i Hk).
           ++ rewrite obj_get_app, Hn. simpl. rewrite Hne. reflexivity.
           ++ rewrite map_app. apply Forall_app. split; [ exact Hall | ].
              simpl. constructor; [ | constructor ]. exists j1. auto.
      * change (o ++ [(k, v); (k1, v1)]) with (o ++ [(k, v)] ++ [(k1, v1)]).
        rewrite List.app_assoc.
        apply ordered_snoc; [ exact Hko | exact Hg | ].
        apply (put_index_at_end k1 v1 _ j1 Ej1 Hg).
        rewrite map_app. apply Forall_app. split.
        -- eapply put_at_end_below; eauto.
        -- simpl. constructor; [ | constructor ].
           exists i. split; [ exact Hk | ].
           apply N.ltb_ge in Hlt. apply N.ltb_lt.
           assert (i <> j1).
           { intros ->. pose proof (array_index_inj _ _ _ Hk Ej1) as E.
             subst k1. rewrite String.eqb_refl in Hne. discriminate Hne. }
           lia.
      * change (o ++ [(k, v); (k1, v1)]) with (o ++ [(k, v)] ++ [(k1, v1)]).
        rewrite List.app_assoc.
        apply ordered_snoc; [ exact Hko | exact Hg | ].
        unfold obj_put. rewrite Hg, Ej1. reflexivity.
    + rewrite (insert_index_app_stop i k v o _ Hnot).
      assert (Hg : obj_get k1 (obj_insert_index i k v o) = None).
      { rewrite (obj_get_insert_index i k1 k v o Hn), Hn1.
        rewrite (eqb_false_sym _ _ Hne). reflexivity. }
      apply ordered_snoc; [ exact IH | exact Hg | ].
      destruct (array_index k1) as [ j1 | ] eqn:Ej1.
      * apply (put_index_at_end k1 v1 _ j1 Ej1 Hg).
        pose proof (put_at_end_below k1 v1 o j1 Ej1 Hn1 Hput1) as Hb.
        destruct (obj_insert_index_split i k v o) as [a [b [E1 E2]]].
        rewrite E2. rewrite E1 in Hb. rewrite map_app in *.
        apply Forall_app in Hb. destruct Hb as [Ha Hb'].
        apply Forall_app. split; [ exact Ha | ].
        simpl. constructor; [ | exact Hb' ].
        exists i. split; [ exact Hk | ].
        apply N.ltb_lt.
        assert (Hex : exists x, In x (map fst o) /\ ~ index_below i x).
        { apply Exists_exists. apply neg_Forall_Exists_neg; [ | exact Hnot ].
          intros x. apply index_below_dec. }
        destruct Hex as [x [Hin Hx]].
        assert (Hxj : index_below j1 x).
        { rewrite E1, map_app in Hin. apply List.in_app_or in Hin.
          rewrite Forall_forall in Ha, Hb'. destruct Hin; auto. }
        destruct Hxj as [jx [Hjx Hlt]]. apply N.ltb_lt in Hlt.
        assert (~ (jx < i)%N).
        { intros Hc. apply Hx. exists jx. split; [ exact Hjx | ].
          apply N.ltb_lt. exact Hc. }
        lia.
      * unfold obj_put. rewrite Hg, Ej1. reflexivity.
Qed.

Lemma ordered_put_any :
  forall k v o, ordered o -> ordered (obj_put k v o).
Proof.
  intros k v o H. destruct (array_index k) as [ i | ] eqn:Hk.
  - unfold obj_put. destruct (obj_get k o) eqn:E.
    + apply ordered_replace, H.
    + rewrite Hk. apply ordered_insert_index; assumption.
  - apply ordered_put; assumption.
Qed.

Lemma ordered_fold_put :
  forall l acc, ordered acc ->
    ordered (fold_left (fun o kv => obj_put (fst kv) (snd kv) o) l acc).
Proof.
  induction l as [ | [k v] l IH ]; intros acc H; simpl.
  - exact H.
  - apply IH, ordered_put_any, H.
Qed.

Lemma In_fold_put :
  forall l acc kv,
    In kv (fold_left (fun o kv => obj_put (fst kv) (snd kv) o) l acc) ->
    (exists kv', In kv' l /\ snd kv = snd kv') \/ In kv acc.
Proof.
  induction l as [ | [k v] l IH ]; intros acc kv H; simpl in H.
  - right. exact H.
  - destruct (IH _ _ H) as [[kv' [Hin E]] | Hin].
    + left. exists kv'. split; [ right; exact Hin | exact E ].
    + apply In_obj_put in Hin. destruct Hin as [E | Hin].
      * left. exists (k, v). split; [ left; reflexivity | exact E ].
      * right. exact Hin.
Qed.

Lemma wf_value_obj_of_entries :
  forall l, forallb (fun kv => wf_value (snd kv)) l = true ->
    wf_value (JObj (obj_of_entries l)) = true.
Proof.
  intros l H. apply wf_value_obj. split.
  - intros kv Hin. apply In_fold_put in Hin.
    destruct Hin as [[kv' [Hin E]] | []].
    rewrite forallb_forall in H. rewrite E. apply H, Hin.
  - apply ordered_fold_put. constructor.
Qed.

(** ** Every value that [JSON.parse] returns is one the runtime can hold *)

Lemma pmap_POk :
  forall (A B : Type) (f : A -> B) r b rest,
    pmap f r = POk b rest -> exists a, r = POk a rest /\ b = f a.
Proof.
  intros A B f [ a rest' | | ] b rest H; simpl in H; try discriminate H.
  inversion H; subst. exists a. auto.
Qed.

Lemma parse_number_wf :
  forall s v r, parse_number s = POk v r -> wf_value v = true.
Proof.
  intros s v r. unfold parse_number.
  destruct (match s with
            | EmptyString => (false, s)
            | String c r0 => if Ascii.eqb c "-" then (true, r0) else (false, s)
            end) as [negative s1].
  destruct (span_digits s1) as [d rest].
  destruct (negb (uint_eqb (Decimal.unorm d) d)); [ discriminate | ].
  destruct (starts_fraction_or_exponent rest); [ discriminate | ].
  destruct (negative && (Z.of_N (N.of_uint d) =? 0)); [ discriminate | ].
  destruct (MAX_SAFE_INTEGER <? Z.of_N (N.of_uint d)) eqn:Hmax;
    [ discriminate | ].
  intros H. inversion H; subst. apply Z.ltb_ge in Hmax.
  pose proof (N2Z.is_nonneg (N.of_uint d)) as Hpos.
  unfold MAX_SAFE_INTEGER in *. simpl. unfold safe_integer, MAX_SAFE_INTEGER.
  apply andb_true_iff. split; apply Z.leb_le; destruct negative; lia.
Qed.

Lemma parse_literal_value :
  forall word v0 s v r, parse_literal word v0 s = POk v r -> v = v0.
Proof.
  intros word v0 s v r. unfold parse_literal.
  destruct (strip_prefix word s); intros H; inversion H; reflexivity.
Qed.

Lemma parse_wf :
  forall fuel,
    (forall s v r, parse_value fuel s = POk v r -> wf_value v = true)
    /\ (forall s l r, parse_elements fuel s = POk l r ->
          forallb wf_value l = true)
    /\ (forall s l r, parse_members fuel s = POk l r ->
          forallb (fun kv => wf_value (snd kv)) l = true).
Proof.
  induction fuel as [ | f [IHv [IHe IHm]] ].
  - repeat split; intros; discriminate.
  - repeat split.
    + intros s v r H. simpl in H.
      destruct s as [ | c s' ]; [ discriminate H | ].
      destruct (Ascii.eqb c "{").
      { destruct (skip_ws s') as [ | c' r' ]; [ discriminate H | ].
        destruct (Ascii.eqb c' "}"); [ inversion H; reflexivity | ].
        apply pmap_POk in H. destruct H as [l [Hl ->]].
        apply wf_value_obj_of_entries. eapply IHm. exact Hl. }
      destruct (Ascii.eqb c "[").
      { destruct (skip_ws s') as [ | c' r' ]; [ discriminate H | ].
        destruct (Ascii.eqb c' "]"); [ inversion H; reflexivity | ].
        apply pmap_POk in H. destruct H as [l [Hl ->]].
        simpl. eapply IHe. exact Hl. }
      destruct (Ascii.eqb c dquote).
      { apply pmap_POk in H. destruct H as [x [_ ->]]. reflexivity. }
      destruct (Ascii.eqb c "t");
        [ apply parse_literal_value in H; subst; reflexivity | ].
      destruct (Ascii.eqb c "f");
        [ apply parse_literal_value in H; subst; reflexivity | ].
      destruct (Ascii.eqb c "n");
        [ apply parse_literal_value in H; subst; reflexivity | ].
      eapply parse_number_wf. exact H.
    + intros s l r H. simpl in H.
      destruct (parse_value f s) as [ v r1 | | ] eqn:Hv; try discriminate H.
      pose proof (IHv _ _ _ Hv) as Hwf.
      destruct (skip_ws r1) as [ | c r' ]; [ discriminate H | ].
      destruct (Ascii.eqb c ",").
      { apply pmap_POk in H. destruct H as [l' [Hl ->]].
        simpl. rewrite Hwf. eapply IHe. exact Hl. }
      destruct (Ascii.eqb c "]"); [ | discriminate H ].
      inversion H; subst. simpl. rewrite Hwf. reflexivity.
    + intros s l r H. simpl in H.
      destruct s as [ | c s' ]; [ discriminate H | ].
      destruct (Ascii.eqb c dquote); [ | discriminate H ].
      destruct (parse_chars s') as [ key r1 | | ]; try discriminate H.
      destruct (skip_ws r1) as [ | c1 r2 ]; [ discriminate H | ].
      destruct (Ascii.eqb c1 ":"); [ | discriminate H ].
      destruct (parse_value f (skip_ws r2)) as [ v r3 | | ] eqn:Hv;
        try discriminate H.
      pose proof (IHv _ _ _ Hv) as Hwf.
      destruct (skip_ws r3) as [ | c3 r4 ]; [ discriminate H | ].
      destruct (Ascii.eqb c3 ",").
      { apply pmap_POk in H. destruct H as [l' [Hl ->]].
        simpl. rewrite Hwf. eapply IHm. exact Hl. }
      destruct (Ascii.eqb c3 "}"); [ | discriminate H ].
      inversion H; subst. simpl. rewrite Hwf. reflexivity.
Qed.

Lemma JSON_parse_wf :
  forall text v, JSON_parse text = Parsed v -> wf_value v = true.
Proof.
  intros text v. unfold JSON_parse.
  destruct (parse_value (S (2 * String.length text)) (skip_ws text))
    as [ x rest | | ] eqn:E; try discriminate.
  destruct (skip_ws rest); [ | discriminate ].
  intros H. inversion H; subst.
  eapply (proj1 (parse_wf _)). exact E.
Qed.

(** * The store *)

Lemma readData_cases :
  forall fs,
    readData fs =
    match file fs with
    | None => Some (Return default_data, fs)
    | Some text =>
        match JSON_parse text with
        | Parsed v => Some (Return v, fs)
        | Rejected => Some (Return default_data, fs)
        | Unmodelled => None
        end
    end.
Proof.
  intros fs. unfold readData, try_catch, bind, fs_readFile, JSON_parse_M.
  destruct (file fs) as [ text | ]; [ | reflexivity ].
  destruct (JSON_parse text); reflexivity.
Qed.

Lemma readData_same_file :
  forall fs r fs', readData fs = Some (r, fs') -> fs' = fs.
Proof.
  intros fs r fs'. rewrite readData_cases.
  destruct (file fs) as [ text | ]; [ destruct (JSON_parse text) | ];
    intros H; inversion H; reflexivity.
Qed.

Lemma readData_returns :
  forall fs r fs', readData fs = Some (r, fs') -> exists v, r = Return v.
Proof.
  intros fs r fs'. rewrite readData_cases.
  destruct (file fs) as [ text | ]; [ destruct (JSON_parse text) | ];
    intros H; inversion H; eexists; reflexivity.
Qed.

Lemma readData_wf :
  forall fs v fs', readData fs = Some (Return v, fs') -> wf_value v = true.
Proof.
  intros fs v fs'. rewrite readData_cases.
  destruct (file fs) as [ text | ];
    [ destruct (JSON_parse text) eqn:E | ]; intros H; inversion H; subst;
    try reflexivity.
  eapply JSON_parse_wf. exact E.
Qed.

(** What [readData] returns depends on the text of the file only. *)
Lemma readData_file :
  forall fs1 fs2 v, file fs1 = file fs2 ->
    readData fs1 = Some (Return v, fs1) -> readData fs2 = Some (Return v, fs2).
Proof.
  intros fs1 fs2 v E. rewrite !readData_cases, E.
  destruct (file fs2) as [ text | ]; [ destruct (JSON_parse text) | ];
    intros H; inversion H; reflexivity.
Qed.

Lemma writeData_cases :
  forall data fs,
    writeData data fs =
    if writable fs
    then Some (Return tt,
               mkFS (Some (JSON_stringify data)) (writable fs)
                 (S (writeCalls fs)))
    else Some (Throw (Error write_error_message),
               mkFS (file fs) (writable fs) (S (writeCalls fs))).
Proof.
  intros data fs. unfold writeData, try_catch, fs_writeFile, throw.
  destruct (writable fs); reflexivity.
Qed.

Lemma readData_written :
  forall data w c, wf_value data = true ->
    readData (mkFS (Some (JSON_stringify data)) w c)
    = Some (Return data, mkFS (Some (JSON_stringify data)) w c).
Proof.
  intros data w c Hwf. rewrite readData_cases. simpl.
  rewrite (JSON_parse_stringify data Hwf). reflexivity.
Qed.

(** C6. Round trip of persistence: for every document [doc] (a value the
    runtime can hold), a successful [writeData doc] followed by [readData]
    returns a document equal to [doc]. *)
Theorem save_then_load_round_trip :
  forall doc fs,
    wf_value doc = true -> writable fs = true ->
    exists fs',
      writeData doc fs = Some (Return tt, fs')
      /\ file fs' = Some (JSON_stringify doc)
      /\ readData fs' = Some (Return doc, fs').
Proof.
  intros doc fs Hwf Hw. rewrite writeData_cases, Hw.
  eexists. split; [ reflexivity | ]. split; [ reflexivity | ].
  apply readData_written, Hwf.
Qed.

(** C7. [readData] never throws, and when the backing file is missing or
    unreadable ([file fs = None]) or its text fails to parse, it returns
    the empty document [{tasks: [], nextId: 1}]. *)
Theorem load_falls_back_to_empty_document :
  forall fs,
    (forall e fs', readData fs <> Some (Throw e, fs'))
    /\ ((file fs = None
         \/ exists text, file fs = Some text /\ JSON_parse text = Rejected) ->
        readData fs = Some (Return default_data, fs)).
Proof.
  intros fs. split.
  - intros e fs' E. apply readData_returns in E. destruct E as [v E].
    discriminate E.
  - intros H. rewrite readData_cases.
    destruct H as [-> | [text [-> ->]]]; reflexivity.
Qed.

(** * The controllers *)

Lemma get_prop_not_null :
  forall v k fs, v <> JNull -> get_prop v k fs = Some (Return (prop v k), fs).
Proof.
  intros v k fs H. destruct v; try reflexivity. congruence.
Qed.

Lemma has_id_cases :
  forall id task fs,
    has_id id task fs =
    match task with
    | JNull => Some (Throw TypeError, fs)
    | _ => Some (Return (matches id task), fs)
    end.
Proof.
  intros id task fs. destruct task; reflexivity.
Qed.

Lemma findIndex_from_first_match :
  forall id l i fs,
    findIndex_from (has_id id) l i fs = Some (first_match id l i, fs).
Proof.
  intros id l. induction l as [ | x l IH ]; intros i fs.
  - reflexivity.
  - cbn [findIndex_from first_match]. unfold bind at 1.
    rewrite has_id_cases.
    destruct x; try reflexivity;
      (destruct (matches id _); [ reflexivity | apply IH ]).
Qed.

Lemma matches_task_has_id :
  forall n task, matches (Some n) task = true <-> task_has_id n task.
Proof.
  intros n task. unfold matches, task_has_id, strict_equals_number.
  destruct (prop task "id") as [ [ | | a | | | ] | ]; split; intros H;
    try discriminate.
  - apply Z.eqb_eq in H. congruence.
  - inversion H. apply Z.eqb_refl.
Qed.

Lemma matches_NaN : forall task, matches None task = false.
Proof.
  intros task. unfold matches, strict_equals_number.
  destruct (prop task "id") as [ [ | | a | | | ] | ]; reflexivity.
Qed.

Lemma matches_is_object :
  forall id task, matches id task = true ->
    exists f n, task = JObj f /\ id = Some n /\ obj_get "id" f = Some (JNum n).
Proof.
  intros [ n | ] task H; [ | rewrite matches_NaN in H; discriminate H ].
  apply matches_task_has_id in H. unfold task_has_id in H.
  destruct task; try discriminate H. eauto.
Qed.

Lemma first_match_none :
  forall id l i, no_match id l -> first_match id l i = Return (-1).
Proof.
  intros id l. induction l as [ | x l IH ]; intros i H.
  - reflexivity.
  - inversion H as [ | ? ? [Hx Hm] Hl ]; subst. simpl. rewrite Hm.
    destruct x; try congruence; apply IH, Hl.
Qed.

Lemma first_match_found :
  forall id before task after i,
    no_match id before -> matches id task = true ->
    first_match id (before ++ task :: after) i
    = Return (i + Z.of_nat (List.length before)).
Proof.
  intros id before. induction before as [ | x before IH ];
    intros task after i H Hm.
  - simpl. rewrite Hm.
    destruct (matches_is_object _ _ Hm) as [f [n [-> _]]].
    f_equal. lia.
  - inversion H as [ | ? ? [Hx Hn] Hb ]; subst.
    cbn [app first_match]. rewrite Hn, (IH task after (i + 1) Hb Hm).
    destruct x; try congruence; f_equal; cbn [List.length]; lia.
Qed.

Lemma first_match_inv :
  forall id l i j, 0 <= i -> first_match id l i = Return j ->
    (j = -1 /\ no_match id l)
    \/ exists before task after,
         l = before ++ task :: after
         /\ j = i + Z.of_nat (List.length before)
         /\ no_match id before /\ matches id task = true.
Proof.
  intros id l. induction l as [ | x l IH ]; intros i j Hi H.
  - inversion H. left. split; [ reflexivity | constructor ].
  - assert (Hx : x <> JNull) by (intros ->; discriminate H).
    assert (H' : (if matches id x then Return i else first_match id l (i + 1))
                 = Return j) by (destruct x; try congruence; exact H).
    destruct (matches id x) eqn:Hm.
    + inversion H'; subst. right. exists [], x, l.
      repeat split; [ simpl; lia | constructor | exact Hm ].
    + destruct (IH (i + 1) j ltac:(lia) H')
        as [[Hj Hl] | [before [task [after [E [Hj [Hb Ht]]]]]]].
      * left. split; [ exact Hj | constructor; auto ].
      * right. exists (x :: before), task, after. subst l.
        repeat split; [ cbn [List.length]; lia | constructor; auto | exact Ht ].
Qed.

Lemma list_update_middle :
  forall (A : Type) (before : list A) x after f,
    list_update (before ++ x :: after) (List.length before) f
    = before ++ f x :: after.
Proof.
  intros A before x after f. induction before as [ | y before IH ]; simpl.
  - reflexivity.
  - rewrite IH. reflexivity.
Qed.

Lemma nth_middle_value :
  forall (before : list Value) x after,
    nth (List.length before) (before ++ x :: after) JNull = x.
Proof.
  intros before x after. induction before as [ | y before IH ]; simpl; auto.
Qed.

Lemma splice_one_middle :
  forall (before : list Value) x after,
    splice_one (before ++ x :: after) (Z.of_nat (List.length before))
    = before ++ after.
Proof.
  intros before x after. unfold splice_one. rewrite Nat2Z.id.
  rewrite List.firstn_app, List.firstn_all, Nat.sub_diag. simpl.
  rewrite List.app_nil_r. f_equal.
  induction before as [ | y before IH ]; simpl; auto.
Qed.

Lemma assign_at_middle :
  forall before f after k x,
    assign_at (before ++ JObj f :: after) (Z.of_nat (List.length before)) k x
    = before ++ JObj (obj_put k x f) :: after.
Proof.
  intros before f after k x. unfold assign_at. rewrite Nat2Z.id.
  apply list_update_middle.
Qed.

Lemma tasks_of_cases :
  forall data fs,
    tasks_of data fs =
    match data with
    | JNull => Some (Throw TypeError, fs)
    | _ =>
        match prop data "tasks" with
        | Some (JArr l) => Some (Return l, fs)
        | _ => Some (Throw TypeError, fs)
        end
    end.
Proof.
  intros data fs. unfold tasks_of, bind.
  destruct data; try reflexivity.
  simpl. destruct (obj_get "tasks" fields) as [ [ | | | | | ] | ]; reflexivity.
Qed.

Lemma not_minus_one : forall n : nat, (0 + Z.of_nat n =? -1) = false.
Proof. intros n. apply Z.eqb_neq. lia. Qed.

Lemma updateTask_not_found :
  forall req fs o ts,
    readData fs = Some (Return (JObj o), fs) ->
    obj_get "tasks" o = Some (JArr ts) ->
    body req <> JNull ->
    no_match (parse_id req) ts ->
    updateTask req fs
    = Some (Return (mkResponse 404 (error_payload tache_non_trouvee)), fs).
Proof.
  intros req fs o ts Hread Htasks Hbody Hno.
  unfold updateTask, try_catch, bind.
  rewrite !(get_prop_not_null _ _ _ Hbody), Hread, tasks_of_cases.
  cbn [prop]. rewrite Htasks. unfold findIndex.
  rewrite findIndex_from_first_match, (first_match_none _ _ _ Hno).
  reflexivity.
Qed.

Lemma deleteTask_not_found :
  forall req fs o ts,
    readData fs = Some (Return (JObj o), fs) ->
    obj_get "tasks" o = Some (JArr ts) ->
    no_match (parse_id req) ts ->
    deleteTask req fs
    = Some (Return (mkResponse 404 (error_payload tache_non_trouvee)), fs).
Proof.
  intros req fs o ts Hread Htasks Hno.
  unfold deleteTask, try_catch, bind.
  rewrite Hread, tasks_of_cases.
  cbn [prop]. rewrite Htasks. unfold findIndex.
  rewrite findIndex_from_first_match, (first_match_none _ _ _ Hno).
  reflexivity.
Qed.

Lemma updateTask_found :
  forall req fs o before f after,
    readData fs = Some (Return (JObj o), fs) ->
    obj_get "tasks" o = Some (JArr (before ++ JObj f :: after)) ->
    body req <> JNull ->
    no_match (parse_id req) before ->
    matches (parse_id req) (JObj f) = true ->
    updateTask req fs =
    let f' := patched (body req) f in
    if writable fs
    then Some (Return (mkResponse 200 (JObj f')),
               mkFS (Some (JSON_stringify
                             (JObj (obj_put "tasks"
                                      (JArr (before ++ JObj f' :: after)) o))))
                 (writable fs) (S (writeCalls fs)))
    else Some (Return (mkResponse 500 (error_payload erreur_mise_a_jour)),
               mkFS (file fs) (writable fs) (S (writeCalls fs))).
Proof.
  intros req fs o before f after Hread Htasks Hbody Hno Hm.
  unfold updateTask, try_catch, bind.
  rewrite !(get_prop_not_null _ _ _ Hbody), Hread, tasks_of_cases.
  cbn [prop]. rewrite Htasks. unfold findIndex.
  rewrite findIndex_from_first_match, (first_match_found _ _ _ _ _ Hno Hm).
  rewrite not_minus_one, Z.add_0_l.
  assert (E : forall g,
             match prop (body req) "completed" with
             | Some completed =>
                 assign_at (before ++ JObj g :: after)
                   (Z.of_nat (List.length before)) "completed" completed
             | None => before ++ JObj g :: after
             end
             = before ++ JObj (match prop (body req) "completed" with
                               | Some completed => obj_put "completed" completed g
                               | None => g
                               end) :: after).
  { intros g. destruct (prop (body req) "completed");
      [ apply assign_at_middle | reflexivity ]. }
  unfold patched.
  destruct (prop (body req) "title") as [ title | ];
    [ rewrite assign_at_middle | ]; rewrite E, writeData_cases, Nat2Z.id,
    nth_middle_value; cbn [set_prop]; destruct (writable fs); reflexivity.
Qed.

Lemma deleteTask_found :
  forall req fs o before task after,
    readData fs = Some (Return (JObj o), fs) ->
    obj_get "tasks" o = Some (JArr (before ++ task :: after)) ->
    no_match (parse_id req) before ->
    matches (parse_id req) task = true ->
    deleteTask req fs =
    if writable fs
    then Some (Return (mkResponse 200 deleted_payload),
               mkFS (Some (JSON_stringify
                             (JObj (obj_put "tasks"
                                      (JArr (before ++ after)) o))))
                 (writable fs) (S (writeCalls fs)))
    else Some (Return (mkResponse 500 (error_payload erreur_suppression)),
               mkFS (file fs) (writable fs) (S (writeCalls fs))).
Proof.
  intros req fs o before task after Hread Htasks Hno Hm.
  unfold deleteTask, try_catch, bind.
  rewrite Hread, tasks_of_cases.
  cbn [prop]. rewrite Htasks. unfold findIndex.
  rewrite findIndex_from_first_match, (first_match_found _ _ _ _ _ Hno Hm).
  rewrite not_minus_one, Z.add_0_l, splice_one_middle, writeData_cases.
  cbn [set_prop]. destruct (writable fs); reflexivity.
Qed.

Lemma try_catch_ret_never_throws :
  forall (A : Type) (m : M A) (handler : exn -> A) fs e fs',
    try_catch m (fun x => ret (handler x)) fs <> Some (Throw e, fs').
Proof.
  intros A m handler fs e fs'. unfold try_catch, ret.
  destruct (m fs) as [ [[a | e0] fs1] | ]; discriminate.
Qed.

Lemma router_never_throws :
  forall method req fs e fs', router method req fs <> Some (Throw e, fs').
Proof.
  intros [ | | | ] req fs e fs'; simpl;
    [ unfold getAllTasks | unfold createTask | unfold updateTask
    | unfold deleteTask ];
    apply (try_catch_ret_never_throws Response _ (fun _ => _)).
Qed.

Lemma null_or_not : forall v : Value, v = JNull \/ v <> JNull.
Proof.
  intros [ | | | | | ]; [ left; reflexivity | right; discriminate .. ].
Qed.

Lemma updateTask_null_body :
  forall req fs, body req = JNull ->
    updateTask req fs
    = Some (Return (mkResponse 500 (error_payload erreur_mise_a_jour)), fs).
Proof.
  intros req fs H. unfold updateTask, try_catch, bind. rewrite H. reflexivity.
Qed.

Lemma updateTask_outside :
  forall req fs, body req <> JNull -> readData fs = None ->
    updateTask req fs = None.
Proof.
  intros req fs Hbody H. unfold updateTask, try_catch, bind.
  rewrite !(get_prop_not_null _ _ _ Hbody), H. reflexivity.
Qed.

Lemma deleteTask_outside :
  forall req fs, readData fs = None -> deleteTask req fs = None.
Proof.
  intros req fs H. unfold deleteTask, try_catch, bind. rewrite H. reflexivity.
Qed.

Lemma updateTask_total :
  forall req fs data,
    readData fs = Some (Return data, fs) ->
    updateTask req fs
    = Some (Return (mkResponse 500 (error_payload erreur_mise_a_jour)), fs)
    \/ updateTask req fs
       = Some (Return (mkResponse 404 (error_payload tache_non_trouvee)), fs)
    \/ (body req <> JNull
        /\ exists o before f after,
             found_in (parse_id req) data o before (JObj f) after).
Proof.
  intros req fs data Hread.
  destruct (null_or_not (body req)) as [Hb | Hbody];
    [ left; apply updateTask_null_body; exact Hb | ].
  assert (Hstep :
    forall r, tasks_of data fs = Some (Throw r, fs) ->
      updateTask req fs
      = Some (Return (mkResponse 500 (error_payload erreur_mise_a_jour)), fs))
    by (intros r Hr; unfold updateTask, try_catch, bind;
        rewrite !(get_prop_not_null _ _ _ Hbody), Hread, Hr; reflexivity).
  rewrite tasks_of_cases in Hstep.
  destruct data as [ | | | | | o ]; try (left; eapply Hstep; reflexivity).
  cbn [prop] in Hstep.
  destruct (obj_get "tasks" o) as [ [ | | | | ts | ] | ] eqn:Htasks;
    try (left; eapply Hstep; reflexivity).
  clear Hstep.
  destruct (first_match (parse_id req) ts 0) as [ j | e ] eqn:Hfirst.
  - destruct (first_match_inv _ _ _ _ (Z.le_refl 0) Hfirst)
      as [[_ Hno] | [before [task [after [E [_ [Hno Hm]]]]]]].
    + right; left; eapply updateTask_not_found; eassumption.
    + right; right; split; [ exact Hbody | ].
      destruct (matches_is_object _ _ Hm) as [f [n [-> _]]].
      exists o, before, f, after; subst ts; repeat split; assumption.
  - left; unfold updateTask, try_catch, bind.
    rewrite !(get_prop_not_null _ _ _ Hbody), Hread, tasks_of_cases.
    cbn [prop]. rewrite Htasks. unfold findIndex.
    rewrite findIndex_from_first_match, Hfirst. reflexivity.
Qed.

Lemma deleteTask_total :
  forall req fs data,
    readData fs = Some (Return data, fs) ->
    deleteTask req fs
    = Some (Return (mkResponse 500 (error_payload erreur_suppression)), fs)
    \/ deleteTask req fs
       = Some (Return (mkResponse 404 (error_payload tache_non_trouvee)), fs)
    \/ exists o before task after,
         found_in (parse_id req) data o before task after.
Proof.
  intros req fs data Hread.
  assert (Hstep :
    forall r, tasks_of data fs = Some (Throw r, fs) ->
      deleteTask req fs
      = Some (Return (mkResponse 500 (error_payload erreur_suppression)), fs))
    by (intros r Hr; unfold deleteTask, try_catch, bind;
        rewrite Hread, Hr; reflexivity).
  rewrite tasks_of_cases in Hstep.
  destruct data as [ | | | | | o ]; try (left; eapply Hstep; reflexivity).
  cbn [prop] in Hstep.
  destruct (obj_get "tasks" o) as [ [ | | | | ts | ] | ] eqn:Htasks;
    try (left; eapply Hstep; reflexivity).
  clear Hstep.
  destruct (first_match (parse_id req) ts 0) as [ j | e ] eqn:Hfirst.
  - destruct (first_match_inv _ _ _ _ (Z.le_refl 0) Hfirst)
      as [[_ Hno] | [before [task [after [E [_ [Hno Hm]]]]]]].
    + right; left; eapply deleteTask_not_found; eassumption.
    + right; right. exists o, before, task, after; subst ts.
      repeat split; assumption.
  - left; unfold deleteTask, try_catch, bind.
    rewrite Hread, tasks_of_cases. cbn [prop]. rewrite Htasks.
    unfold findIndex. rewrite findIndex_from_first_match, Hfirst. reflexivity.
Qed.

Lemma createTask_null_body :
  forall req fs, body req = JNull ->
    createTask req fs
    = Some (Return (mkResponse 500 (error_payload erreur_creation)), fs).
Proof.
  intros req fs H. unfold createTask, try_catch, bind. rewrite H. reflexivity.
Qed.

Lemma createTask_invalid :
  forall req fs, body req <> JNull ->
    truthy (prop (body req) "title") = false
    \/ typeof_boolean (prop (body req) "completed") = false ->
    createTask req fs
    = Some (Return (mkResponse 400 (error_payload donnees_invalides)), fs).
Proof.
  intros req fs Hbody H. unfold createTask, try_catch, bind.
  rewrite !(get_prop_not_null _ _ _ Hbody).
  destruct H as [-> | ->]; [ reflexivity | ].
  rewrite orb_true_r. reflexivity.
Qed.

Lemma createTask_valid :
  forall req fs title b o ts n,
    prop (body req) "title" = Some title -> truthy (Some title) = true ->
    prop (body req) "completed" = Some (JBool b) ->
    readData fs = Some (Return (JObj o), fs) ->
    obj_get "tasks" o = Some (JArr ts) ->
    obj_get "nextId" o = Some (JNum n) ->
    safe_integer (n + 1) = true ->
    createTask req fs =
    let task := new_task n title (JBool b) in
    if writable fs
    then Some (Return (mkResponse 201 task),
               mkFS (Some (JSON_stringify
                             (JObj (obj_put "nextId" (JNum (n + 1))
                                      (obj_put "tasks" (JArr (ts ++ [task]))
                                         o)))))
                 (writable fs) (S (writeCalls fs)))
    else Some (Return (mkResponse 500 (error_payload erreur_creation)),
               mkFS (file fs) (writable fs) (S (writeCalls fs))).
Proof.
  intros req fs title b o ts n Ht Htruthy Hc Hread Htasks Hnext Hsafe.
  assert (Hbody : body req <> JNull) by (intros E; rewrite E in Ht; discriminate).
  unfold createTask, try_catch, bind.
  rewrite !(get_prop_not_null _ _ _ Hbody), Ht, Hc, Htruthy.
  cbn [typeof_boolean negb orb]. rewrite Hread.
  cbn [get_prop ret]. rewrite Hnext, tasks_of_cases.
  cbn [prop]. rewrite Htasks. unfold increment_nextId, bind.
  cbn [set_prop get_prop ret]. rewrite obj_get_put.
  replace (String.eqb "nextId" "tasks") with false by reflexivity.
  rewrite Hnext, Hsafe. cbn [ret]. rewrite writeData_cases.
  unfold new_task. destruct (writable fs); reflexivity.
Qed.

(** * The claims about one request *)

Lemma no_match_without_id :
  forall n l,
    Forall (fun task => task <> JNull /\ ~ task_has_id n task) l ->
    no_match (Some n) l.
Proof.
  intros n l H. eapply Forall_impl; [ | exact H ].
  intros task [Hnull Hid]. split; [ exact Hnull | ].
  destruct (matches (Some n) task) eqn:E; [ | reflexivity ].
  apply matches_task_has_id in E. contradiction.
Qed.

Lemma no_match_NaN :
  forall l, Forall (fun task => task <> JNull) l -> no_match None l.
Proof.
  intros l H. eapply Forall_impl; [ | exact H ].
  intros task Hnull. split; [ exact Hnull | apply matches_NaN ].
Qed.

Lemma no_match_app :
  forall id l1 l2, no_match id (l1 ++ l2) -> no_match id l1 /\ no_match id l2.
Proof.
  intros id l1 l2 H. apply Forall_app in H. exact H.
Qed.


Lemma parseInt_non_numeric :
  forall s, non_numeric s = true -> parseInt s = None.
Proof.
  intros s. unfold non_numeric, parseInt.
  destruct (trim_start s) as [ | c r ]; [ reflexivity | ].
  destruct c as [[] [] [] [] [] [] [] []]; try discriminate;
    intros _; destruct r as [ | x r ]; reflexivity.
Qed.

(** C9, as amended. An id parameter that does not parse to the id of a
    stored task, a non-numeric one included (for which [parseInt] gives
    [NaN]), is answered 404 with the generic error body by [deleteTask],
    with or without a body, and by [updateTask] when the request carries
    a body; an update without a body is answered 500, before the id is
    looked at. In no case is anything written. *)
Theorem unknown_id_parameter_is_not_found :
  forall req fs o ts,
    readData fs = Some (Return (JObj o), fs) ->
    obj_get "tasks" o = Some (JArr ts) ->
    Forall (fun task => task <> JNull) ts ->
    (forall n, parse_id req = Some n ->
       Forall (fun task => ~ task_has_id n task) ts) ->
    (forall patch,
       patch <> JNull ->
       updateTask (mkRequest (params_id req) patch) fs
       = Some (Return (mkResponse 404 (error_payload tache_non_trouvee)), fs))
    /\ updateTask (mkRequest (params_id req) JNull) fs
       = Some (Return (mkResponse 500 (error_payload erreur_mise_a_jour)), fs)
    /\ (forall request_body,
          deleteTask (mkRequest (params_id req) request_body) fs
          = Some (Return (mkResponse 404 (error_payload tache_non_trouvee)),
                  fs))
    /\ (forall s, non_numeric s = true -> parseInt s = None).
Proof.
  intros req fs o ts Hread Htasks Hnull Hid.
  assert (Hno : no_match (parse_id req) ts).
  { destruct (parse_id req) as [ n | ].
    - apply no_match_without_id. specialize (Hid n eq_refl).
      rewrite Forall_forall in *. intros task Hin. split; auto.
    - apply no_match_NaN, Hnull. }
  split; [ | split; [ | split; [ | exact parseInt_non_numeric ] ] ].
  - intros patch Hpatch.
    eapply updateTask_not_found; [ exact Hread | exact Htasks | exact Hpatch | ].
    exact Hno.
  - apply updateTask_null_body. reflexivity.
  - intros request_body.
    eapply deleteTask_not_found; [ exact Hread | exact Htasks | ].
    exact Hno.
Qed.

(** C9, counterexample. A PUT without a body whose id parameter is not
    numeric is answered 500, not 404, on a store that holds a task. *)
Lemma unknown_id_update_without_body_is_500 :
  parseInt "abc" = None
  /\ exists res,
       updateTask (mkRequest (Some "abc") JNull) one_task_store
       = Some (Return res, one_task_store)
       /\ status res = 500 /\ status res <> 404.
Proof.
  split; [ reflexivity | ].
  exists (mkResponse 500 (error_payload erreur_mise_a_jour)).
  split; [ apply updateTask_null_body; reflexivity | ].
  split; [ reflexivity | discriminate ].
Qed.

(** C8. Delete removes exactly one entry and keeps the order: when one
    task of the document carries the requested id, [deleteTask] answers
    200 and the document it saves has the same tasks in the same order
    but that one, every other property of the document being kept. *)
Theorem delete_removes_exactly_one_task :
  forall req fs o before task after n,
    readData fs = Some (Return (JObj o), fs) ->
    obj_get "tasks" o = Some (JArr (before ++ task :: after)) ->
    parse_id req = Some n ->
    task_has_id n task ->
    Forall (fun t => t <> JNull /\ ~ task_has_id n t) (before ++ after) ->
    writable fs = true ->
    exists fs' o',
      deleteTask req fs = Some (Return (mkResponse 200 deleted_payload), fs')
      /\ file fs' = Some (JSON_stringify (JObj o'))
      /\ writeCalls fs' = S (writeCalls fs)
      /\ obj_get "tasks" o' = Some (JArr (before ++ after))
      /\ (forall k, k <> "tasks" -> obj_get k o' = obj_get k o)
      /\ readData fs' = Some (Return (JObj o'), fs').
Proof.
  intros req fs o before task after n Hread Htasks Hid Htask Hrest Hw.
  apply no_match_without_id, no_match_app in Hrest.
  destruct Hrest as [Hbefore _]. rewrite <- Hid in Hbefore.
  apply matches_task_has_id in Htask. rewrite <- Hid in Htask.
  rewrite (deleteTask_found req fs o before task after Hread Htasks
             Hbefore Htask), Hw.
  eexists. exists (obj_put "tasks" (JArr (before ++ after)) o).
  split; [ reflexivity | ]. split; [ reflexivity | ].
  split; [ reflexivity | ]. split; [ | split ].
  - rewrite obj_get_put. reflexivity.
  - intros k Hk. rewrite obj_get_put.
    destruct (String.eqb k "tasks") eqn:E; [ | reflexivity ].
    apply String.eqb_eq in E. contradiction.
  - pose proof (readData_wf _ _ _ Hread) as Hwf. apply readData_written.
    apply wf_value_put; [ reflexivity | exact Hwf | ].
    pose proof (wf_value_get _ _ _ Hwf Htasks) as Hall. simpl in *.
    rewrite forallb_app in *. simpl in Hall.
    apply andb_true_iff in Hall. destruct Hall as [H1 H2].
    apply andb_true_iff in H2. destruct H2 as [_ H2].
    rewrite H1, H2. reflexivity.
Qed.

Lemma patched_get :
  forall request_body f k,
    obj_get k (patched request_body f) =
    match (if String.eqb k "completed"
           then prop request_body "completed" else None) with
    | Some x => Some x
    | None =>
        match (if String.eqb k "title"
               then prop request_body "title" else None) with
        | Some x => Some x
        | None => obj_get k f
        end
    end.
Proof.
  intros request_body f k. unfold patched.
  destruct (prop request_body "completed") as [ c | ];
    destruct (prop request_body "title") as [ t | ];
    rewrite ?obj_get_put;
    destruct (String.eqb k "completed") eqn:E1;
    destruct (String.eqb k "title") eqn:E2; try reflexivity.
Qed.

(** C2. Partial update preserves untouched fields: when the document
    holds a task with the requested id, [updateTask] answers 200 with
    that task, in which a property that the body omits ([title] or
    [completed]) is what it was and a property that the body gives has
    the value given; the document saved holds that task in place. *)
Theorem partial_update_preserves_omitted_fields :
  forall req fs o before f after n,
    readData fs = Some (Return (JObj o), fs) ->
    obj_get "tasks" o = Some (JArr (before ++ JObj f :: after)) ->
    body req <> JNull ->
    parse_id req = Some n ->
    task_has_id n (JObj f) ->
    Forall (fun t => t <> JNull /\ ~ task_has_id n t) before ->
    writable fs = true ->
    exists f' fs',
      updateTask req fs = Some (Return (mkResponse 200 (JObj f')), fs')
      /\ file fs'
         = Some (JSON_stringify
                   (JObj (obj_put "tasks" (JArr (before ++ JObj f' :: after)) o)))
      /\ (prop (body req) "title" = None ->
          obj_get "title" f' = obj_get "title" f)
      /\ (prop (body req) "completed" = None ->
          obj_get "completed" f' = obj_get "completed" f)
      /\ (forall title, prop (body req) "title" = Some title ->
            obj_get "title" f' = Some title)
      /\ (forall completed, prop (body req) "completed" = Some completed ->
            obj_get "completed" f' = Some completed).
Proof.
  intros req fs o before f after n Hread Htasks Hbody Hid Htask Hbefore Hw.
  apply no_match_without_id in Hbefore. rewrite <- Hid in Hbefore.
  apply matches_task_has_id in Htask. rewrite <- Hid in Htask.
  rewrite (updateTask_found req fs o before f after Hread Htasks Hbody
             Hbefore Htask). cbv zeta. rewrite Hw.
  exists (patched (body req) f). eexists.
  split; [ reflexivity | ]. split; [ reflexivity | ].
  repeat split.
  - intros H. rewrite patched_get, H. reflexivity.
  - intros H. rewrite patched_get, H. reflexivity.
  - intros title H. rewrite patched_get, H. reflexivity.
  - intros completed H. rewrite patched_get, H. reflexivity.
Qed.

(** C10. A successful update changes nothing but [title] and
    [completed] of the matched task: every other property of that task,
    its [id] first (whatever the body says about [id]), every other task
    and every other property of the document, [nextId] included, are in
    the saved document what they were in the loaded one. *)
Theorem update_changes_only_title_and_completed :
  forall req fs res fs',
    updateTask req fs = Some (Return res, fs') ->
    status res = 200 ->
    exists o before f after f' o',
      readData fs = Some (Return (JObj o), fs)
      /\ obj_get "tasks" o = Some (JArr (before ++ JObj f :: after))
      /\ matches (parse_id req) (JObj f) = true
      /\ payload res = JObj f'
      /\ file fs' = Some (JSON_stringify (JObj o'))
      /\ obj_get "tasks" o' = Some (JArr (before ++ JObj f' :: after))
      /\ (forall k, k <> "title" -> k <> "completed" ->
            obj_get k f' = obj_get k f)
      /\ obj_get "id" f' = obj_get "id" f
      /\ (forall k, k <> "tasks" -> obj_get k o' = obj_get k o)
      /\ obj_get "nextId" o' = obj_get "nextId" o.
Proof.
  intros req fs res fs' H Hstatus.
  destruct (null_or_not (body req)) as [Hb | Hb].
  { rewrite (updateTask_null_body _ _ Hb) in H. inversion H; subst.
    discriminate Hstatus. }
  destruct (readData fs) as [ [r fs1] | ] eqn:R;
    [ | rewrite (updateTask_outside _ _ Hb R) in H; discriminate H ].
  pose proof (readData_same_file _ _ _ R) as ->.
  destruct (readData_returns _ _ _ R) as [data ->].
  destruct (updateTask_total req fs data R)
    as [E | [E | [_ [o [before [f [after [-> [Htasks [Hno Hm]]]]]]]]]].
  - rewrite E in H. inversion H; subst. discriminate Hstatus.
  - rewrite E in H. inversion H; subst. discriminate Hstatus.
  - rewrite (updateTask_found req fs o before f after R Htasks Hb Hno Hm) in H.
    cbv zeta in H. destruct (writable fs);
      inversion H; subst; [ | discriminate Hstatus ].
    exists o, before, f, after, (patched (body req) f).
    eexists. repeat split; try eassumption; try reflexivity.
    + rewrite obj_get_put. reflexivity.
    + intros k Ht Hc. rewrite patched_get.
      destruct (String.eqb k "completed") eqn:E1;
        [ apply String.eqb_eq in E1; contradiction | ].
      destruct (String.eqb k "title") eqn:E2;
        [ apply String.eqb_eq in E2; contradiction | ].
      reflexivity.
    + rewrite patched_get. reflexivity.
    + intros k Hk. rewrite obj_get_put.
      destruct (String.eqb k "tasks") eqn:E;
        [ apply String.eqb_eq in E; contradiction | reflexivity ].
    + rewrite obj_get_put. reflexivity.
Qed.

(** C3, as the code has it. The title of a create request is checked as
    it was sent, without trimming: with a boolean [completed], the empty
    title is rejected with a 400 response and a title of 1 to 200
    characters is accepted with a 201 response that carries the next id. *)
Theorem create_checks_title_as_sent :
  forall req fs s b,
    prop (body req) "title" = Some (JStr s) ->
    prop (body req) "completed" = Some (JBool b) ->
    (String.length s = 0%nat ->
     createTask req fs
     = Some (Return (mkResponse 400 (error_payload donnees_invalides)), fs))
    /\ ((1 <= String.length s <= 200)%nat ->
        forall o ts n,
          readData fs = Some (Return (JObj o), fs) ->
          obj_get "tasks" o = Some (JArr ts) ->
          obj_get "nextId" o = Some (JNum n) ->
          safe_integer (n + 1) = true ->
          writable fs = true ->
          exists fs',
            createTask req fs
            = Some (Return (mkResponse 201 (new_task n (JStr s) (JBool b))),
                    fs')
            /\ file fs'
               = Some (JSON_stringify
                         (JObj (obj_put "nextId" (JNum (n + 1))
                                  (obj_put "tasks"
                                     (JArr (ts ++ [new_task n (JStr s)
                                                     (JBool b)])) o))))).
Proof.
  intros req fs s b Ht Hc.
  assert (Hbody : body req <> JNull) by (intros E; rewrite E in Ht; discriminate).
  split.
  - intros Hlen. apply createTask_invalid; [ exact Hbody | ].
    left. rewrite Ht. destruct s; [ reflexivity | discriminate Hlen ].
  - intros Hlen o ts n Hread Htasks Hnext Hsafe Hw.
    rewrite (createTask_valid req fs (JStr s) b o ts n Ht); auto.
    + cbv zeta. rewrite Hw. eexists. split; reflexivity.
    + destruct s; [ simpl in Hlen; lia | reflexivity ].
Qed.

(** C3, counterexample. A title made of one space has trimmed length 0,
    and the create request that carries it is answered 201, not 400. *)
Lemma create_accepts_blank_title :
  String.length (trim " ") = 0%nat
  /\ exists res fs',
       createTask
         (mkRequest None (JObj [("title", JStr " "); ("completed", JBool false)]))
         (mkFS None true 0)
       = Some (Return res, fs')
       /\ status res = 201 /\ status res <> 400.
Proof.
  split; [ reflexivity | ].
  eexists. eexists. split; [ vm_compute; reflexivity | ].
  split; [ reflexivity | discriminate ].
Qed.

(** C4, the code at the failing input. A PUT whose body gives the empty
    title, or a [completed] that is a string, goes through the router
    straight to [updateTask]: it is answered 200 and the document saved
    holds the value sent. *)
Lemma update_accepts_invalid_fields :
  (exists fs',
     router PUT (mkRequest (Some "1") (JObj [("title", JStr "")]))
       one_task_store
     = Some (Return (mkResponse 200 (new_task 1 (JStr "") (JBool false))), fs')
     /\ readData fs'
        = Some (Return
                  (JObj [("tasks",
                          JArr [new_task 1 (JStr "") (JBool false)]);
                         ("nextId", JNum 2)]), fs'))
  /\ (exists fs',
        router PUT (mkRequest (Some "1") (JObj [("completed", JStr "yes")]))
          one_task_store
        = Some (Return
                  (mkResponse 200 (new_task 1 (JStr "Buy milk") (JStr "yes"))),
                fs')
        /\ readData fs'
           = Some (Return
                     (JObj [("tasks",
                             JArr [new_task 1 (JStr "Buy milk") (JStr "yes")]);
                            ("nextId", JNum 2)]), fs')).
Proof.
  split; eexists;
    (split; [ vm_compute; reflexivity | vm_compute; reflexivity ]).
Qed.

(** * A run of the server: the ids *)



Lemma wf_value_prop :
  forall v k x, wf_value v = true -> prop v k = Some x -> wf_value x = true.
Proof.
  intros v k x Hwf H. destruct v; try discriminate H.
  eapply wf_value_get; eassumption.
Qed.

Lemma wf_value_patched :
  forall request_body f,
    wf_value request_body = true -> wf_value (JObj f) = true ->
    wf_value (JObj (patched request_body f)) = true.
Proof.
  intros request_body f Hb Hf. unfold patched.
  assert (H1 : wf_value
                 (JObj match prop request_body "title" with
                       | Some title => obj_put "title" title f
                       | None => f
                       end) = true).
  { destruct (prop request_body "title") as [ t | ] eqn:Et; [ | exact Hf ].
    apply wf_value_put; [ reflexivity | exact Hf | ].
    exact (wf_value_prop _ _ _ Hb Et). }
  destruct (prop request_body "completed") as [ c | ] eqn:Ec; [ | exact H1 ].
  apply wf_value_put; [ reflexivity | exact H1 | ].
  exact (wf_value_prop _ _ _ Hb Ec).
Qed.

Lemma wf_value_middle :
  forall before x after,
    wf_value (JArr (before ++ x :: after)) = true <->
    wf_value (JArr before) = true /\ wf_value x = true
    /\ wf_value (JArr after) = true.
Proof.
  intros before x after. simpl. rewrite forallb_app. simpl.
  rewrite !andb_true_iff. tauto.
Qed.

Lemma wf_value_new_task :
  forall n title completed,
    safe_integer n = true -> wf_value title = true ->
    wf_value completed = true ->
    wf_value (new_task n title completed) = true.
Proof.
  intros n title completed Hn Ht Hc. unfold new_task.
  apply wf_value_obj. split.
  - intros kv [<- | [<- | [<- | []]]]; assumption.
  - apply entries_ordered. reflexivity.
Qed.

Lemma safe_integer_succ :
  forall n, safe_integer n = true -> n < MAX_SAFE_INTEGER ->
    safe_integer (n + 1) = true.
Proof.
  intros n H Hlt. unfold safe_integer in *.
  apply andb_true_iff in H. destruct H as [H1 H2].
  apply Z.leb_le in H1. apply Z.leb_le in H2.
  apply andb_true_iff. split; apply Z.leb_le; lia.
Qed.









(** * The theorems at concrete inputs *)


Lemma partial_update_preserves_omitted_fields_witness :
  exists f' fs',
    updateTask (mkRequest (Some "1") (JObj [("completed", JBool true)]))
      one_task_store
    = Some (Return (mkResponse 200 (JObj f')), fs')
    /\ obj_get "title" f' = Some (JStr "Buy milk")
    /\ obj_get "completed" f' = Some (JBool true).
Proof.
  destruct
    (partial_update_preserves_omitted_fields
       (mkRequest (Some "1") (JObj [("completed", JBool true)]))
       one_task_store
       [("tasks", JArr [new_task 1 (JStr "Buy milk") (JBool false)]);
        ("nextId", JNum 2)]
       []
       [("id", JNum 1); ("title", JStr "Buy milk"); ("completed", JBool false)]
       [] 1)
    as [f' [fs' [Hrun [_ [Htitle [_ [_ Hcompleted]]]]]]].
  - vm_compute. reflexivity.
  - reflexivity.
  - discriminate.
  - reflexivity.
  - reflexivity.
  - constructor.
  - reflexivity.
  - exists f', fs'. split; [ exact Hrun | ]. split.
    + rewrite Htitle; reflexivity.
    + apply Hcompleted. reflexivity.
Defined.

Lemma create_checks_title_as_sent_witness :
  createTask (mkRequest None (JObj [("title", JStr ""); ("completed", JBool true)]))
    empty_store
  = Some (Return (mkResponse 400 (error_payload donnees_invalides)), empty_store)
  /\ exists fs',
       createTask
         (mkRequest None (JObj [("title", JStr "a"); ("completed", JBool true)]))
         empty_store
       = Some (Return (mkResponse 201 (new_task 1 (JStr "a") (JBool true))), fs')
       /\ file fs'
          = Some (JSON_stringify
                    (JObj (obj_put "nextId" (JNum (1 + 1))
                             (obj_put "tasks"
                                (JArr ([] ++ [new_task 1 (JStr "a") (JBool true)]))
                                [("tasks", JArr []); ("nextId", JNum 1)])))).
Proof.
  split.
  - apply (proj1 (create_checks_title_as_sent
                    (mkRequest None
                       (JObj [("title", JStr ""); ("completed", JBool true)]))
                    empty_store "" true eq_refl eq_refl)).
    reflexivity.
  - apply (proj2 (create_checks_title_as_sent
                    (mkRequest None
                       (JObj [("title", JStr "a"); ("completed", JBool true)]))
                    empty_store "a" true eq_refl eq_refl)).
    + simpl. lia.
    + reflexivity.
    + reflexivity.
    + reflexivity.
    + reflexivity.
    + reflexivity.
Defined.


Lemma save_then_load_round_trip_witness :
  exists fs',
    writeData sample_document empty_store = Some (Return tt, fs')
    /\ file fs' = Some (JSON_stringify sample_document)
    /\ readData fs' = Some (Return sample_document, fs').
Proof.
  apply (save_then_load_round_trip sample_document empty_store).
  - reflexivity.
  - reflexivity.
Defined.

Lemma load_falls_back_to_empty_document_witness :
  readData (mkFS (Some "{oops") true 0)
  = Some (Return default_data, mkFS (Some "{oops") true 0)
  /\ readData empty_store = Some (Return default_data, empty_store).
Proof.
  split.
  - apply (proj2 (load_falls_back_to_empty_document
                    (mkFS (Some "{oops") true 0))).
    right. exists "{oops". split; reflexivity.
  - apply (proj2 (load_falls_back_to_empty_document empty_store)).
    left. reflexivity.
Defined.

Lemma delete_removes_exactly_one_task_witness :
  exists fs' o',
    deleteTask (mkRequest (Some "2") (JObj [])) three_tasks_store
    = Some (Return (mkResponse 200 deleted_payload), fs')
    /\ obj_get "tasks" o'
       = Some (JArr [new_task 1 (JStr "A") (JBool false);
                     new_task 3 (JStr "C") (JBool false)])
    /\ readData fs' = Some (Return (JObj o'), fs').
Proof.
  destruct
    (delete_removes_exactly_one_task
       (mkRequest (Some "2") (JObj [])) three_tasks_store
       [("tasks",
         JArr [new_task 1 (JStr "A") (JBool false);
               new_task 2 (JStr "B") (JBool true);
               new_task 3 (JStr "C") (JBool false)]);
        ("nextId", JNum 4)]
       [new_task 1 (JStr "A") (JBool false)]
       (new_task 2 (JStr "B") (JBool true))
       [new_task 3 (JStr "C") (JBool false)] 2)
    as [fs' [o' [Hrun [_ [_ [Htasks [_ Hread]]]]]]].
  - vm_compute. reflexivity.
  - reflexivity.
  - reflexivity.
  - reflexivity.
  - constructor; [ | constructor; [ | constructor ] ]; split; discriminate.
  - reflexivity.
  - exists fs', o'. split; [ exact Hrun | ]. split; [ exact Htasks | ].
    exact Hread.
Defined.

Lemma unknown_id_parameter_is_not_found_witness :
  updateTask (mkRequest (Some "abc") (JObj [("completed", JBool true)]))
    one_task_store
  = Some (Return (mkResponse 404 (error_payload tache_non_trouvee)),
          one_task_store)
  /\ updateTask (mkRequest (Some "abc") JNull) one_task_store
     = Some (Return (mkResponse 500 (error_payload erreur_mise_a_jour)),
             one_task_store)
  /\ deleteTask (mkRequest (Some "abc") JNull) one_task_store
     = Some (Return (mkResponse 404 (error_payload tache_non_trouvee)),
             one_task_store)
  /\ (forall s, non_numeric s = true -> parseInt s = None).
Proof.
  destruct (unknown_id_parameter_is_not_found
              (mkRequest (Some "abc") JNull)
              one_task_store
              [("tasks", JArr [new_task 1 (JStr "Buy milk") (JBool false)]);
               ("nextId", JNum 2)]
              [new_task 1 (JStr "Buy milk") (JBool false)])
    as [Hupdate [Hnone [Hdelete Hnan]]].
  - vm_compute. reflexivity.
  - reflexivity.
  - constructor; [ discriminate | constructor ].
  - intros n H. discriminate H.
  - split; [ | split; [ | split ] ].
    + apply (Hupdate (JObj [("completed", JBool true)])). discriminate.
    + exact Hnone.
    + apply (Hdelete JNull).
    + exact Hnan.
Defined.

Lemma update_changes_only_title_and_completed_witness :
  exists o before f after f' o',
    readData one_task_store = Some (Return (JObj o), one_task_store)
    /\ obj_get "tasks" o = Some (JArr (before ++ JObj f :: after))
    /\ obj_get "tasks" o' = Some (JArr (before ++ JObj f' :: after))
    /\ obj_get "id" f' = obj_get "id" f
    /\ obj_get "nextId" o' = obj_get "nextId" o.
Proof.
  destruct
    (update_changes_only_title_and_completed
       (mkRequest (Some "1") (JObj [("id", JNum 7); ("title", JStr "x")]))
       one_task_store
       (mkResponse 200 (new_task 1 (JStr "x") (JBool false)))
       (mkFS
          (Some (JSON_stringify
                   (JObj [("tasks",
                           JArr [new_task 1 (JStr "x") (JBool false)]);
                          ("nextId", JNum 2)])))
          true 1))
    as [o [before [f [after [f' [o' H]]]]]].
  - vm_compute. reflexivity.
  - reflexivity.
  - exists o, before, f, after, f', o'.
    destruct H as [H1 [H2 [_ [_ [_ [H6 [_ [H8 [_ H10]]]]]]]]].
    repeat split; assumption.
Defined.

(** * The model on the examples of the repository *)

(** The layout of the file that the comment of [writeData] documents. *)
Example stringify_layout :
  JSON_stringify sample_document
  = with_double_quotes
      "{
  'tasks': [
    {
      'id': 1,
      'title': 'Buy milk',
      'completed': false
    }
  ],
  'nextId': 2
}".
Proof. vm_compute. reflexivity. Qed.

Example parse_examples :
  JSON_parse (with_double_quotes "{'tasks': [], 'nextId': 1}")
  = Parsed default_data
  /\ JSON_parse (with_double_quotes "{'a': 1, 'a': [true, null], '0': 'x\ty'}")
     = Parsed (JObj [("0", JStr (String "x" (String "009" "y")));
                     ("a", JArr [JBool true; JNull])])
  /\ JSON_parse "[1, 2,]" = Rejected
  /\ JSON_parse "[01]" = Rejected
  /\ JSON_parse "" = Rejected
  /\ JSON_parse "[1.5]" = Unmodelled.
Proof. repeat split; vm_compute; reflexivity. Qed.

Example parseInt_examples :
  parseInt "42" = Some 42
  /\ parseInt "  -7abc" = Some (-7)
  /\ parseInt "0x1F" = Some 31
  /\ parseInt "1e3" = Some 1
  /\ parseInt "abc" = None
  /\ parseInt "" = None.
Proof. repeat split; reflexivity. Qed.

(** The end-to-end scenario of the specification, request by request. *)
Example scenario_responses :
  option_map (fun r => map ex_response (fst r)) (run scenario empty_store)
  = Some
      [mkResponse 201 (new_task 1 (JStr "Buy milk") (JBool false));
       mkResponse 200 (JArr [new_task 1 (JStr "Buy milk") (JBool false)]);
       mkResponse 200 (new_task 1 (JStr "Buy milk") (JBool true));
       mkResponse 200 deleted_payload;
       mkResponse 200 (JArr [])].
Proof. vm_compute. reflexivity. Qed.

Example sample_events_ids :
  option_map (fun r => assigned_ids (fst r)) (run sample_events empty_store)
  = Some [1; 2].
Proof. vm_compute. reflexivity. Qed.

(** * Every outcome of a request *)

(** The file after a call of [fs.writeFile] that failed. *)
Lemma failed_write_file :
  forall fs, file (mkFS (file fs) (writable fs) (S (writeCalls fs))) = file fs.
Proof. reflexivity. Qed.

Lemma getAllTasks_cases :
  forall req fs r fs',
    getAllTasks req fs = Some (r, fs') ->
    fs' = fs
    /\ ((exists data l,
           readData fs = Some (Return data, fs) /\ data <> JNull
           /\ prop data "tasks" = Some l /\ r = Return (mkResponse 200 l))
        \/ (readData fs = Some (Return JNull, fs)
            /\ r = Return (mkResponse 500 (error_payload erreur_recuperation)))).
Proof.
  intros req fs r fs' H. unfold getAllTasks, try_catch, bind in H.
  destruct (readData fs) as [ [r0 fs0] | ] eqn:R; [ | discriminate H ].
  pose proof (readData_same_file _ _ _ R) as ->.
  destruct (readData_returns _ _ _ R) as [data ->].
  destruct data as [ | b | n | s | l | o ]; cbn in H; try discriminate H.
  - inversion H; subst. split; [ reflexivity | ]. right. split; reflexivity.
  - destruct (obj_get "tasks" o) as [ l | ] eqn:E; [ | discriminate H ].
    inversion H; subst. split; [ reflexivity | ]. left.
    exists (JObj o), l. repeat split; [ discriminate | exact E ].
Qed.

Lemma create_guard_cases :
  forall req,
    create_guard req = false ->
    exists title b,
      prop (body req) "title" = Some title /\ truthy (Some title) = true
      /\ prop (body req) "completed" = Some (JBool b).
Proof.
  intros req G. unfold create_guard in G. apply orb_false_iff in G.
  destruct G as [Gt Gc]. apply negb_false_iff in Gt. apply negb_false_iff in Gc.
  destruct (prop (body req) "title") as [ title | ]; [ | discriminate Gt ].
  destruct (prop (body req) "completed") as [ [ | b | | | | ] | ];
    try discriminate Gc.
  exists title, b. auto.
Qed.

Lemma createTask_cases :
  forall req fs r fs',
    createTask req fs = Some (r, fs') ->
    (r = Return (mkResponse 400 (error_payload donnees_invalides))
     /\ fs' = fs /\ body req <> JNull /\ create_guard req = true)
    \/ (r = Return (mkResponse 500 (error_payload erreur_creation))
        /\ (fs' = fs
            \/ (writable fs = false
                /\ fs' = mkFS (file fs) (writable fs) (S (writeCalls fs)))))
    \/ (exists o ts n title b,
          readData fs = Some (Return (JObj o), fs)
          /\ obj_get "tasks" o = Some (JArr ts)
          /\ obj_get "nextId" o = Some (JNum n)
          /\ safe_integer (n + 1) = true
          /\ prop (body req) "title" = Some title
          /\ truthy (Some title) = true
          /\ prop (body req) "completed" = Some (JBool b)
          /\ writable fs = true
          /\ r = Return (mkResponse 201 (new_task n title (JBool b)))
          /\ fs' = mkFS
                     (Some (JSON_stringify
                              (JObj (obj_put "nextId" (JNum (n + 1))
                                       (obj_put "tasks"
                                          (JArr (ts ++ [new_task n title (JBool b)]))
                                          o)))))
                     (writable fs) (S (writeCalls fs))).
Proof.
  intros req fs r fs' H.
  destruct (null_or_not (body req)) as [Hb | Hb].
  { rewrite (createTask_null_body _ _ Hb) in H. inversion H; subst.
    right; left. auto. }
  destruct (create_guard req) eqn:G.
  { rewrite createTask_invalid in H; [ | exact Hb | ].
    - inversion H; subst. left. auto.
    - unfold create_guard in G. apply orb_true_iff in G.
      destruct G as [G | G]; apply negb_true_iff in G; auto. }
  destruct (create_guard_cases req G) as [title [b [Ht [Htruthy Hc]]]].
  destruct (readData fs) as [ [r0 fs0] | ] eqn:R.
  2:{ unfold createTask, try_catch, bind in H.
      rewrite !(get_prop_not_null _ _ _ Hb), Ht, Hc, Htruthy in H.
      cbn [typeof_boolean negb orb] in H. rewrite R in H. discriminate H. }
  pose proof (readData_same_file _ _ _ R) as ->.
  destruct (readData_returns _ _ _ R) as [data ->].
  assert (Hfail :
    forall e, tasks_of data fs = Some (Throw e, fs) ->
      (exists id, prop data "nextId" = Some id) -> data <> JNull ->
      createTask req fs
      = Some (Return (mkResponse 500 (error_payload erreur_creation)), fs)).
  { intros e He [id Hid] Hd. unfold createTask, try_catch, bind.
    rewrite !(get_prop_not_null _ _ _ Hb), Ht, Hc, Htruthy.
    cbn [typeof_boolean negb orb]. rewrite R.
    rewrite (get_prop_not_null _ _ _ Hd), Hid, He. reflexivity. }
  destruct data as [ | x | x | x | x | o ].
  - unfold createTask, try_catch, bind in H.
    rewrite !(get_prop_not_null _ _ _ Hb), Ht, Hc, Htruthy in H.
    cbn [typeof_boolean negb orb] in H. rewrite R in H. cbn in H.
    inversion H; subst. right; left. auto.
  - unfold createTask, try_catch, bind in H.
    rewrite !(get_prop_not_null _ _ _ Hb), Ht, Hc, Htruthy in H.
    cbn [typeof_boolean negb orb] in H. rewrite R in H. discriminate H.
  - unfold createTask, try_catch, bind in H.
    rewrite !(get_prop_not_null _ _ _ Hb), Ht, Hc, Htruthy in H.
    cbn [typeof_boolean negb orb] in H. rewrite R in H. discriminate H.
  - unfold createTask, try_catch, bind in H.
    rewrite !(get_prop_not_null _ _ _ Hb), Ht, Hc, Htruthy in H.
    cbn [typeof_boolean negb orb] in H. rewrite R in H. discriminate H.
  - unfold createTask, try_catch, bind in H.
    rewrite !(get_prop_not_null _ _ _ Hb), Ht, Hc, Htruthy in H.
    cbn [typeof_boolean negb orb] in H. rewrite R in H. discriminate H.
  - destruct (obj_get "nextId" o) as [ id | ] eqn:Hid.
    2:{ unfold createTask, try_catch, bind in H.
        rewrite !(get_prop_not_null _ _ _ Hb), Ht, Hc, Htruthy in H.
        cbn [typeof_boolean negb orb] in H. rewrite R in H.
        cbn [get_prop ret] in H. rewrite Hid in H. discriminate H. }
    specialize (fun e He => Hfail e He (ex_intro _ id Hid)).
    rewrite tasks_of_cases in Hfail. cbn [prop] in Hfail.
    destruct (obj_get "tasks" o) as [ [ | | | | ts | ] | ] eqn:Htasks;
      try (rewrite (Hfail TypeError eq_refl) in H; [ | discriminate ];
           inversion H; subst; right; left; auto).
    clear Hfail.
    destruct id as [ | | n | | | ];
      try (unfold createTask, try_catch, bind in H;
           rewrite !(get_prop_not_null _ _ _ Hb), Ht, Hc, Htruthy in H;
           cbn [typeof_boolean negb orb] in H; rewrite R in H;
           cbn [get_prop ret] in H; rewrite Hid, tasks_of_cases in H;
           cbn [prop] in H; rewrite Htasks in H;
           unfold increment_nextId, bind in H;
           cbn [set_prop get_prop ret] in H; rewrite obj_get_put in H;
           replace (String.eqb "nextId" "tasks") with false in H by reflexivity;
           rewrite Hid in H; discriminate H).
    destruct (safe_integer (n + 1)) eqn:Hsafe.
    2:{ unfold createTask, try_catch, bind in H.
        rewrite !(get_prop_not_null _ _ _ Hb), Ht, Hc, Htruthy in H.
        cbn [typeof_boolean negb orb] in H. rewrite R in H.
        cbn [get_prop ret] in H. rewrite Hid, tasks_of_cases in H.
        cbn [prop] in H. rewrite Htasks in H.
        unfold increment_nextId, bind in H.
        cbn [set_prop get_prop ret] in H. rewrite obj_get_put in H.
        replace (String.eqb "nextId" "tasks") with false in H by reflexivity.
        rewrite Hid, Hsafe in H. discriminate H. }
    rewrite (createTask_valid req fs title b o ts n Ht Htruthy Hc R Htasks Hid
               Hsafe) in H.
    cbv zeta in H. destruct (writable fs) eqn:Hw; inversion H; subst.
    + right; right. exists o, ts, n, title, b. repeat split; auto.
    + right; left. split; [ reflexivity | ]. right. auto.
Qed.

Lemma updateTask_cases :
  forall req fs r fs',
    updateTask req fs = Some (r, fs') ->
    (r = Return (mkResponse 404 (error_payload tache_non_trouvee)) /\ fs' = fs)
    \/ (r = Return (mkResponse 500 (error_payload erreur_mise_a_jour))
        /\ (fs' = fs
            \/ (writable fs = false
                /\ fs' = mkFS (file fs) (writable fs) (S (writeCalls fs)))))
    \/ (exists o before f after,
          readData fs = Some (Return (JObj o), fs)
          /\ found_in (parse_id req) (JObj o) o before (JObj f) after
          /\ body req <> JNull
          /\ writable fs = true
          /\ r = Return (mkResponse 200 (JObj (patched (body req) f)))
          /\ fs' = mkFS
                     (Some (JSON_stringify
                              (JObj (obj_put "tasks"
                                       (JArr (before
                                              ++ JObj (patched (body req) f)
                                              :: after)) o))))
                     (writable fs) (S (writeCalls fs))).
Proof.
  intros req fs r fs' H.
  destruct (null_or_not (body req)) as [Hb | Hb].
  { rewrite (updateTask_null_body _ _ Hb) in H. inversion H; subst.
    right; left. auto. }
  destruct (readData fs) as [ [r0 fs0] | ] eqn:R;
    [ | rewrite (updateTask_outside _ _ Hb R) in H; discriminate H ].
  pose proof (readData_same_file _ _ _ R) as ->.
  destruct (readData_returns _ _ _ R) as [data ->].
  destruct (updateTask_total req fs data R)
    as [E | [E | [_ [o [before [f [after [-> [Htasks [Hno Hm]]]]]]]]]].
  - rewrite E in H. inversion H; subst. right; left. auto.
  - rewrite E in H. inversion H; subst. left. auto.
  - rewrite (updateTask_found req fs o before f after R Htasks Hb Hno Hm) in H.
    cbv zeta in H. destruct (writable fs) eqn:Hw; inversion H; subst.
    + right; right. exists o, before, f, after.
      repeat split; auto.
    + right; left. split; [ reflexivity | ]. right. auto.
Qed.

Lemma deleteTask_cases :
  forall req fs r fs',
    deleteTask req fs = Some (r, fs') ->
    (r = Return (mkResponse 404 (error_payload tache_non_trouvee)) /\ fs' = fs)
    \/ (r = Return (mkResponse 500 (error_payload erreur_suppression))
        /\ (fs' = fs
            \/ (writable fs = false
                /\ fs' = mkFS (file fs) (writable fs) (S (writeCalls fs)))))
    \/ (exists o before task after,
          readData fs = Some (Return (JObj o), fs)
          /\ found_in (parse_id req) (JObj o) o before task after
          /\ writable fs = true
          /\ r = Return (mkResponse 200 deleted_payload)
          /\ fs' = mkFS
                     (Some (JSON_stringify
                              (JObj (obj_put "tasks" (JArr (before ++ after)) o))))
                     (writable fs) (S (writeCalls fs))).
Proof.
  intros req fs r fs' H.
  destruct (readData fs) as [ [r0 fs0] | ] eqn:R;
    [ | rewrite (deleteTask_outside _ _ R) in H; discriminate H ].
  pose proof (readData_same_file _ _ _ R) as ->.
  destruct (readData_returns _ _ _ R) as [data ->].
  destruct (deleteTask_total req fs data R)
    as [E | [E | [o [before [task [after [-> [Htasks [Hno Hm]]]]]]]]].
  - rewrite E in H. inversion H; subst. right; left. auto.
  - rewrite E in H. inversion H; subst. left. auto.
  - rewrite (deleteTask_found req fs o before task after R Htasks Hno Hm) in H.
    destruct (writable fs) eqn:Hw; inversion H; subst.
    + right; right. exists o, before, task, after.
      repeat split; auto.
    + right; left. split; [ reflexivity | ]. right. auto.
Qed.

(** * The documents that the controllers save *)

Lemma obj_replace_same :
  forall k v o, obj_get k o = Some v -> obj_replace k v o = o.
Proof.
  intros k v o. induction o as [ | [k1 v1] o IH ]; simpl; intros H.
  - reflexivity.
  - destruct (String.eqb k k1).
    + inversion H; subst. reflexivity.
    + rewrite (IH H). reflexivity.
Qed.

Lemma obj_put_same :
  forall k v o, obj_get k o = Some v -> obj_put k v o = o.
Proof.
  intros k v o H. unfold obj_put. rewrite H. apply obj_replace_same, H.
Qed.

Lemma obj_put_put :
  forall k v o, obj_put k v (obj_put k v o) = obj_put k v o.
Proof.
  intros k v o. apply obj_put_same. rewrite obj_get_put, String.eqb_refl.
  reflexivity.
Qed.

Lemma patched_patched :
  forall request_body f,
    patched request_body (patched request_body f) = patched request_body f.
Proof.
  intros request_body f.
  pose proof (patched_get request_body f "title") as Ht.
  pose proof (patched_get request_body f "completed") as Hc.
  cbn [String.eqb Ascii.eqb Bool.eqb] in Ht, Hc.
  unfold patched at 1.
  destruct (prop request_body "title") as [ t | ];
    destruct (prop request_body "completed") as [ c | ];
    rewrite ?(obj_put_same _ _ _ Ht); rewrite ?(obj_put_same _ _ _ Hc);
    reflexivity.
Qed.

Lemma wf_value_snoc :
  forall ts x,
    wf_value (JArr ts) = true -> wf_value x = true ->
    wf_value (JArr (ts ++ [x])) = true.
Proof.
  intros ts x Hts Hx. simpl in *. rewrite forallb_app, Hts. simpl.
  rewrite Hx. reflexivity.
Qed.

Lemma wf_created :
  forall o ts n title b,
    wf_value (JObj o) = true ->
    obj_get "tasks" o = Some (JArr ts) ->
    obj_get "nextId" o = Some (JNum n) ->
    safe_integer (n + 1) = true ->
    wf_value title = true ->
    wf_value
      (JObj (obj_put "nextId" (JNum (n + 1))
               (obj_put "tasks" (JArr (ts ++ [new_task n title (JBool b)])) o)))
    = true.
Proof.
  intros o ts n title b Hwf Htasks Hnext Hsafe Ht.
  apply wf_value_put; [ reflexivity | | exact Hsafe ].
  apply wf_value_put; [ reflexivity | exact Hwf | ].
  apply wf_value_snoc; [ exact (wf_value_get _ _ _ Hwf Htasks) | ].
  apply wf_value_new_task; [ | exact Ht | reflexivity ].
  exact (wf_value_get _ _ _ Hwf Hnext).
Qed.

Lemma wf_updated :
  forall o before f after request_body,
    wf_value (JObj o) = true ->
    obj_get "tasks" o = Some (JArr (before ++ JObj f :: after)) ->
    wf_value request_body = true ->
    wf_value
      (JObj (obj_put "tasks"
               (JArr (before ++ JObj (patched request_body f) :: after)) o))
    = true.
Proof.
  intros o before f after request_body Hwf Htasks Hb.
  apply wf_value_put; [ reflexivity | exact Hwf | ].
  pose proof (wf_value_get _ _ _ Hwf Htasks) as Hall.
  apply wf_value_middle in Hall. destruct Hall as [H1 [H2 H3]].
  apply wf_value_middle. repeat split; auto.
  apply wf_value_patched; assumption.
Qed.

Lemma wf_deleted :
  forall o before task after,
    wf_value (JObj o) = true ->
    obj_get "tasks" o = Some (JArr (before ++ task :: after)) ->
    wf_value (JObj (obj_put "tasks" (JArr (before ++ after)) o)) = true.
Proof.
  intros o before task after Hwf Htasks.
  apply wf_value_put; [ reflexivity | exact Hwf | ].
  pose proof (wf_value_get _ _ _ Hwf Htasks) as Hall.
  apply wf_value_middle in Hall. destruct Hall as [H1 [H2 H3]].
  simpl in *. rewrite forallb_app, H1, H3. reflexivity.
Qed.

Lemma readData_fallback :
  forall fs,
    file fs = None
    \/ (exists text, file fs = Some text /\ JSON_parse text = Rejected) ->
    readData fs = Some (Return default_data, fs).
Proof.
  intros fs H. rewrite readData_cases.
  destruct H as [-> | [text [-> ->]]]; reflexivity.
Qed.

(** * The listing *)

(** [getAllTasks] only reads. Whatever the request and the file, the
    file state after it is the one before it; the answer is 200 with the
    [tasks] property of the document that [readData] returns, as it is,
    or 500, and 500 only when the file holds the JSON text [null]. *)
Theorem listing_only_reads :
  forall req fs r fs',
    getAllTasks req fs = Some (r, fs') ->
    fs' = fs
    /\ exists res,
         r = Return res
         /\ ((status res = 200
              /\ exists data,
                   readData fs = Some (Return data, fs)
                   /\ prop data "tasks" = Some (payload res))
             \/ (res = mkResponse 500 (error_payload erreur_recuperation)
                 /\ exists text,
                      file fs = Some text /\ JSON_parse text = Parsed JNull)).
Proof.
  intros req fs r fs' H.
  destruct (getAllTasks_cases req fs r fs' H)
    as [-> [[data [l [R [_ [Hl ->]]]]] | [R ->]]];
    (split; [ reflexivity | ]); eexists; (split; [ reflexivity | ]).
  - left. split; [ reflexivity | ]. exists data. auto.
  - right. split; [ reflexivity | ].
    rewrite readData_cases in R.
    destruct (file fs) as [ text | ]; [ | discriminate R ].
    exists text. split; [ reflexivity | ].
    destruct (JSON_parse text); inversion R; reflexivity.
Qed.

(** On a data file that is missing, unreadable or not JSON, the listing
    is the empty array, with status 200, and the file is not created. *)
Theorem listing_without_a_file_is_empty :
  forall req fs,
    file fs = None
    \/ (exists text, file fs = Some text /\ JSON_parse text = Rejected) ->
    getAllTasks req fs = Some (Return (mkResponse 200 (JArr [])), fs).
Proof.
  intros req fs H. unfold getAllTasks, try_catch, bind.
  rewrite (readData_fallback fs H). reflexivity.
Qed.

(** The task that a create request was answered with is the last one of
    the next listing, after the tasks that were there, in their order. *)
Theorem created_task_is_listed_last :
  forall req req' fs o ts res fs',
    readData fs = Some (Return (JObj o), fs) ->
    obj_get "tasks" o = Some (JArr ts) ->
    wf_value (body req) = true ->
    createTask req fs = Some (Return res, fs') ->
    status res = 201 ->
    getAllTasks req' fs'
    = Some (Return (mkResponse 200 (JArr (ts ++ [payload res]))), fs').
Proof.
  intros req req' fs o ts res fs' R Htasks Hbody H Hstatus.
  destruct (createTask_cases req fs _ fs' H)
    as [[E _] | [[E _] | [o0 [ts0 [n [title [b H1]]]]]]];
    try (inversion E; subst; discriminate Hstatus).
  destruct H1 as [R0 [Htasks0 [Hnext [Hsafe [Ht [_ [_ [Hw [E ->]]]]]]]]].
  rewrite R in R0. inversion R0; subst o0.
  rewrite Htasks in Htasks0. inversion Htasks0; subst ts0.
  inversion E; subst res. cbn [payload].
  pose proof (readData_wf _ _ _ R) as Hwf.
  unfold getAllTasks, try_catch, bind.
  rewrite readData_written.
  - cbn [get_prop ret]. rewrite !obj_get_put. reflexivity.
  - apply wf_created; auto. exact (wf_value_prop _ _ _ Hbody Ht).
Qed.

(** * Creation *)

(** On a data file that is missing or not JSON, a valid create request
    is answered with the id 1, and the file then holds that task alone
    and the counter 2. *)
Theorem first_task_gets_id_one :
  forall req fs title b,
    file fs = None
    \/ (exists text, file fs = Some text /\ JSON_parse text = Rejected) ->
    prop (body req) "title" = Some title ->
    truthy (Some title) = true ->
    wf_value title = true ->
    prop (body req) "completed" = Some (JBool b) ->
    writable fs = true ->
    exists fs',
      createTask req fs
      = Some (Return (mkResponse 201 (new_task 1 title (JBool b))), fs')
      /\ readData fs'
         = Some (Return
                   (JObj [("tasks", JArr [new_task 1 title (JBool b)]);
                          ("nextId", JNum 2)]), fs').
Proof.
  intros req fs title b Hfile Ht Htruthy Hwt Hc Hw.
  pose proof (readData_fallback fs Hfile) as R.
  rewrite (createTask_valid req fs title b _ [] 1 Ht Htruthy Hc R
             eq_refl eq_refl eq_refl).
  cbv zeta. rewrite Hw. eexists. split; [ reflexivity | ].
  apply (readData_written
           (JObj [("tasks", JArr [new_task 1 title (JBool b)]);
                  ("nextId", JNum 2)])).
  apply (wf_created [("tasks", JArr []); ("nextId", JNum 1)] [] 1 title b);
    auto.
Qed.

(** The answer of [createTask] on a stored document is decided by the
    body and the disk alone: 500 for a request without a JSON body, 400
    when the title is falsy or [completed] is not a boolean, else 201 when
    the write succeeds and 500 when it fails; only the 201 changes the
    text of the file. *)
Theorem create_answers_by_its_guard :
  forall req fs n,
    stored fs n -> n < MAX_SAFE_INTEGER ->
    exists res fs',
      createTask req fs = Some (Return res, fs')
      /\ (body req = JNull -> status res = 500)
      /\ (body req <> JNull -> create_guard req = true -> status res = 400)
      /\ (body req <> JNull -> create_guard req = false ->
          status res = if writable fs then 201 else 500)
      /\ (status res <> 201 -> file fs' = file fs).
Proof.
  intros req fs n [o [ts [R [Htasks Hnext]]]] Hlt.
  destruct (null_or_not (body req)) as [Hb | Hb].
  { rewrite (createTask_null_body _ _ Hb). eexists. eexists.
    split; [ reflexivity | ]. repeat split; auto; contradiction. }
  destruct (create_guard req) eqn:G.
  { rewrite createTask_invalid; [ | exact Hb | ].
    - eexists. eexists. split; [ reflexivity | ].
      repeat split; auto; try contradiction; discriminate.
    - unfold create_guard in G. apply orb_true_iff in G.
      destruct G as [G | G]; apply negb_true_iff in G; auto. }
  destruct (create_guard_cases req G) as [title [b [Ht [Htruthy Hc]]]].
  pose proof (readData_wf _ _ _ R) as Hwf.
  pose proof (safe_integer_succ n (wf_value_get _ _ _ Hwf Hnext) Hlt) as Hsafe.
  rewrite (createTask_valid req fs title b o ts n Ht Htruthy Hc R Htasks Hnext
             Hsafe).
  cbv zeta. destruct (writable fs); eexists; eexists;
    (split; [ reflexivity | ]); cbn [status file];
    repeat split; auto; try contradiction; try discriminate.
Qed.

(** * What a request can and cannot do *)

Lemma router_cases :
  forall method req fs r fs',
    router method req fs = Some (r, fs') ->
    exists res,
      r = Return res
      /\ In (status res) (statuses_of method)
      /\ (400 <= status res -> exists message, payload res = error_payload message)
      /\ (status res = 400 \/ status res = 404 -> fs' = fs)
      /\ (method = GET \/ status res = 500 \/ writable fs = false ->
          file fs' = file fs).
Proof.
  intros [ | | | ] req fs r fs' H; cbn [router] in H.
  - destruct (getAllTasks_cases req fs r fs' H)
      as [-> [[data [l [R [_ [Hl ->]]]]] | [R ->]]];
      eexists; (split; [ reflexivity | ]); cbn [status payload statuses_of In];
      repeat split; auto; try lia; eauto.
  - destruct (createTask_cases req fs r fs' H)
      as [[-> [-> _]] | [[-> Hfs] | [o [ts [n [title [b H1]]]]]]].
    + eexists; (split; [ reflexivity | ]); cbn [status payload statuses_of In];
        repeat split; auto; eauto.
    + eexists; (split; [ reflexivity | ]); cbn [status payload statuses_of In].
      split; [ auto | ]. split; [ eauto | ]. split.
      * intros [E | E]; discriminate E.
      * intros _. destruct Hfs as [-> | [_ ->]]; reflexivity.
    + destruct H1 as [_ [_ [_ [_ [_ [_ [_ [Hw [-> ->]]]]]]]]].
      eexists; (split; [ reflexivity | ]); cbn [status payload statuses_of In].
      split; [ auto | ]. split; [ lia | ]. split.
      * intros [E | E]; discriminate E.
      * intros [E | [E | E]]; try discriminate E. congruence.
  - destruct (updateTask_cases req fs r fs' H)
      as [[-> ->] | [[-> Hfs] | [o [before [f [after H1]]]]]].
    + eexists; (split; [ reflexivity | ]); cbn [status payload statuses_of In];
        repeat split; auto; eauto.
    + eexists; (split; [ reflexivity | ]); cbn [status payload statuses_of In].
      split; [ auto | ]. split; [ eauto | ]. split.
      * intros [E | E]; discriminate E.
      * intros _. destruct Hfs as [-> | [_ ->]]; reflexivity.
    + destruct H1 as [_ [_ [_ [Hw [-> ->]]]]].
      eexists; (split; [ reflexivity | ]); cbn [status payload statuses_of In].
      split; [ auto | ]. split; [ lia | ]. split.
      * intros [E | E]; discriminate E.
      * intros [E | [E | E]]; try discriminate E. congruence.
  - destruct (deleteTask_cases req fs r fs' H)
      as [[-> ->] | [[-> Hfs] | [o [before [task [after H1]]]]]].
    + eexists; (split; [ reflexivity | ]); cbn [status payload statuses_of In];
        repeat split; auto; eauto.
    + eexists; (split; [ reflexivity | ]); cbn [status payload statuses_of In].
      split; [ auto | ]. split; [ eauto | ]. split.
      * intros [E | E]; discriminate E.
      * intros _. destruct Hfs as [-> | [_ ->]]; reflexivity.
    + destruct H1 as [_ [_ [Hw [-> ->]]]].
      eexists; (split; [ reflexivity | ]); cbn [status payload statuses_of In].
      split; [ auto | ]. split; [ lia | ]. split.
      * intros [E | E]; discriminate E.
      * intros [E | [E | E]]; try discriminate E. congruence.
Qed.

(** Every request that the router serves gets a response, never an
    exception; its status is one of those of its route (200 or 500 for
    the listing, 201, 400 or 500 for a creation, 200, 404 or 500 for an
    update or a deletion), and the body of a response of status 400 or
    above is an object with the single property [error]. *)
Theorem every_request_is_answered_in_kind :
  forall method req fs r fs',
    router method req fs = Some (r, fs') ->
    exists res,
      r = Return res
      /\ In (status res) (statuses_of method)
      /\ (400 <= status res ->
          exists message, payload res = error_payload message).
Proof.
  intros method req fs r fs' H.
  destruct (router_cases method req fs r fs' H) as [res [E [Hin [Herr _]]]].
  exists res. auto.
Qed.

(** A request that is not answered 200 or 201 leaves the text of the
    file as it was: a 400 or a 404 is sent before any write is attempted
    (the whole file state is untouched), and neither a listing, nor a
    500, nor any request on a disk that refuses writes changes the text. *)
Theorem unsuccessful_requests_leave_the_file :
  forall method req fs res fs',
    router method req fs = Some (Return res, fs') ->
    (status res = 400 \/ status res = 404 -> fs' = fs)
    /\ (method = GET \/ status res = 500 \/ writable fs = false ->
        file fs' = file fs).
Proof.
  intros method req fs res fs' H.
  destruct (router_cases method req fs _ fs' H) as [res0 [E [_ [_ H1]]]].
  inversion E; subst res0. exact H1.
Qed.

(** * Requests in sequence *)

(** Sending the same update a second time changes nothing more: the
    second answer is the first one and the text of the file stays what
    the first update made it. *)
Theorem update_is_idempotent :
  forall req fs res fs1,
    wf_value (body req) = true ->
    updateTask req fs = Some (Return res, fs1) ->
    status res = 200 ->
    exists fs2,
      updateTask req fs1 = Some (Return res, fs2)
      /\ file fs2 = file fs1.
Proof.
  intros req fs res fs1 Hbody H Hstatus.
  destruct (updateTask_cases req fs _ fs1 H)
    as [[E _] | [[E _] | [o [before [f [after H1]]]]]];
    try (inversion E; subst; discriminate Hstatus).
  destruct H1 as [R [[_ [Htasks [Hno Hm]]] [Hb [Hw [E ->]]]]].
  inversion E; subst res. clear E Hstatus H.
  pose proof (readData_wf _ _ _ R) as Hwf.
  pose proof (wf_updated o before f after (body req) Hwf Htasks Hbody) as Hwf'.
  pose proof (readData_written _ (writable fs) (S (writeCalls fs)) Hwf') as R1.
  assert (Hm' : matches (parse_id req) (JObj (patched (body req) f)) = true).
  { unfold matches in *. cbn [prop] in *. rewrite patched_get. exact Hm. }
  rewrite (updateTask_found req _ _ before (patched (body req) f) after R1
             (eq_trans (obj_get_put _ _ _ _) eq_refl) Hb Hno Hm').
  cbv zeta. cbn [writable file writeCalls]. rewrite Hw.
  rewrite patched_patched, obj_put_put.
  eexists. split; reflexivity.
Qed.


(** * The id of the path *)

Lemma digit_in_radix_ten :
  forall c, digit_of_char c = None -> digit_in_radix 10 c = None.
Proof.
  intros c. destruct c as [[] [] [] [] [] [] [] []];
    try reflexivity; intros H; discriminate H.
Qed.

Lemma digits_value_stop :
  forall s acc, no_digit_head s -> digits_value 10 s acc = acc.
Proof.
  intros [ | c r ] acc H; simpl in *; [ reflexivity | ].
  rewrite (digit_in_radix_ten c H). reflexivity.
Qed.

Lemma digits_value_step :
  forall c k r acc,
    digit_in_radix 10 c = Some k ->
    digits_value 10 (String c r) acc = digits_value 10 r (acc * 10 + k)%N.
Proof.
  intros c k r acc H. simpl. rewrite H. reflexivity.
Qed.

Lemma digits_value_acc :
  forall d s p, no_digit_head s ->
    digits_value 10 (NilEmpty.string_of_uint d ++ s)%string (N.pos p)
    = N.pos (Pos.of_uint_acc d p).
Proof.
  induction d; intros s p Hs; cbn [NilEmpty.string_of_uint String.append].
  - apply digits_value_stop, Hs.
  - rewrite (digits_value_step "0" 0) by reflexivity.
    replace (N.pos p * 10 + 0)%N with (N.pos (10 * p)) by lia. apply IHd, Hs.
  - rewrite (digits_value_step "1" 1) by reflexivity.
    replace (N.pos p * 10 + 1)%N with (N.pos (1 + 10 * p)) by lia. apply IHd, Hs.
  - rewrite (digits_value_step "2" 2) by reflexivity.
    replace (N.pos p * 10 + 2)%N with (N.pos (2 + 10 * p)) by lia. apply IHd, Hs.
  - rewrite (digits_value_step "3" 3) by reflexivity.
    replace (N.pos p * 10 + 3)%N with (N.pos (3 + 10 * p)) by lia. apply IHd, Hs.
  - rewrite (digits_value_step "4" 4) by reflexivity.
    replace (N.pos p * 10 + 4)%N with (N.pos (4 + 10 * p)) by lia. apply IHd, Hs.
  - rewrite (digits_value_step "5" 5) by reflexivity.
    replace (N.pos p * 10 + 5)%N with (N.pos (5 + 10 * p)) by lia. apply IHd, Hs.
  - rewrite (digits_value_step "6" 6) by reflexivity.
    replace (N.pos p * 10 + 6)%N with (N.pos (6 + 10 * p)) by lia. apply IHd, Hs.
  - rewrite (digits_value_step "7" 7) by reflexivity.
    replace (N.pos p * 10 + 7)%N with (N.pos (7 + 10 * p)) by lia. apply IHd, Hs.
  - rewrite (digits_value_step "8" 8) by reflexivity.
    replace (N.pos p * 10 + 8)%N with (N.pos (8 + 10 * p)) by lia. apply IHd, Hs.
  - rewrite (digits_value_step "9" 9) by reflexivity.
    replace (N.pos p * 10 + 9)%N with (N.pos (9 + 10 * p)) by lia. apply IHd, Hs.
Qed.

Lemma digits_value_of_uint :
  forall d s, no_digit_head s ->
    digits_value 10 (NilEmpty.string_of_uint d ++ s)%string 0 = N.of_uint d.
Proof.
  unfold N.of_uint.
  induction d; intros s Hs;
    cbn [NilEmpty.string_of_uint String.append Pos.of_uint].
  - apply digits_value_stop, Hs.
  - rewrite (digits_value_step "0" 0) by reflexivity. apply IHd, Hs.
  - rewrite (digits_value_step "1" 1) by reflexivity. apply digits_value_acc, Hs.
  - rewrite (digits_value_step "2" 2) by reflexivity. apply digits_value_acc, Hs.
  - rewrite (digits_value_step "3" 3) by reflexivity. apply digits_value_acc, Hs.
  - rewrite (digits_value_step "4" 4) by reflexivity. apply digits_value_acc, Hs.
  - rewrite (digits_value_step "5" 5) by reflexivity. apply digits_value_acc, Hs.
  - rewrite (digits_value_step "6" 6) by reflexivity. apply digits_value_acc, Hs.
  - rewrite (digits_value_step "7" 7) by reflexivity. apply digits_value_acc, Hs.
  - rewrite (digits_value_step "8" 8) by reflexivity. apply digits_value_acc, Hs.
  - rewrite (digits_value_step "9" 9) by reflexivity. apply digits_value_acc, Hs.
Qed.

(** A text that starts with a digit, and not with [0x], is read in
    radix ten. *)
Lemma parseInt_decimal :
  forall c r,
    digit_of_char c <> None ->
    (c = "0"%char ->
     match r with
     | String x _ => digit_of_char x <> None
     | EmptyString => True
     end) ->
    parseInt (String c r)
    = Some (Z.of_N (digits_value 10 (String c r) 0)).
Proof.
  intros c r Hc H0.
  destruct c as [[] [] [] [] [] [] [] []];
    try (contradiction Hc; reflexivity);
    try (unfold parseInt; cbn -[digits_value Z.mul Z.of_N];
         destruct r; rewrite Z.mul_1_l; reflexivity).
  specialize (H0 eq_refl). destruct r as [ | x r ].
  - reflexivity.
  - destruct x as [[] [] [] [] [] [] [] []];
      try (contradiction H0; reflexivity);
      unfold parseInt; cbn -[digits_value Z.mul Z.of_N];
      rewrite Z.mul_1_l; reflexivity.
Qed.

Lemma parseInt_print_number :
  forall n suffix,
    0 < n -> no_digit_head suffix ->
    parseInt (print_number n suffix) = Some n.
Proof.
  intros n suffix Hn Hs. unfold print_number.
  replace (n <? 0) with false by (symmetry; apply Z.ltb_ge; lia).
  destruct (Z.abs_N n) as [ | p ] eqn:Hp; [ lia | ].
  cbn [N.to_uint].
  pose proof (DecimalPos.Unsigned.of_to p) as Hof.
  pose proof (DecimalPos.Unsigned.to_uint_nonzero p) as Hnz.
  pose proof (DecimalPos.Unsigned.to_uint_nonnil p) as Hnn.
  pose proof (digits_value_of_uint (Pos.to_uint p) suffix Hs) as Hv.
  unfold N.of_uint in Hv. rewrite Hof in Hv.
  assert (E : Z.of_N (N.pos p) = n) by lia.
  destruct (Pos.to_uint p) as [ | d | d | d | d | d | d | d | d | d | d ];
    try congruence;
    cbn [NilEmpty.string_of_uint String.append] in *;
    (rewrite parseInt_decimal;
     [ rewrite Hv, E; reflexivity | discriminate | ]);
    try (intros Habs; discriminate Habs).
  intros _. destruct d; try congruence; cbn; discriminate.
Qed.

(** The id of the path is read by [parseInt]: after the digits of a
    positive id, whatever follows that is not a digit is ignored, so the
    update or the deletion addressed to [<id><suffix>] is the one addressed
    to [<id>]. *)
Theorem id_parameter_is_read_by_parseInt :
  forall n suffix request_body fs,
    0 < n -> no_digit_head suffix ->
    parse_id (mkRequest (Some (print_number n suffix)) request_body) = Some n
    /\ updateTask (mkRequest (Some (print_number n suffix)) request_body) fs
       = updateTask (mkRequest (Some (print_number n "")) request_body) fs
    /\ deleteTask (mkRequest (Some (print_number n suffix)) request_body) fs
       = deleteTask (mkRequest (Some (print_number n "")) request_body) fs.
Proof.
  intros n suffix request_body fs Hn Hs.
  assert (E : forall s, no_digit_head s ->
                parse_id (mkRequest (Some (print_number n s)) request_body)
                = Some n)
    by (intros s H; apply parseInt_print_number; assumption).
  split; [ apply E, Hs | ].
  unfold updateTask, deleteTask. cbn [body].
  rewrite (E suffix Hs), (E "" I). split; reflexivity.
Qed.

(** * The ids of the stored tasks *)

Lemma ids_of_app :
  forall a b,
    ids_of (a ++ b) =
    match ids_of a, ids_of b with
    | Some x, Some y => Some (x ++ y)
    | _, _ => None
    end.
Proof.
  induction a as [ | t a IH ]; intros b; cbn [app ids_of].
  - destruct (ids_of b); reflexivity.
  - rewrite IH. destruct (prop t "id") as [ [ | | i | | | ] | ];
      try reflexivity.
    destruct (ids_of a), (ids_of b); reflexivity.
Qed.

Lemma ids_of_middle :
  forall before task after ids,
    ids_of (before ++ task :: after) = Some ids ->
    exists ib i ia,
      ids = ib ++ i :: ia
      /\ ids_of before = Some ib
      /\ prop task "id" = Some (JNum i)
      /\ ids_of after = Some ia.
Proof.
  intros before task after ids H. rewrite ids_of_app in H. cbn [ids_of] in H.
  destruct (ids_of before) as [ ib | ]; [ | discriminate H ].
  destruct (prop task "id") as [ [ | | i | | | ] | ]; try discriminate H.
  destruct (ids_of after) as [ ia | ]; [ | discriminate H ].
  inversion H; subst. exists ib, i, ia. auto.
Qed.

Lemma consistent_disk :
  forall fs b c, consistent fs -> consistent (mkFS (file fs) b c).
Proof.
  intros fs b c [o [ts [n [ids [R H]]]]]. exists o, ts, n, ids.
  split; [ | exact H ]. eapply readData_file; [ | exact R ]. reflexivity.
Qed.

Lemma consistent_written :
  forall o ts n ids w c,
    wf_value (JObj o) = true ->
    obj_get "tasks" o = Some (JArr ts) ->
    obj_get "nextId" o = Some (JNum n) ->
    ids_of ts = Some ids -> NoDup ids -> Forall (fun i => i < n) ids ->
    consistent (mkFS (Some (JSON_stringify (JObj o))) w c).
Proof.
  intros o ts n ids w c Hwf Htasks Hnext Hids Hnd Hlt.
  exists o, ts, n, ids. split; [ apply readData_written, Hwf | auto ].
Qed.

Lemma NoDup_snoc_above :
  forall ids n, NoDup ids -> Forall (fun i => i < n) ids -> NoDup (ids ++ [n]).
Proof.
  intros ids n Hnd Hlt. induction Hnd as [ | x l Hx Hnd IH ]; simpl.
  - constructor; [ intros [] | constructor ].
  - inversion Hlt; subst. constructor; [ | apply IH; assumption ].
    intros Hin. apply in_app_or in Hin. destruct Hin as [Hin | [E | []]].
    + contradiction.
    + lia.
Qed.

Lemma router_keeps_consistent :
  forall method req fs res fs',
    consistent fs -> wf_value (body req) = true ->
    router method req fs = Some (Return res, fs') ->
    consistent fs'.
Proof.
  intros method req fs res fs' Hc Hbody H.
  pose proof Hc as [o [ts [n [ids [R [Htasks [Hnext [Hids [Hnd Hlt]]]]]]]]].
  pose proof (readData_wf _ _ _ R) as Hwf.
  destruct method; cbn [router] in H.
  - destruct (getAllTasks_cases _ _ _ _ H) as [-> _]. exact Hc.
  - destruct (createTask_cases _ _ _ _ H)
      as [[_ [-> _]] | [[_ [-> | [_ ->]]] | [o0 [ts0 [n0 [title [b H1]]]]]]];
      [ exact Hc | exact Hc | apply consistent_disk, Hc | ].
    destruct H1 as [R0 [Htasks0 [Hnext0 [Hsafe [Ht [_ [_ [_ [_ ->]]]]]]]]].
    rewrite R in R0. inversion R0; subst o0.
    rewrite Htasks in Htasks0. inversion Htasks0; subst ts0.
    rewrite Hnext in Hnext0. inversion Hnext0; subst n0.
    apply (consistent_written _ (ts ++ [new_task n title (JBool b)]) (n + 1)
             (ids ++ [n])).
    + apply wf_created; auto. exact (wf_value_prop _ _ _ Hbody Ht).
    + rewrite !obj_get_put. reflexivity.
    + rewrite obj_get_put. reflexivity.
    + rewrite ids_of_app, Hids. reflexivity.
    + apply NoDup_snoc_above; assumption.
    + apply Forall_app. split.
      * eapply Forall_impl; [ | exact Hlt ]. intros i Hi. simpl in Hi. lia.
      * constructor; [ lia | constructor ].
  - destruct (updateTask_cases _ _ _ _ H)
      as [[_ ->] | [[_ [-> | [_ ->]]] | [o0 [before [f [after H1]]]]]];
      [ exact Hc | exact Hc | apply consistent_disk, Hc | ].
    destruct H1 as [R0 [[_ [Htasks0 _]] [_ [_ [_ ->]]]]].
    rewrite R in R0. inversion R0; subst o0.
    rewrite Htasks in Htasks0. inversion Htasks0; subst ts.
    destruct (ids_of_middle _ _ _ _ Hids) as [ib [i [ia [-> [Hb [Hi Ha]]]]]].
    apply (consistent_written _
             (before ++ JObj (patched (body req) f) :: after) n
             (ib ++ i :: ia)); auto.
    + apply wf_updated; auto.
    + rewrite obj_get_put. reflexivity.
    + rewrite obj_get_put. exact Hnext.
    + rewrite ids_of_app, Hb. cbn [ids_of prop] in *.
      rewrite patched_get. cbn [String.eqb Ascii.eqb Bool.eqb].
      rewrite Hi, Ha. reflexivity.
  - destruct (deleteTask_cases _ _ _ _ H)
      as [[_ ->] | [[_ [-> | [_ ->]]] | [o0 [before [task [after H1]]]]]];
      [ exact Hc | exact Hc | apply consistent_disk, Hc | ].
    destruct H1 as [R0 [[_ [Htasks0 _]] [_ [_ ->]]]].
    rewrite R in R0. inversion R0; subst o0.
    rewrite Htasks in Htasks0. inversion Htasks0; subst ts.
    destruct (ids_of_middle _ _ _ _ Hids) as [ib [i [ia [-> [Hb [Hi Ha]]]]]].
    apply (consistent_written _ (before ++ after) n (ib ++ ia)).
    + eapply wf_deleted; eassumption.
    + rewrite obj_get_put. reflexivity.
    + rewrite obj_get_put. exact Hnext.
    + rewrite ids_of_app, Hb, Ha. reflexivity.
    + eapply NoDup_remove_1. exact Hnd.
    + apply Forall_app in Hlt. destruct Hlt as [H1 H2].
      inversion H2; subst. apply Forall_app. auto.
Qed.

(** The ids of the stored tasks stay apart. From a document whose tasks
    carry pairwise distinct numeric ids below [nextId] (the empty document
    is one), every run of requests, served one after the other, with
    writes that may fail, ends on such a document again: no update
    changes an id, and no creation reuses one, deleted or not. *)
Theorem stored_ids_stay_distinct :
  forall events fs log fs',
    consistent fs ->
    forallb event_body_wf events = true ->
    run events fs = Some (log, fs') ->
    consistent fs'.
Proof.
  induction events as [ | [ method req | b ] events IH ];
    intros fs log fs' Hc Hwf H; cbn [run] in H.
  - inversion H; subst. exact Hc.
  - simpl in Hwf. apply andb_true_iff in Hwf. destruct Hwf as [Hbody Hwf].
    destruct (router method req fs) as [ [[res | e] fs1] | ] eqn:Hr;
      try discriminate H.
    destruct (run events fs1) as [ [log1 fs2] | ] eqn:Hrun;
      [ | discriminate H ].
    inversion H; subst.
    apply (IH fs1 log1 fs' (router_keeps_consistent _ _ _ _ _ Hc Hbody Hr)
             Hwf Hrun).
  - simpl in Hwf.
    apply (IH _ log fs' (consistent_disk fs b (writeCalls fs) Hc) Hwf H).
Qed.

Lemma digit_is_plain :
  forall c, digit_of_char c <> None ->
    is_str_ws c = false /\ Ascii.eqb c "-" = false /\ Ascii.eqb c "+" = false.
Proof.
  intros c H. destruct c as [[] [] [] [] [] [] [] []];
    try (contradiction H; reflexivity); repeat split; reflexivity.
Qed.

Lemma parseInt_minus :
  forall c r,
    digit_of_char c <> None ->
    parseInt (String "-" (String c r))
    = match parseInt (String c r) with
      | Some v => Some (- v)
      | None => None
      end.
Proof.
  intros c r Hc. destruct (digit_is_plain c Hc) as [H1 [H2 H3]].
  unfold parseInt.
  replace (trim_start (String "-" (String c r)))
    with (String "-" (String c r)) by reflexivity.
  replace (trim_start (String c r)) with (String c r)
    by (cbn [trim_start]; rewrite H1; reflexivity).
  cbv beta iota. replace (Ascii.eqb "-" "-") with true by reflexivity.
  rewrite H2, H3. cbv beta iota.
  match goal with
  | |- context [let (radix, s3) := ?X in _] => destruct X as [radix s3]
  end.
  destruct s3 as [ | y s3 ]; [ reflexivity | ].
  destruct (digit_in_radix radix y); [ f_equal; lia | reflexivity ].
Qed.

Lemma string_of_uint_digit :
  forall d k, d <> Decimal.Nil ->
    exists c r, (NilEmpty.string_of_uint d ++ k)%string = String c r
                /\ digit_of_char c <> None.
Proof.
  intros d k Hd. destruct d; try congruence;
    simpl; eexists; eexists; (split; [ reflexivity | discriminate ]).
Qed.

Lemma parseInt_print_number_exact :
  forall n, parseInt (print_number n "") = Some n.
Proof.
  intros n. destruct (Z.lt_trichotomy n 0) as [Hn | [-> | Hn]].
  - pose proof (parseInt_print_number (- n) "" ltac:(lia) I) as H.
    unfold print_number in *.
    replace (n <? 0) with true by (symmetry; apply Z.ltb_lt; lia).
    replace (- n <? 0) with false in H by (symmetry; apply Z.ltb_ge; lia).
    replace (Z.abs_N (- n)) with (Z.abs_N n) in H by lia.
    destruct (string_of_uint_digit (N.to_uint (Z.abs_N n)) ""
                (to_uint_not_nil _)) as [c [r [E Hc]]].
    rewrite E in *. rewrite (parseInt_minus c r Hc), H.
    f_equal. lia.
  - reflexivity.
  - apply parseInt_print_number; [ exact Hn | exact I ].
Qed.

Lemma no_match_ids :
  forall n ts ids,
    ids_of ts = Some ids -> ~ In n ids -> no_match (Some n) ts.
Proof.
  intros n ts. induction ts as [ | t ts IH ]; intros ids H Hn.
  - constructor.
  - cbn [ids_of] in H.
    destruct (prop t "id") as [ [ | | i | | | ] | ] eqn:Hi; try discriminate H.
    destruct (ids_of ts) as [ l | ]; [ | discriminate H ].
    inversion H; subst. constructor.
    + split.
      * intros ->. discriminate Hi.
      * unfold matches. rewrite Hi. cbn [strict_equals_number].
        apply Z.eqb_neq. intros ->. apply Hn. left. reflexivity.
    + apply (IH l eq_refl). intros Hin. apply Hn. right. exact Hin.
Qed.

(** Creating a task and deleting it again gives the list of tasks back
    as it was, but not the counter: the id that was used stays used. *)
Theorem create_then_delete_restores_the_tasks :
  forall req fs res fs1 request_body,
    consistent fs ->
    wf_value (body req) = true ->
    createTask req fs = Some (Return res, fs1) ->
    status res = 201 ->
    exists n o ts fs2 o2,
      prop (payload res) "id" = Some (JNum n)
      /\ readData fs = Some (Return (JObj o), fs)
      /\ obj_get "tasks" o = Some (JArr ts)
      /\ obj_get "nextId" o = Some (JNum n)
      /\ deleteTask (mkRequest (Some (print_number n "")) request_body) fs1
         = Some (Return (mkResponse 200 deleted_payload), fs2)
      /\ readData fs2 = Some (Return (JObj o2), fs2)
      /\ obj_get "tasks" o2 = Some (JArr ts)
      /\ obj_get "nextId" o2 = Some (JNum (n + 1)).
Proof.
  intros req fs res fs1 request_body Hc Hbody H Hstatus.
  destruct Hc as [o [ts [n [ids [R [Htasks [Hnext [Hids [Hnd Hlt]]]]]]]]].
  pose proof (readData_wf _ _ _ R) as Hwf.
  destruct (createTask_cases req fs _ fs1 H)
    as [[E _] | [[E _] | [o0 [ts0 [n0 [title [b H1]]]]]]];
    try (inversion E; subst; discriminate Hstatus).
  destruct H1 as [R0 [Htasks0 [Hnext0 [Hsafe [Ht [_ [_ [Hw [E ->]]]]]]]]].
  rewrite R in R0. inversion R0; subst o0.
  rewrite Htasks in Htasks0. inversion Htasks0; subst ts0.
  rewrite Hnext in Hnext0. inversion Hnext0; subst n0.
  inversion E; subst res. clear E Hstatus H.
  pose proof (wf_created o ts n title b Hwf Htasks Hnext Hsafe
                (wf_value_prop _ _ _ Hbody Ht)) as Hwf1.
  pose proof (readData_written _ (writable fs) (S (writeCalls fs)) Hwf1) as R1.
  assert (Hno : no_match (Some n) ts).
  { apply (no_match_ids n ts ids Hids). intros Hin.
    rewrite Forall_forall in Hlt. specialize (Hlt n Hin). lia. }
  exists n, o, ts. eexists. eexists.
  split; [ reflexivity | ]. split; [ exact R | ]. split; [ exact Htasks | ].
  split; [ exact Hnext | ].
  rewrite (deleteTask_found _ _ _ ts (new_task n title (JBool b)) [] R1).
  - cbn [writable]. rewrite Hw. split; [ reflexivity | ]. split.
    + apply readData_written. rewrite List.app_nil_r.
      apply wf_value_put; [ reflexivity | exact Hwf1 | ].
      exact (wf_value_get _ _ _ Hwf Htasks).
    + rewrite !obj_get_put. cbn [String.eqb Ascii.eqb Bool.eqb].
      rewrite List.app_nil_r. split; reflexivity.
  - rewrite !obj_get_put. reflexivity.
  - cbn [parse_id params_id]. rewrite parseInt_print_number_exact. exact Hno.
  - cbn [parse_id params_id]. rewrite parseInt_print_number_exact.
    unfold matches, new_task. cbn [prop obj_get String.eqb Ascii.eqb Bool.eqb].
    cbn [strict_equals_number]. apply Z.eqb_refl.
Qed.

(** * The properties of the routes at concrete inputs *)

Lemma listing_only_reads_witness :
  exists res,
    getAllTasks (mkRequest None JNull) one_task_store
    = Some (Return res, one_task_store)
    /\ status res = 200.
Proof.
  destruct
    (listing_only_reads (mkRequest None JNull) one_task_store
       (Return (mkResponse 200
                  (JArr [new_task 1 (JStr "Buy milk") (JBool false)])))
       one_task_store)
    as [_ [res [E _]]].
  - vm_compute. reflexivity.
  - exists res. inversion E; subst res. split; vm_compute; reflexivity.
Defined.

Lemma listing_without_a_file_is_empty_witness :
  getAllTasks (mkRequest None JNull) empty_store
  = Some (Return (mkResponse 200 (JArr [])), empty_store)
  /\ getAllTasks (mkRequest None JNull) (mkFS (Some "{oops") false 3)
     = Some (Return (mkResponse 200 (JArr [])), mkFS (Some "{oops") false 3).
Proof.
  split.
  - apply (listing_without_a_file_is_empty (mkRequest None JNull) empty_store).
    left. reflexivity.
  - apply (listing_without_a_file_is_empty (mkRequest None JNull)
             (mkFS (Some "{oops") false 3)).
    right. exists "{oops". split; reflexivity.
Defined.

Lemma created_task_is_listed_last_witness :
  exists fs',
    getAllTasks (mkRequest None JNull) fs'
    = Some (Return (mkResponse 200
                      (JArr [new_task 1 (JStr "Buy milk") (JBool false);
                             new_task 2 (JStr "Call Ann") (JBool true)])),
            fs').
Proof.
  eexists.
  apply (created_task_is_listed_last
           (mkRequest None
              (JObj [("title", JStr "Call Ann"); ("completed", JBool true)]))
           (mkRequest None JNull)
           one_task_store
           [("tasks", JArr [new_task 1 (JStr "Buy milk") (JBool false)]);
            ("nextId", JNum 2)]
           [new_task 1 (JStr "Buy milk") (JBool false)]
           (mkResponse 201 (new_task 2 (JStr "Call Ann") (JBool true)))).
  - vm_compute. reflexivity.
  - reflexivity.
  - reflexivity.
  - vm_compute. reflexivity.
  - reflexivity.
Defined.

Lemma first_task_gets_id_one_witness :
  exists fs',
    createTask
      (mkRequest None (JObj [("title", JNum 7); ("completed", JBool false)]))
      (mkFS (Some "not json") true 0)
    = Some (Return (mkResponse 201 (new_task 1 (JNum 7) (JBool false))), fs')
    /\ readData fs'
       = Some (Return
                 (JObj [("tasks", JArr [new_task 1 (JNum 7) (JBool false)]);
                        ("nextId", JNum 2)]), fs').
Proof.
  apply (first_task_gets_id_one
           (mkRequest None (JObj [("title", JNum 7); ("completed", JBool false)]))
           (mkFS (Some "not json") true 0) (JNum 7) false).
  - right. exists "not json". split; reflexivity.
  - reflexivity.
  - reflexivity.
  - reflexivity.
  - reflexivity.
  - reflexivity.
Defined.

Lemma create_answers_by_its_guard_witness :
  exists res fs',
    createTask
      (mkRequest None
         (JObj [("title", JStr "Valid Title"); ("completed", JStr "false")]))
      one_task_store
    = Some (Return res, fs')
    /\ status res = 400.
Proof.
  destruct
    (create_answers_by_its_guard
       (mkRequest None
          (JObj [("title", JStr "Valid Title"); ("completed", JStr "false")]))
       one_task_store 2)
    as [res [fs' [E [_ [H _]]]]].
  - exists [("tasks", JArr [new_task 1 (JStr "Buy milk") (JBool false)]);
            ("nextId", JNum 2)],
      [new_task 1 (JStr "Buy milk") (JBool false)].
    split; [ vm_compute; reflexivity | split; reflexivity ].
  - reflexivity.
  - exists res, fs'. split; [ exact E | ].
    apply H; [ discriminate | reflexivity ].
Defined.

Lemma every_request_is_answered_in_kind_witness :
  exists res,
    router PUT (mkRequest (Some "9") (JObj [("completed", JBool true)]))
      one_task_store
    = Some (Return res, one_task_store)
    /\ In (status res) [200; 404; 500]
    /\ (400 <= status res ->
        exists message, payload res = error_payload message).
Proof.
  assert (H : router PUT
                (mkRequest (Some "9") (JObj [("completed", JBool true)]))
                one_task_store
              = Some (Return (mkResponse 404 (error_payload tache_non_trouvee)),
                      one_task_store))
    by (vm_compute; reflexivity).
  destruct (every_request_is_answered_in_kind _ _ _ _ _ H) as [res [E Hres]].
  exists res. inversion E; subst res. split; [ exact H | exact Hres ].
Defined.

Lemma unsuccessful_requests_leave_the_file_witness :
  exists fs',
    router DELETE (mkRequest (Some "1") JNull)
      (mkFS (file one_task_store) false 0)
    = Some (Return (mkResponse 500 (error_payload erreur_suppression)), fs')
    /\ file fs' = file one_task_store.
Proof.
  exists (mkFS (file one_task_store) false 1).
  assert (H : router DELETE (mkRequest (Some "1") JNull)
                (mkFS (file one_task_store) false 0)
              = Some (Return (mkResponse 500 (error_payload erreur_suppression)),
                      mkFS (file one_task_store) false 1))
    by (vm_compute; reflexivity).
  split; [ exact H | ].
  apply (proj2 (unsuccessful_requests_leave_the_file _ _ _ _ _ H)).
  right. left. reflexivity.
Defined.

Lemma update_is_idempotent_witness :
  exists fs1 fs2,
    updateTask (mkRequest (Some "1") (JObj [("completed", JBool true)]))
      one_task_store
    = Some (Return (mkResponse 200 (new_task 1 (JStr "Buy milk") (JBool true))),
            fs1)
    /\ updateTask (mkRequest (Some "1") (JObj [("completed", JBool true)])) fs1
       = Some (Return
                 (mkResponse 200 (new_task 1 (JStr "Buy milk") (JBool true))),
               fs2)
    /\ file fs2 = file fs1.
Proof.
  eexists.
  assert (H : updateTask
                (mkRequest (Some "1") (JObj [("completed", JBool true)]))
                one_task_store
              = Some (Return
                        (mkResponse 200
                           (new_task 1 (JStr "Buy milk") (JBool true))),
                      mkFS
                        (Some (JSON_stringify
                                 (JObj [("tasks",
                                         JArr [new_task 1 (JStr "Buy milk")
                                                 (JBool true)]);
                                        ("nextId", JNum 2)])))
                        true 1))
    by (vm_compute; reflexivity).
  destruct
    (update_is_idempotent
       (mkRequest (Some "1") (JObj [("completed", JBool true)]))
       one_task_store _ _ eq_refl H eq_refl)
    as [fs2 [H2 Hfile]].
  exists fs2. split; [ exact H | ]. split; [ exact H2 | exact Hfile ].
Defined.


Lemma id_parameter_is_read_by_parseInt_witness :
  parse_id (mkRequest (Some "12abc") JNull) = Some 12
  /\ updateTask (mkRequest (Some "12abc") JNull) one_task_store
     = updateTask (mkRequest (Some "12") JNull) one_task_store
  /\ deleteTask (mkRequest (Some "12abc") JNull) one_task_store
     = deleteTask (mkRequest (Some "12") JNull) one_task_store.
Proof.
  apply (id_parameter_is_read_by_parseInt 12 "abc" JNull one_task_store).
  - reflexivity.
  - reflexivity.
Defined.

Lemma stored_ids_stay_distinct_witness :
  exists log fs',
    run sample_events empty_store = Some (log, fs') /\ consistent fs'.
Proof.
  destruct (run sample_events empty_store) as [ [log fs'] | ] eqn:E;
    [ | vm_compute in E; discriminate E ].
  exists log, fs'. split; [ reflexivity | ].
  apply (stored_ids_stay_distinct sample_events empty_store log fs').
  - exists [("tasks", JArr []); ("nextId", JNum 1)], [], 1, [].
    repeat split; try reflexivity; constructor.
  - reflexivity.
  - exact E.
Defined.

Lemma create_then_delete_restores_the_tasks_witness :
  exists n o ts fs2 o2,
    readData one_task_store = Some (Return (JObj o), one_task_store)
    /\ obj_get "tasks" o = Some (JArr ts)
    /\ obj_get "nextId" o = Some (JNum n)
    /\ readData fs2 = Some (Return (JObj o2), fs2)
    /\ obj_get "tasks" o2 = Some (JArr ts)
    /\ obj_get "nextId" o2 = Some (JNum (n + 1)).
Proof.
  destruct
    (create_then_delete_restores_the_tasks
       (mkRequest None
          (JObj [("title", JStr "Call Ann"); ("completed", JBool true)]))
       one_task_store
       (mkResponse 201 (new_task 2 (JStr "Call Ann") (JBool true)))
       (mkFS
          (Some (JSON_stringify
                   (JObj [("tasks",
                           JArr [new_task 1 (JStr "Buy milk") (JBool false);
                                 new_task 2 (JStr "Call Ann") (JBool true)]);
                          ("nextId", JNum 3)])))
          true 1)
       JNull)
    as [n [o [ts [fs2 [o2 [_ [H2 [H3 [H4 [_ [H6 [H7 H8]]]]]]]]]]]].
  - exists [("tasks", JArr [new_task 1 (JStr "Buy milk") (JBool false)]);
            ("nextId", JNum 2)],
      [new_task 1 (JStr "Buy milk") (JBool false)], 2, [1].
    split; [ vm_compute; reflexivity | ].
    repeat split; try reflexivity.
    + constructor; [ intros [] | constructor ].
    + constructor; [ reflexivity | constructor ].
  - reflexivity.
  - vm_compute. reflexivity.
  - reflexivity.
  - exists n, o, ts, fs2, o2. repeat split; assumption.
Defined.

(** * A value printed without a gap parses back to itself *)

Lemma closes_no_digit : forall k, closes k -> no_digit_head k.
Proof.
  intros [ | c r ] H; simpl in *; [ exact I | ].
  destruct H as [-> | [-> | ->]]; reflexivity.
Qed.

Lemma closes_no_fraction :
  forall k, closes k -> starts_fraction_or_exponent k = false.
Proof.
  intros [ | c r ] H; simpl in *; [ reflexivity | ].
  destruct H as [-> | [-> | ->]]; reflexivity.
Qed.

Lemma closes_skip_ws : forall k, closes k -> skip_ws k = k.
Proof.
  intros [ | c r ] H; simpl in *; [ reflexivity | ].
  destruct H as [-> | [-> | ->]]; reflexivity.
Qed.

Lemma parse_print_number_before :
  forall n k, safe_integer n = true ->
    no_digit_head k -> starts_fraction_or_exponent k = false ->
    parse_number (print_number n k) = POk (JNum n) k.
Proof.
  intros n k Hn Hd Hf. unfold safe_integer in Hn.
  apply andb_true_iff in Hn. destruct Hn as [Hlo Hhi].
  apply Z.leb_le in Hlo. apply Z.leb_le in Hhi.
  unfold print_number, parse_number.
  destruct (string_of_uint_head (N.to_uint (Z.abs_N n)) k (to_uint_not_nil _))
    as [c [r [E [Hc _]]]].
  destruct (n <? 0) eqn:Hneg.
  - apply Z.ltb_lt in Hneg.
    replace (Ascii.eqb "-" "-") with true by reflexivity.
    rewrite (span_digits_string_of_uint _ _ Hd).
    rewrite to_uint_unorm. unfold uint_eqb.
    destruct (Decimal.uint_eq_dec _ _) as [_ | Hne]; [ | congruence ].
    cbn [negb]. rewrite Hf.
    rewrite DecimalN.Unsigned.of_to. rewrite N2Z.inj_abs_N.
    replace (Z.abs n =? 0) with false by (symmetry; apply Z.eqb_neq; lia).
    replace (MAX_SAFE_INTEGER <? Z.abs n) with false
      by (symmetry; apply Z.ltb_ge; lia).
    cbn [andb]. do 2 f_equal. lia.
  - apply Z.ltb_ge in Hneg.
    rewrite E. rewrite Hc. rewrite <- E.
    rewrite (span_digits_string_of_uint _ _ Hd).
    rewrite to_uint_unorm. unfold uint_eqb.
    destruct (Decimal.uint_eq_dec _ _) as [_ | Hne]; [ | congruence ].
    cbn [negb]. rewrite Hf.
    rewrite DecimalN.Unsigned.of_to. rewrite N2Z.inj_abs_N.
    replace (MAX_SAFE_INTEGER <? Z.abs n) with false
      by (symmetry; apply Z.ltb_ge; lia).
    cbn [andb]. do 2 f_equal. lia.
Qed.

Lemma print_compact_head :
  forall v k, exists c r,
    print_compact v k = String c r /\ head_ok c = true.
Proof.
  intros [ | [] | n | s | [ | x l ] | [ | kv o ] ] k;
    try (eexists; eexists; split; reflexivity).
  destruct (print_number_head n k) as [c [r [E H]]].
  exists c, r. split; [ exact E | apply number_head_ok, H ].
Qed.

Lemma skip_ws_print_compact :
  forall v k, skip_ws (print_compact v k) = print_compact v k.
Proof.
  intros v k. destruct (print_compact_head v k) as [c [r [E H]]].
  rewrite E. simpl. unfold head_ok in H.
  destruct (is_json_ws c); [ discriminate H | reflexivity ].
Qed.

Lemma closes_print_rest :
  forall (A : Type) (pr : A -> string -> string) l c k,
    c = "]"%char \/ c = "}"%char ->
    closes (print_rest pr l (String c k)).
Proof.
  intros A pr [ | x l ] c k H; simpl; auto.
Qed.

Lemma skip_ws_comma : forall r, skip_ws (String "," r) = String "," r.
Proof. reflexivity. Qed.

Ltac solve_closes :=
  first [ apply closes_print_rest; auto | simpl; auto ].

Lemma parse_compact_elements :
  forall k l, Forall parses_back_compact l -> forallb wf_value l = true ->
    forall x f, parses_back_compact x -> wf_value x = true ->
      (elements_size (x :: l) < f)%nat ->
      parse_elements f
        (print_compact x (print_rest print_compact l (String "]" k)))
      = POk (x :: l) k.
Proof.
  intros k l IH. induction IH as [ | y l Hy _ IHl ];
    intros Hwf x f Hx Hwx Hf; (destruct f as [ | f ]; [ lia | ]);
    unfold elements_size in Hf; simpl in Hf; cbn [parse_elements].
  - rewrite (Hx Hwx); [ | solve_closes | lia ].
    reflexivity.
  - simpl in Hwf. apply andb_true_iff in Hwf. destruct Hwf as [Hwy Hwl].
    rewrite (Hx Hwx); [ | solve_closes | lia ].
    cbn [print_rest skip_ws is_json_ws N_of_ascii].
    simpl. rewrite skip_ws_print_compact.
    rewrite (IHl Hwl y f Hy Hwy); [ reflexivity | ].
    unfold elements_size. simpl. lia.
Qed.

Lemma parse_compact_members :
  forall k o,
    Forall (fun kv => parses_back_compact (snd kv)) o ->
    forallb (fun kv => wf_value (snd kv)) o = true ->
    forall key x f, parses_back_compact x -> wf_value x = true ->
      (members_size ((key, x) :: o) < f)%nat ->
      parse_members f
        (quote key (String ":"
           (print_compact x
              (print_rest
                 (fun kv k' =>
                    quote (fst kv) (String ":" (print_compact (snd kv) k')))
                 o (String "}" k)))))
      = POk ((key, x) :: o) k.
Proof.
  intros k o IH. induction IH as [ | [key' y] o Hy _ IHo ];
    intros Hwf key x f Hx Hwx Hf; (destruct f as [ | f ]; [ lia | ]);
    unfold members_size in Hf; simpl in Hf; cbn [parse_members].
  - unfold quote. replace (Ascii.eqb dquote dquote) with true by reflexivity.
    rewrite parse_quote_chars. simpl. rewrite skip_ws_print_compact.
    rewrite (Hx Hwx); [ | solve_closes | lia ].
    reflexivity.
  - simpl in Hwf. apply andb_true_iff in Hwf. destruct Hwf as [Hwy Hwo].
    simpl in Hy.
    unfold quote at 1. replace (Ascii.eqb dquote dquote) with true by reflexivity.
    rewrite parse_quote_chars. simpl. rewrite skip_ws_print_compact.
    rewrite (Hx Hwx); [ | solve_closes | lia ].
    cbn [print_rest fst snd]. rewrite skip_ws_comma. cbv beta iota.
    change (Ascii.eqb "," ",") with true. cbv beta iota.
    rewrite skip_ws_quote.
    rewrite (IHo Hwo key' y f Hy Hwy); [ reflexivity | ].
    unfold members_size. simpl. lia.
Qed.

Lemma parse_print_compact : forall v, parses_back_compact v.
Proof.
  induction v as [ | b | n | s | l IH | o IH ] using Value_ind;
    intros Hwf k f Hk Hf; (destruct f as [ | f ]; [ lia | ]).
  - reflexivity.
  - destruct b; reflexivity.
  - simpl in Hwf. destruct (print_number_head n k) as [c [r [E Hc]]].
    cbn [print_compact]. rewrite E, (parse_value_number f c r Hc), <- E.
    apply parse_print_number_before;
      [ exact Hwf | apply closes_no_digit, Hk | apply closes_no_fraction, Hk ].
  - cbn [print_compact]. unfold quote. simpl. rewrite parse_quote_chars.
    reflexivity.
  - destruct l as [ | x l ]; [ reflexivity | ].
    inversion IH as [ | ? ? Hx Hl ]; subst.
    simpl in Hwf. apply andb_true_iff in Hwf. destruct Hwf as [Hwx Hwl].
    cbn [print_compact print_list size] in *.
    simpl. rewrite skip_ws_print_compact.
    destruct (print_compact_head x
                (print_rest print_compact l (String "]" k)))
      as [c [r [E Hc]]].
    rewrite E. unfold head_ok in Hc.
    destruct (Ascii.eqb c "]");
      [ rewrite andb_false_r in Hc; discriminate Hc | ].
    rewrite <- E.
    rewrite (parse_compact_elements k l Hl Hwl x f Hx Hwx);
      [ reflexivity | unfold elements_size; simpl in *; lia ].
  - destruct o as [ | [key x] o ]; [ reflexivity | ].
    inversion IH as [ | ? ? Hx Ho ]; subst.
    pose proof (wf_value_obj_entries _ Hwf) as Hnorm.
    simpl in Hwf. apply andb_true_iff in Hwf. destruct Hwf as [Hwf _].
    apply andb_true_iff in Hwf. destruct Hwf as [Hwx Hwo].
    cbn [print_compact print_list size fst snd] in *.
    cbn [parse_value]. change (Ascii.eqb "{" "{") with true. cbv beta iota.
    rewrite skip_ws_quote. unfold quote at 1. cbv beta iota.
    replace (Ascii.eqb dquote "}") with false by reflexivity.
    cbv beta iota.
    rewrite (parse_compact_members k o Ho Hwo key x f Hx Hwx);
      [ simpl; rewrite Hnorm; reflexivity
      | unfold members_size; simpl in *; lia ].
Qed.

Section CompactLength.
Context {A : Type} (pr : A -> string -> string) (sz : A -> nat).

Lemma length_print_rest :
  forall l k,
    Forall (fun x => forall k',
              (sz x + String.length k' <= String.length (pr x k'))%nat) l ->
    (list_sum (map (fun x => S (sz x)) l) + String.length k
     <= String.length (print_rest pr l k))%nat.
Proof.
  intros l k H. induction H as [ | x l Hx _ IH ]; simpl.
  - lia.
  - pose proof (Hx (print_rest pr l k)). lia.
Qed.

Lemma length_print_list :
  forall a b l k,
    Forall (fun x => forall k',
              (sz x + String.length k' <= String.length (pr x k'))%nat) l ->
    (S (list_sum (map (fun x => S (sz x)) l)) + String.length k
     <= String.length (print_list pr a b l k))%nat.
Proof.
  intros a b l k H. destruct H as [ | x l Hx Hl ]; simpl.
  - lia.
  - pose proof (Hx (print_rest pr l (String b k))) as H1.
    pose proof (length_print_rest l (String b k) Hl) as H2.
    simpl in H2. lia.
Qed.
End CompactLength.

Lemma length_print_compact :
  forall v k,
    (size v + String.length k <= String.length (print_compact v k))%nat.
Proof.
  induction v as [ | b | n | s | l IH | o IH ] using Value_ind; intros k.
  - simpl. lia.
  - destruct b; simpl; lia.
  - simpl. unfold print_number. destruct (n <? 0); simpl;
      rewrite length_append; lia.
  - simpl. apply length_quote.
  - cbn [print_compact size].
    apply (length_print_list print_compact size).
    eapply Forall_impl; [ | exact IH ]. intros x Hx k'. apply Hx.
  - cbn [print_compact size].
    apply (length_print_list
             (fun kv k' =>
                quote (fst kv) (String ":" (print_compact (snd kv) k')))
             (fun kv => size (snd kv))).
    eapply Forall_impl; [ | exact IH ]. intros [key x] Hx k'. simpl in *.
    pose proof (length_quote key (String ":" (print_compact x k'))) as H1.
    pose proof (Hx k') as H2. simpl in H1. lia.
Qed.

Lemma JSON_parse_stringify_compact :
  forall v, wf_value v = true ->
    JSON_parse (JSON_stringify_compact v) = Parsed v.
Proof.
  intros v Hwf. unfold JSON_parse, JSON_stringify_compact.
  rewrite skip_ws_print_compact.
  rewrite (parse_print_compact v Hwf); [ reflexivity | exact I | ].
  pose proof (length_print_compact v "") as H. simpl in H. lia.
Qed.

(** * The client and the server *)

(** ** Texts *)

Lemma strip_prefix_append :
  forall a b, strip_prefix a (a ++ b)%string = Some b.
Proof.
  induction a as [ | c a IH ]; intros b; simpl.
  - reflexivity.
  - rewrite Ascii.eqb_refl. apply IH.
Qed.

Lemma length_trim_start :
  forall s, (String.length (trim_start s) <= String.length s)%nat.
Proof.
  induction s as [ | c s IH ]; simpl; [ lia | ].
  destruct (is_str_ws c); simpl; lia.
Qed.

Lemma length_trim_end :
  forall s, (String.length (trim_end s) <= String.length s)%nat.
Proof.
  induction s as [ | c s IH ]; simpl; [ lia | ].
  destruct (trim_end s) as [ | c' r ]; [ destruct (is_str_ws c) | ];
    simpl in *; lia.
Qed.

Lemma length_trim :
  forall s, (String.length (trim s) <= String.length s)%nat.
Proof.
  intros s. unfold trim.
  pose proof (length_trim_end (trim_start s)).
  pose proof (length_trim_start s). lia.
Qed.

Lemma trim_end_trim_end : forall s, trim_end (trim_end s) = trim_end s.
Proof.
  induction s as [ | c s IH ]; simpl; [ reflexivity | ].
  destruct (trim_end s) as [ | c' r ] eqn:E.
  - destruct (is_str_ws c) eqn:Hc; simpl; [ reflexivity | ].
    rewrite Hc. reflexivity.
  - cbn [trim_end] in *. rewrite IH. reflexivity.
Qed.

(** A text that does not start with white space still does not once
    its end is trimmed. *)
Lemma trim_start_trim_end :
  forall s, trim_start s = s -> trim_start (trim_end s) = trim_end s.
Proof.
  intros [ | c s ] H; [ reflexivity | ].
  simpl in H. destruct (is_str_ws c) eqn:Hc.
  - pose proof (length_trim_start s) as Hl. rewrite H in Hl. simpl in Hl. lia.
  - cbn [trim_end]. destruct (trim_end s); rewrite ?Hc; simpl; rewrite Hc;
      reflexivity.
Qed.

Lemma trim_start_trim_start : forall s, trim_start (trim_start s) = trim_start s.
Proof.
  induction s as [ | c s IH ]; simpl; [ reflexivity | ].
  destruct (is_str_ws c) eqn:Hc; [ exact IH | ].
  simpl. rewrite Hc. reflexivity.
Qed.

Lemma trim_trim : forall s, trim (trim s) = trim s.
Proof.
  intros s. unfold trim.
  rewrite (trim_start_trim_end _ (trim_start_trim_start s)).
  apply trim_end_trim_end.
Qed.

Lemma length_zero_empty :
  forall s, (String.length s =? 0)%nat = true <-> s = EmptyString.
Proof.
  intros [ | c s ]; simpl; split; intros H; try reflexivity; discriminate H.
Qed.

(** ** The response that [res.json] sends *)

Lemma print_compact_not_empty :
  forall v, (1 <= App.byteLength (JSON_stringify_compact v))%nat.
Proof.
  intros v. unfold JSON_stringify_compact.
  destruct (print_compact_head v "") as [c [r [E _]]]. rewrite E. simpl.
  destruct (N_of_ascii c <? 128)%N; lia.
Qed.

Lemma content_length_not_zero :
  forall n, (1 <= n)%nat ->
    String.eqb (NilEmpty.string_of_uint (N.to_uint (N.of_nat n))) "0" = false.
Proof.
  intros n Hn. apply String.eqb_neq. intros E.
  pose proof (NilEmpty.usu (N.to_uint (N.of_nat n))) as H.
  rewrite E in H. simpl in H. inversion H as [H1].
  pose proof (DecimalN.Unsigned.of_to (N.of_nat n)) as H2.
  rewrite <- H1 in H2. simpl in H2. lia.
Qed.

Lemma wf_error_payload :
  forall message, wf_value (error_payload message) = true.
Proof.
  intros message. unfold error_payload. apply wf_value_obj. split.
  - intros kv [<- | []]. reflexivity.
  - apply entries_ordered. reflexivity.
Qed.

Lemma respond_wf :
  forall res, wf_value (payload res) = true ->
    App.respond res
    = Some (Fetch.Response.mk (status res) (App.statusText (status res))
              [("content-type", "application/json; charset=utf-8");
               ("content-length",
                NilEmpty.string_of_uint
                  (N.to_uint
                     (N.of_nat
                        (App.byteLength
                           (JSON_stringify_compact (payload res))))))]
              (inl (payload res))).
Proof.
  intros res H. unfold App.respond.
  rewrite (JSON_parse_stringify_compact _ H). reflexivity.
Qed.

Lemma headers_get_content_length :
  forall st reason content_type length data,
    Fetch.Response.headers_get "content-length"
      (Fetch.Response.mk st reason
         [("content-type", content_type); ("content-length", length)] data)
    = Some length.
Proof. reflexivity. Qed.

(** What the [try] and the [catch] of [makeRequest] make of a response
    of the server. *)
Lemma settle_success :
  forall res,
    wf_value (payload res) = true ->
    status res = 200 \/ status res = 201 ->
    exists response,
      App.respond res = Some response
      /\ TasksService.try_block (Fetch.Resolves response)
         = Some (inl (payload res)).
Proof.
  intros [st p] Hwf Hst. cbn [status payload] in *.
  eexists. split; [ apply respond_wf; exact Hwf | ].
  cbn [status payload]. unfold TasksService.try_block, Fetch.Response.ok.
  rewrite headers_get_content_length.
  cbn [Fetch.Response.status Fetch.Response.json].
  rewrite (content_length_not_zero _ (print_compact_not_empty p)).
  destruct Hst as [-> | ->]; reflexivity.
Qed.

Lemma settle_error :
  forall st message,
    st = 400 \/ st = 404 \/ st = 500 ->
    includes message "fetch" = false ->
    exists response,
      App.respond (mkResponse st (error_payload message)) = Some response
      /\ TasksService.try_block (Fetch.Resolves response)
         = Some (inr (Fetch.ThrowApiError
                        (ApiError.mk message st
                           (Some (JStr (TasksService.http_code st))) None)))
      /\ TasksService.catch_block
           (Fetch.ThrowApiError
              (ApiError.mk message st
                 (Some (JStr (TasksService.http_code st))) None))
         = ApiError.mk message st
             (Some (JStr (TasksService.http_code st))) None.
Proof.
  intros st message Hst Hm.
  eexists. split; [ apply respond_wf, wf_error_payload | ].
  split.
  - cbn [status payload]. unfold TasksService.try_block, Fetch.Response.ok.
    cbn [Fetch.Response.status].
    destruct Hst as [-> | [-> | ->]]; reflexivity.
  - unfold TasksService.catch_block.
    cbn [Fetch.instanceof_Error Fetch.name_of Fetch.message_of
         ApiError.message andb].
    rewrite Hm. reflexivity.
Qed.

(** ** What the routes answer, as the client needs it *)

Lemma wf_error_response :
  forall st message,
    st = 400 \/ st = 404 \/ st = 500 ->
    includes message "fetch" = false ->
    let res := mkResponse st (error_payload message) in
    (wf_value (payload res) = true /\ (status res = 200 \/ status res = 201))
    \/ exists m,
         payload res = error_payload m
         /\ (status res = 400 \/ status res = 404 \/ status res = 500)
         /\ includes m "fetch" = false.
Proof.
  intros st message Hst Hm. right. exists message. auto.
Qed.

Lemma router_answers :
  forall method req fs res fs',
    wf_value (body req) = true ->
    router method req fs = Some (Return res, fs') ->
    (wf_value (payload res) = true /\ (status res = 200 \/ status res = 201))
    \/ exists message,
         payload res = error_payload message
         /\ (status res = 400 \/ status res = 404 \/ status res = 500)
         /\ includes message "fetch" = false.
Proof.
  intros method req fs res fs' Hbody H.
  destruct method; cbn [router] in H.
  - destruct (getAllTasks_cases _ _ _ _ H)
      as [_ [[data [l [R [_ [Hl E]]]]] | [_ E]]]; inversion E; subst res.
    + left. split; [ | left; reflexivity ].
      exact (wf_value_prop _ _ _ (readData_wf _ _ _ R) Hl).
    + apply wf_error_response; auto.
  - destruct (createTask_cases _ _ _ _ H)
      as [[E _] | [[E _] | [o [ts [n [title [b H1]]]]]]];
      try (inversion E; subst res; apply wf_error_response; auto).
    destruct H1 as [R [_ [Hnext [_ [Ht [_ [_ [_ [E _]]]]]]]]].
    inversion E; subst res. left. split; [ | right; reflexivity ].
    pose proof (readData_wf _ _ _ R) as Hwf.
    apply wf_value_new_task;
      [ exact (wf_value_get _ _ _ Hwf Hnext)
      | exact (wf_value_prop _ _ _ Hbody Ht) | reflexivity ].
  - destruct (updateTask_cases _ _ _ _ H)
      as [[E _] | [[E _] | [o [before [f [after H1]]]]]];
      try (inversion E; subst res; apply wf_error_response; auto).
    destruct H1 as [R [[_ [Htasks _]] [_ [_ [E _]]]]].
    inversion E; subst res. left. split; [ | left; reflexivity ].
    pose proof (readData_wf _ _ _ R) as Hwf.
    pose proof (wf_value_get _ _ _ Hwf Htasks) as Hall.
    apply wf_value_middle in Hall. destruct Hall as [_ [Hf _]].
    apply wf_value_patched; assumption.
  - destruct (deleteTask_cases _ _ _ _ H)
      as [[E _] | [[E _] | [o [before [task [after H1]]]]]];
      try (inversion E; subst res; apply wf_error_response; auto).
    destruct H1 as [_ [_ [_ [E _]]]].
    inversion E; subst res. left. split; [ reflexivity | left; reflexivity ].
Qed.

Lemma received_success :
  forall res, status res = 200 \/ status res = 201 ->
    received res = inl (payload res).
Proof.
  intros res [E | E]; unfold received; rewrite E; reflexivity.
Qed.

Lemma received_error :
  forall st message, st = 400 \/ st = 404 \/ st = 500 ->
    received (mkResponse st (error_payload message))
    = inr (ApiError.mk message st
             (Some (JStr (TasksService.http_code st))) None).
Proof.
  intros st message [-> | [-> | ->]]; reflexivity.
Qed.

(** A call of [makeRequest] that reaches a route gives what the route
    answered. *)
Lemma makeRequest_answered :
  forall method endpoint text id request_body fs,
    App.route method endpoint = Some id ->
    App.express_json
      (Fetch.Request.mk (TasksService.API_BASE_URL ++ endpoint) method
         TasksService.DEFAULT_HEADERS text)
    = Some request_body ->
    wf_value request_body = true ->
    TasksService.makeRequest App.listen endpoint method text fs
    = answered received (router method (mkRequest id request_body) fs).
Proof.
  intros method endpoint text id request_body fs Hroute Hjson Hwf.
  unfold TasksService.makeRequest, App.listen.
  cbn [Fetch.Request.url Fetch.Request.method].
  unfold TasksService.API_BASE_URL in *.
  rewrite strip_prefix_append, Hroute, Hjson.
  destruct (router method (mkRequest id request_body) fs)
    as [ [[res | e] fs'] | ] eqn:Hr; [ | | reflexivity ].
  2:{ exfalso. exact (router_never_throws _ _ _ _ _ Hr). }
  cbn [answered].
  destruct (router_answers method (mkRequest id request_body) _ _ _ Hwf Hr)
    as [[Hp Hst] | [message [Hp [Hst Hm]]]].
  - destruct (settle_success res Hp Hst) as [response [-> Htry]].
    cbn [option_map]. rewrite Htry, (received_success res Hst). reflexivity.
  - destruct res as [st p]. cbn [payload status] in *. subst p.
    destruct (settle_error st message Hst Hm) as [response [-> [Htry Hcatch]]].
    cbn [option_map]. rewrite Htry, Hcatch, (received_error st message Hst).
    reflexivity.
Qed.

Lemma express_json_none :
  forall url method headers,
    method = GET \/ method = DELETE ->
    App.express_json (Fetch.Request.mk url method headers None) = Some JNull.
Proof.
  intros url method headers [-> | ->]; reflexivity.
Qed.

Lemma express_json_object :
  forall url method o,
    wf_value (JObj o) = true ->
    within_limit (JObj o) ->
    App.express_json
      (Fetch.Request.mk url method TasksService.DEFAULT_HEADERS
         (Some (JSON_stringify_compact (JObj o))))
    = Some (JObj o).
Proof.
  intros url method o H Hl. unfold App.express_json, App.declares_json.
  cbn [Fetch.Request.body Fetch.Request.headers].
  replace (existsb _ TasksService.DEFAULT_HEADERS) with true by reflexivity.
  apply N.leb_le in Hl. rewrite Hl.
  rewrite (JSON_parse_stringify_compact _ H). reflexivity.
Qed.

(** The texts that the hooks send are far below the limit. *)
Lemma byteLength_cons :
  forall c r, (App.byteLength (String c r) <= 2 + App.byteLength r)%nat.
Proof.
  intros c r. cbn [App.byteLength]. destruct (N_of_ascii c <? 128)%N; lia.
Qed.

Lemma byteLength_quote_char :
  forall c k,
    (App.byteLength (quote_char c k) <= 12 + App.byteLength k)%nat.
Proof.
  intros c k. unfold quote_char.
  repeat match goal with
         | |- context [if ?b then _ else _] => destruct b
         end;
    cbn [App.byteLength];
    repeat match goal with
           | |- context [if ?b then _ else _] => destruct b
           end; lia.
Qed.

Lemma byteLength_quote :
  forall s k,
    (App.byteLength (quote s k)
     <= 12 * String.length s + 4 + App.byteLength k)%nat.
Proof.
  intros s k. unfold quote.
  pose proof (byteLength_cons dquote (quote_chars s k)) as H0.
  assert (H : (App.byteLength (quote_chars s k)
               <= 12 * String.length s + 2 + App.byteLength k)%nat).
  { clear H0. induction s as [ | c s IH ]; cbn [quote_chars String.length].
    - pose proof (byteLength_cons dquote k). lia.
    - pose proof (byteLength_quote_char c (quote_chars s k)). lia. }
  lia.
Qed.

Lemma title_text_fits :
  forall title k,
    (String.length title <= 200)%nat -> (App.byteLength k <= 40)%nat ->
    (N.of_nat
       (App.byteLength
          (String "{" (quote "title" (String ":" (quote title k)))))
     <= App.json_limit)%N.
Proof.
  intros title k Ht Hk.
  pose proof (byteLength_cons "{" (quote "title" (String ":" (quote title k)))).
  pose proof (byteLength_quote "title" (String ":" (quote title k))) as H1.
  pose proof (byteLength_cons ":" (quote title k)).
  pose proof (byteLength_quote title k).
  cbn [String.length] in H1. unfold App.json_limit. lia.
Qed.

Lemma clean_task_fits :
  forall title completed,
    (String.length title <= 200)%nat ->
    within_limit
      (JObj [("title", JStr title); ("completed", JBool completed)]).
Proof.
  intros title completed Ht. unfold within_limit, JSON_stringify_compact.
  cbn [print_compact print_list print_rest fst snd].
  apply title_text_fits; [ exact Ht | ].
  apply Nat.leb_le. destruct completed; vm_compute; reflexivity.
Qed.

Lemma title_fits :
  forall title,
    (String.length title <= 200)%nat ->
    within_limit (JObj [("title", JStr title)]).
Proof.
  intros title Ht. unfold within_limit, JSON_stringify_compact.
  cbn [print_compact print_list print_rest fst snd].
  apply title_text_fits; [ exact Ht | ].
  apply Nat.leb_le. vm_compute. reflexivity.
Qed.

Lemma completed_fits :
  forall completed, within_limit (JObj [("completed", JBool completed)]).
Proof.
  intros completed. unfold within_limit. apply N.leb_le.
  destruct completed; vm_compute; reflexivity.
Qed.

Lemma plain_string_of_uint :
  forall d, App.plain (NilEmpty.string_of_uint d) = true.
Proof.
  induction d; simpl; try reflexivity; exact IHd.
Qed.

Lemma append_empty : forall s : string, (s ++ "")%string = s.
Proof.
  induction s as [ | c s IH ]; simpl; [ reflexivity | rewrite IH; reflexivity ].
Qed.

Lemma plain_print_number :
  forall n, App.plain (print_number n "") = true
            /\ String.eqb (print_number n "") "" = false.
Proof.
  intros n. unfold print_number. rewrite append_empty.
  pose proof (plain_string_of_uint (N.to_uint (Z.abs_N n))) as H.
  pose proof (to_uint_not_nil (Z.abs_N n)) as Hn.
  destruct (n <? 0).
  - split; [ simpl; exact H | reflexivity ].
  - split; [ exact H | ].
    destruct (N.to_uint (Z.abs_N n)); try congruence; reflexivity.
Qed.

Lemma route_item :
  forall method n,
    method = PUT \/ method = DELETE ->
    App.route method ("/tasks/" ++ print_number n "")
    = Some (Some (print_number n "")).
Proof.
  intros method n Hm. destruct (plain_print_number n) as [H1 H2].
  unfold App.route.
  change (strip_prefix "/tasks" ("/tasks/" ++ print_number n ""))
    with (Some (String "/" (print_number n ""))).
  cbv beta iota. rewrite H1, H2.
  destruct Hm as [-> | ->]; reflexivity.
Qed.

(** The service receives what the route answers. Over the server of
    this repository, each method of [TasksService] returns the payload of
    the response of its route when the status is 200 or 201 and throws
    otherwise an [ApiError] that carries the message, the status and the
    code [HTTP_<status>] of that response; it is never a validation, a
    network or a parsing error, and the data file is left as the route
    left it. The object that is sent is one the runtime can hold, its
    text is within the limit of the server, and the id of an update or of
    a deletion is an integer of the safe range, which the path carries by
    its digits. *)
Theorem service_receives_what_the_route_answers :
  forall fs,
    TasksService.getAllTasks App.listen fs
    = answered received (router GET (mkRequest None JNull) fs)
    /\ (forall o,
          wf_value (JObj o) = true -> within_limit (JObj o) ->
          TasksService.createTask App.listen (JObj o) fs
          = answered received (router POST (mkRequest None (JObj o)) fs))
    /\ (forall id o,
          safe_integer id = true ->
          wf_value (JObj o) = true -> within_limit (JObj o) ->
          TasksService.updateTask App.listen id (JObj o) fs
          = answered received
              (router PUT (mkRequest (Some (print_number id "")) (JObj o)) fs)
            /\ parse_id (mkRequest (Some (print_number id "")) (JObj o))
               = Some id)
    /\ (forall id,
          safe_integer id = true ->
          TasksService.deleteTask App.listen id fs
          = answered received_void
              (router DELETE (mkRequest (Some (print_number id "")) JNull) fs)
            /\ parse_id (mkRequest (Some (print_number id "")) JNull)
               = Some id).
Proof.
  intros fs. split; [ | split; [ | split ] ].
  - apply makeRequest_answered; reflexivity.
  - intros o Hwf Hl. apply makeRequest_answered;
      [ reflexivity | apply express_json_object; assumption | exact Hwf ].
  - intros id o Hid Hwf Hl.
    split; [ | unfold parse_id; apply parseInt_print_number_exact ].
    unfold TasksService.updateTask, TasksService.task_endpoint. rewrite Hid.
    apply makeRequest_answered;
      [ apply route_item; auto | apply express_json_object; assumption
      | exact Hwf ].
  - intros id Hid.
    split; [ | unfold parse_id; apply parseInt_print_number_exact ].
    unfold TasksService.deleteTask, TasksService.task_endpoint. rewrite Hid.
    rewrite (makeRequest_answered DELETE _ None (Some (print_number id "")) JNull);
      [ | apply route_item; auto | reflexivity | reflexivity ].
    destruct (router DELETE (mkRequest (Some (print_number id "")) JNull) fs)
      as [ [[res | e] fs'] | ]; try reflexivity.
    cbn [answered]. unfold received_void. destruct (received res); reflexivity.
Qed.

(** ** The service over any [fetch] *)

(** An error answer of the server reaches the caller. When [fetch]
    resolves with a response whose status is not 2xx and whose body is
    [{error: message}], [makeRequest] throws an [ApiError] with that
    message, the status and the code [HTTP_<status>]; unless the message
    holds the text [fetch]: the answer is then reported as a network
    error of status 0. *)
Theorem server_errors_reach_the_caller :
  forall (World : Type)
         (fetch : Fetch.Request.t -> World -> option (Fetch.outcome * World))
         endpoint method request_body w response w' message,
    fetch (Fetch.Request.mk (TasksService.API_BASE_URL ++ endpoint) method
             TasksService.DEFAULT_HEADERS request_body) w
    = Some (Fetch.Resolves response, w') ->
    Fetch.Response.ok response = false ->
    Fetch.Response.json response = inl (error_payload message) ->
    TasksService.makeRequest fetch endpoint method request_body w
    = Some (inr (if includes message "fetch"
                 then ApiError.mk TasksService.erreur_reseau 0
                        (Some (JStr "NETWORK_ERROR")) None
                 else ApiError.mk message (Fetch.Response.status response)
                        (Some (JStr (TasksService.http_code
                                       (Fetch.Response.status response))))
                        None),
            w').
Proof.
  intros World fetch endpoint method request_body w response w' message
    Hfetch Hok Hjson.
  unfold TasksService.makeRequest. rewrite Hfetch.
  unfold TasksService.try_block. rewrite Hok. cbn [negb].
  unfold TasksService.handleHttpError. rewrite Hjson.
  unfold error_payload.
  destruct (Fetch.Response.status response =? 400);
    cbn [prop obj_get String.eqb Ascii.eqb Bool.eqb to_string truthy option_map];
    unfold TasksService.catch_block;
    cbn [Fetch.instanceof_Error Fetch.name_of Fetch.message_of ApiError.message
         String.eqb Ascii.eqb Bool.eqb andb];
    destruct (includes message "fetch"); reflexivity.
Qed.

(** ** The hooks *)

Lemma blank_title :
  forall title,
    String.eqb title "" || (String.length (trim title) =? 0)%nat
    = (String.length (trim title) =? 0)%nat.
Proof.
  intros [ | c r ]; reflexivity.
Qed.

Lemma not_blank :
  forall title, trim title <> EmptyString ->
    (String.length (trim title) =? 0)%nat = false.
Proof.
  intros title H. destruct (String.length (trim title) =? 0)%nat eqn:E;
    [ | reflexivity ].
  apply length_zero_empty in E. contradiction.
Qed.

(** A title that is blank or longer than 200 characters never leaves the
    client. Whatever [fetch] is, [createTask] of [useCreateTask] and
    [updateTask] of [useUpdateTask] return [null] on such a title, report
    a validation error of status 400, and the world is as before: no
    request was made. *)
Theorem invalid_titles_are_not_sent :
  forall (World : Type)
         (fetch : Fetch.Request.t -> World -> option (Fetch.outcome * World))
         title w,
    trim title = EmptyString \/ (200 < String.length title)%nat ->
    (forall completed,
       let error :=
         validation_error
           (if (String.length (trim title) =? 0)%nat
            then useCreateTask.le_titre_est_requis
            else useCreateTask.le_titre_est_trop_long) in
       useCreateTask.createTask fetch title completed w
       = Some (None,
               [useCreateTask.setError (Some error);
                useCreateTask.onError error], w))
    /\ (forall id completed,
          let error :=
            validation_error
              (if (String.length (trim title) =? 0)%nat
               then useUpdateTask.le_titre_est_vide
               else useCreateTask.le_titre_est_trop_long) in
          useUpdateTask.updateTask fetch id (Some title) completed w
          = Some (None,
                  [useUpdateTask.setTaskError id error;
                   useUpdateTask.onError error], w)).
Proof.
  intros World fetch title w H.
  assert (Hcases : (String.length (trim title) =? 0)%nat = true
                   \/ ((String.length (trim title) =? 0)%nat = false
                       /\ (200 <? String.length title)%nat = true)).
  { destruct (String.length (trim title) =? 0)%nat eqn:E; [ auto | right ].
    split; [ reflexivity | ].
    destruct H as [H | H].
    - rewrite H in E. discriminate E.
    - apply Nat.ltb_lt, H. }
  split.
  - intros completed. unfold useCreateTask.createTask. rewrite blank_title.
    destruct Hcases as [-> | [-> ->]]; reflexivity.
  - intros id completed. unfold useUpdateTask.updateTask.
    destruct Hcases as [-> | [-> ->]]; reflexivity.
Qed.

(** ** The hooks over the server *)

Lemma holds_written :
  forall o w c ts n,
    wf_value (JObj o) = true ->
    obj_get "tasks" o = Some (JArr ts) ->
    obj_get "nextId" o = Some (JNum n) ->
    holds (mkFS (Some (JSON_stringify (JObj o))) w c) ts n.
Proof.
  intros o w c ts n Hwf Htasks Hnext. exists o.
  split; [ apply readData_written, Hwf | auto ].
Qed.

Lemma wf_clean_task :
  forall title completed,
    wf_value (JObj [("title", JStr title); ("completed", JBool completed)])
    = true.
Proof.
  intros title completed. apply wf_value_obj. split.
  - intros kv [<- | [<- | []]]; reflexivity.
  - apply entries_ordered. reflexivity.
Qed.

Lemma wf_completed :
  forall completed, wf_value (JObj [("completed", JBool completed)]) = true.
Proof.
  intros completed. apply wf_value_obj. split.
  - intros kv [<- | []]; reflexivity.
  - apply entries_ordered. reflexivity.
Qed.

(** What the service gives for a create request with a title that is not
    empty, by whether the file can be written. *)
Lemma create_over_listen :
  forall title completed fs ts n,
    holds fs ts n -> n < MAX_SAFE_INTEGER ->
    title <> EmptyString -> (String.length title <= 200)%nat ->
    let task := new_task n (JStr title) (JBool completed) in
    exists fs',
      TasksService.createTask App.listen
        (JObj [("title", JStr title); ("completed", JBool completed)]) fs
      = Some ((if writable fs then inl task
               else inr (ApiError.mk erreur_creation 500
                           (Some (JStr "HTTP_500")) None)),
              fs')
      /\ (if writable fs then holds fs' (ts ++ [task]) (n + 1)
          else file fs' = file fs).
Proof.
  intros title completed fs ts n [o [R [Htasks Hnext]]] Hn Htitle Hlen task.
  pose proof (readData_wf _ _ _ R) as Hwf.
  assert (Hsafe : safe_integer (n + 1) = true).
  { apply safe_integer_succ; [ | exact Hn ].
    exact (wf_value_get _ _ _ Hwf Hnext). }
  unfold TasksService.createTask.
  rewrite (makeRequest_answered POST "/tasks" _ None
             (JObj [("title", JStr title); ("completed", JBool completed)]));
    [ | reflexivity
      | apply express_json_object;
        [ apply wf_clean_task | apply clean_task_fits, Hlen ]
      | apply wf_clean_task ].
  cbn [router].
  rewrite (createTask_valid _ fs (JStr title) completed o ts n);
    [ | reflexivity | | reflexivity | exact R | exact Htasks | exact Hnext
      | exact Hsafe ].
  2:{ cbn [truthy]. destruct title; [ contradiction | reflexivity ]. }
  cbv zeta. fold task. destruct (writable fs); cbn [answered].
  - eexists. split; [ reflexivity | ].
    apply holds_written.
    + apply wf_created; auto.
    + rewrite !obj_get_put. reflexivity.
    + rewrite obj_get_put. reflexivity.
  - eexists. split; reflexivity.
Qed.

(** A task created through the hook has a clean title. On a store that
    can be written, [createTask] of [useCreateTask] with a title that is
    not blank and has at most 200 characters returns the new task, whose
    id is the counter of the store and whose title is the given one
    trimmed: it has no white space around it and between 1 and 200
    characters. The store then holds the task after the others and the
    next counter. *)
Theorem tasks_created_through_the_hook_have_clean_titles :
  forall title completed fs ts n,
    holds fs ts n -> n < MAX_SAFE_INTEGER -> writable fs = true ->
    trim title <> EmptyString -> (String.length title <= 200)%nat ->
    let task := new_task n (JStr (trim title)) (JBool completed) in
    exists fs',
      useCreateTask.createTask App.listen title completed fs
      = Some (Some task,
              [useCreateTask.setIsSubmitting true;
               useCreateTask.setError None;
               useCreateTask.setLastCreatedTask task;
               useCreateTask.onInvalidateCache;
               useCreateTask.onSuccess task;
               useCreateTask.setIsSubmitting false], fs')
      /\ holds fs' (ts ++ [task]) (n + 1)
      /\ trim (trim title) = trim title
      /\ (1 <= String.length (trim title) <= 200)%nat.
Proof.
  intros title completed fs ts n Hholds Hn Hw Htitle Hlen task.
  pose proof (length_trim title) as Hl.
  destruct (create_over_listen (trim title) completed fs ts n Hholds Hn Htitle
              ltac:(lia))
    as [fs' [E Hfs']].
  rewrite Hw in E, Hfs'.
  exists fs'. split; [ | split; [ exact Hfs' | split ] ].
  - unfold useCreateTask.createTask.
    rewrite blank_title, (not_blank _ Htitle).
    replace (200 <? String.length title)%nat with false
      by (symmetry; apply Nat.ltb_ge; exact Hlen).
    rewrite E. reflexivity.
  - apply trim_trim.
  - pose proof (not_blank _ Htitle) as Hz. apply Nat.eqb_neq in Hz. lia.
Qed.

(** The form is cleared although the creation failed. When the data
    file cannot be written, submitting in the page a title that is not
    blank makes the server answer 500; the hook of the manager sets the
    error, without a call of [onError] since the manager passes none, the
    file keeps its content, and [handleSubmit] still sets the title of
    the form to the empty text: what was typed is lost. *)
Theorem form_is_cleared_when_the_creation_fails :
  forall title fs ts n,
    holds fs ts n -> n < MAX_SAFE_INTEGER -> writable fs = false ->
    trim title <> EmptyString ->
    (String.length (trim title) <= 200)%nat ->
    let error :=
      ApiError.mk erreur_creation 500 (Some (JStr "HTTP_500")) None in
    exists fs',
      TaskForm.handleSubmit App.listen title fs
      = Some ([TaskForm.preventDefault;
               TaskForm.submitted
                 [useCreateTask.setIsSubmitting true;
                  useCreateTask.setError None;
                  useCreateTask.setError (Some error);
                  useCreateTask.setIsSubmitting false];
               TaskForm.setTitle ""], fs')
      /\ file fs' = file fs.
Proof.
  intros title fs ts n Hholds Hn Hw Htitle Hlen error.
  destruct (create_over_listen (trim title) false fs ts n Hholds Hn Htitle
              Hlen)
    as [fs' [E Hfs']].
  rewrite Hw in E, Hfs'.
  exists fs'. split; [ | exact Hfs' ].
  unfold TaskForm.handleSubmit. rewrite (not_blank _ Htitle).
  unfold Page.handleCreateTask, useTasksManager.createTask,
    useCreateTask.createTask.
  rewrite blank_title, trim_trim, (not_blank _ Htitle).
  replace (200 <? String.length (trim title))%nat with false
    by (symmetry; apply Nat.ltb_ge; exact Hlen).
  rewrite E. reflexivity.
Qed.

(** ** Updates through the hook *)

Lemma obj_replace_back :
  forall k v v' o,
    obj_get k o = Some v -> obj_replace k v (obj_replace k v' o) = o.
Proof.
  intros k v v' o. induction o as [ | [k1 v1] o IH ]; simpl; intros H.
  - reflexivity.
  - destruct (String.eqb k k1) eqn:E; simpl; rewrite E.
    + inversion H; reflexivity.
    + rewrite (IH H). reflexivity.
Qed.

Lemma obj_put_back :
  forall k v v' o,
    obj_get k o = Some v -> obj_put k v (obj_put k v' o) = o.
Proof.
  intros k v v' o H.
  assert (E : obj_put k v' o = obj_replace k v' o)
    by (unfold obj_put; rewrite H; reflexivity).
  unfold obj_put at 1. rewrite obj_get_put, String.eqb_refl, E.
  apply obj_replace_back, H.
Qed.

(** The id of a stored task is an integer of the safe range. *)
Lemma stored_id_safe :
  forall fs o ts task id,
    readData fs = Some (Return (JObj o), fs) ->
    obj_get "tasks" o = Some (JArr ts) -> In task ts ->
    prop task "id" = Some (JNum id) ->
    safe_integer id = true.
Proof.
  intros fs o ts task id R Htasks Hin Hid.
  pose proof (wf_value_get _ _ _ (readData_wf _ _ _ R) Htasks) as Hts.
  cbn [wf_value] in Hts. rewrite forallb_forall in Hts.
  exact (wf_value_prop _ _ _ (Hts task Hin) Hid).
Qed.

(** What the service gives for an update, on a store that can be
    written and holds a task of the id. *)
Lemma update_over_listen :
  forall id updates fs o before f after,
    wf_value (JObj updates) = true -> within_limit (JObj updates) ->
    readData fs = Some (Return (JObj o), fs) ->
    obj_get "tasks" o = Some (JArr (before ++ JObj f :: after)) ->
    no_match (Some id) before ->
    obj_get "id" f = Some (JNum id) ->
    writable fs = true ->
    let f' := patched (JObj updates) f in
    TasksService.updateTask App.listen id (JObj updates) fs
    = Some (inl (JObj f'),
            mkFS (Some (JSON_stringify
                          (JObj (obj_put "tasks"
                                   (JArr (before ++ JObj f' :: after)) o))))
              true (S (writeCalls fs))).
Proof.
  intros id updates fs o before f after Hu Hl R Htasks Hno Hid Hw f'.
  unfold TasksService.updateTask, TasksService.task_endpoint.
  rewrite (stored_id_safe fs o _ (JObj f) id R Htasks
             ltac:(apply in_elt) Hid).
  rewrite (makeRequest_answered PUT _ _ (Some (print_number id ""))
             (JObj updates));
    [ | apply route_item; auto | apply express_json_object; assumption
      | exact Hu ].
  cbn [router].
  assert (Hp : parse_id (mkRequest (Some (print_number id "")) (JObj updates))
               = Some id)
    by (unfold parse_id; cbn [params_id]; apply parseInt_print_number_exact).
  rewrite (updateTask_found _ fs o before f after R Htasks);
    [ | discriminate | rewrite Hp; exact Hno
      | rewrite Hp; apply matches_task_has_id; exact Hid ].
  cbv zeta. rewrite Hw. reflexivity.
Qed.

Lemma toggle_over_listen :
  forall id completed fs o before f after,
    readData fs = Some (Return (JObj o), fs) ->
    obj_get "tasks" o = Some (JArr (before ++ JObj f :: after)) ->
    no_match (Some id) before ->
    obj_get "id" f = Some (JNum id) ->
    writable fs = true ->
    let f' := obj_put "completed" (JBool completed) f in
    TasksService.updateTask App.listen id
      (JObj [("completed", JBool completed)]) fs
    = Some (inl (JObj f'),
            mkFS (Some (JSON_stringify
                          (JObj (obj_put "tasks"
                                   (JArr (before ++ JObj f' :: after)) o))))
              true (S (writeCalls fs))).
Proof.
  intros id completed fs o before f after.
  exact (update_over_listen id [("completed", JBool completed)] fs o before f
           after (wf_completed completed) (completed_fits completed)).
Qed.

(** Toggling the completion twice through the hook restores the store.
    On a store that can be written and holds a task of the id,
    [toggleTaskCompletion] answers with the task whose [completed] is
    negated; called again with that state, it answers with the task as it
    was at first, and the document of the store is the one at first. *)
Theorem toggling_twice_restores_the_store :
  forall id completed fs o before f after,
    readData fs = Some (Return (JObj o), fs) ->
    obj_get "tasks" o = Some (JArr (before ++ JObj f :: after)) ->
    no_match (Some id) before ->
    obj_get "id" f = Some (JNum id) ->
    obj_get "completed" f = Some (JBool completed) ->
    writable fs = true ->
    exists effects1 fs1 effects2 fs2,
      useUpdateTask.toggleTaskCompletion App.listen id completed fs
      = Some (Some (JObj (obj_put "completed" (JBool (negb completed)) f)),
              effects1, fs1)
      /\ useUpdateTask.toggleTaskCompletion App.listen id (negb completed) fs1
         = Some (Some (JObj f), effects2, fs2)
      /\ readData fs2 = Some (Return (JObj o), fs2).
Proof.
  intros id completed fs o before f after R Htasks Hno Hid Hc Hw.
  pose proof (readData_wf _ _ _ R) as Hwf.
  pose proof (wf_updated o before f after
                (JObj [("completed", JBool (negb completed))]) Hwf Htasks
                (wf_completed _)) as Hwf1.
  change (patched (JObj [("completed", JBool (negb completed))]) f)
    with (obj_put "completed" (JBool (negb completed)) f) in Hwf1.
  pose proof (readData_written _ true (S (writeCalls fs)) Hwf1) as R1.
  pose proof (toggle_over_listen id (negb completed) fs o before f after
                R Htasks Hno Hid Hw) as E1.
  assert (Hid1 : obj_get "id" (obj_put "completed" (JBool (negb completed)) f)
                 = Some (JNum id))
    by (rewrite obj_get_put; exact Hid).
  assert (Htasks1 :
            obj_get "tasks"
              (obj_put "tasks"
                 (JArr (before
                        ++ JObj (obj_put "completed" (JBool (negb completed)) f)
                        :: after)) o)
            = Some (JArr (before
                          ++ JObj (obj_put "completed"
                                     (JBool (negb completed)) f)
                          :: after)))
    by (rewrite obj_get_put; reflexivity).
  pose proof (toggle_over_listen id (negb (negb completed)) _ _ before
                (obj_put "completed" (JBool (negb completed)) f) after R1
                Htasks1 Hno Hid1 eq_refl) as E2.
  cbv zeta in E1, E2.
  rewrite negb_involutive, (obj_put_back _ _ _ _ Hc),
    (obj_put_back _ _ _ _ Htasks) in E2.
  unfold useUpdateTask.toggleTaskCompletion, useUpdateTask.updateTask.
  change (useUpdateTask.cleanUpdates None (Some (negb completed)))
    with (JObj [("completed", JBool (negb completed))]).
  change (useUpdateTask.cleanUpdates None (Some (negb (negb completed))))
    with (JObj [("completed", JBool (negb (negb completed)))]).
  rewrite negb_involutive, E1.
  do 4 eexists. split; [ reflexivity | ]. split.
  - rewrite E2. reflexivity.
  - apply readData_written, Hwf.
Qed.

(** ** The cleaning of the tests *)

Lemma respond_deleted :
  exists response,
    App.respond (mkResponse 200 deleted_payload) = Some response.
Proof.
  eexists. apply respond_wf. reflexivity.
Qed.

Lemma delete_each_all :
  forall ts fs o n ids,
    readData fs = Some (Return (JObj o), fs) ->
    obj_get "tasks" o = Some (JArr ts) ->
    obj_get "nextId" o = Some (JNum n) ->
    ids_of ts = Some ids ->
    writable fs = true ->
    exists fs', ApiHelpers.delete_each ts fs = Some fs' /\ holds fs' [] n.
Proof.
  induction ts as [ | task rest IH ]; intros fs o n ids R Htasks Hnext Hids Hw.
  - exists fs. split; [ reflexivity | ]. exists o. auto.
  - cbn [ids_of] in Hids.
    destruct (prop task "id") as [ [ | | i | | | ] | ] eqn:Hi;
      try discriminate Hids.
    destruct (ids_of rest) as [ l | ] eqn:Hrest; [ | discriminate Hids ].
    pose proof (readData_wf _ _ _ R) as Hwf.
    pose proof (wf_deleted o [] task rest Hwf Htasks) as Hwf'.
    cbn [app] in Hwf'.
    pose proof (readData_written _ true (S (writeCalls fs)) Hwf') as R1.
    destruct respond_deleted as [response Hresponse].
    destruct (IH _ _ n l R1) as [fs' [E H]];
      [ rewrite obj_get_put; reflexivity
      | rewrite obj_get_put; exact Hnext | reflexivity | reflexivity | ].
    exists fs'. split; [ | exact H ].
    cbn [ApiHelpers.delete_each]. unfold ApiHelpers.task_url.
    rewrite Hi. cbn [to_string].
    rewrite (stored_id_safe fs o _ task i R Htasks (or_introl eq_refl) Hi).
    cbn [option_map].
    assert (Htask : task <> JNull) by (intros ->; discriminate Hi).
    replace (match task with JNull => None | _ => Some (append "http://localhost:3001/api/tasks/" (print_number i "")) end)
      with (Some (append "http://localhost:3001/api/tasks/" (print_number i "")))
      by (destruct task; [ contradiction | reflexivity .. ]).
    unfold ApiHelpers.request, App.listen.
    cbn [Fetch.Request.url Fetch.Request.method].
    change (append "http://localhost:3001/api/tasks/" (print_number i ""))
      with (append "http://localhost:3001/api"
              (append "/tasks/" (print_number i ""))).
    rewrite strip_prefix_append, route_item by auto.
    rewrite express_json_none by auto. cbn [router].
    rewrite (deleteTask_found _ fs o [] task rest R Htasks);
      [ | constructor
        | unfold parse_id; cbn [params_id];
          rewrite parseInt_print_number_exact;
          apply matches_task_has_id; exact Hi ].
    rewrite Hw, Hresponse. cbn [option_map app]. exact E.
Qed.

(** [cleanupAllTasks] empties the store. When every task of the store
    is an object with a numeric id and the file can be written, the
    helper deletes them all, whether or not two of them share an id: the
    store then holds no task, and the counter it had. *)
Theorem cleanup_deletes_every_task :
  forall fs ts n ids,
    holds fs ts n -> ids_of ts = Some ids -> writable fs = true ->
    exists fs', ApiHelpers.cleanupAllTasks fs = Some fs' /\ holds fs' [] n.
Proof.
  intros fs ts n ids [o [R [Htasks Hnext]]] Hids Hw.
  pose proof (readData_wf _ _ _ R) as Hwf.
  pose proof (wf_value_get _ _ _ Hwf Htasks) as Hts.
  destruct (delete_each_all ts fs o n ids R Htasks Hnext Hids Hw)
    as [fs' [E H]].
  exists fs'. split; [ | exact H ].
  unfold ApiHelpers.cleanupAllTasks, ApiHelpers.request, App.listen.
  cbn [Fetch.Request.url Fetch.Request.method].
  change "http://localhost:3001/api/tasks"%string
    with (append "http://localhost:3001/api" "/tasks").
  rewrite strip_prefix_append.
  change (App.route GET "/tasks") with (Some (@None string)).
  rewrite express_json_none by auto. cbn [router].
  assert (G : getAllTasks (mkRequest None JNull) fs
              = Some (Return (mkResponse 200 (JArr ts)), fs)).
  { unfold getAllTasks, try_catch, bind. rewrite R.
    cbn [get_prop ret]. rewrite Htasks. reflexivity. }
  rewrite G, (respond_wf (mkResponse 200 (JArr ts)) Hts).
  cbn [option_map status payload Fetch.Response.status Fetch.Response.json].
  exact E.
Qed.

(** ** The list and its items *)

Lemma listing_over_listen :
  forall fs,
    TasksService.getAllTasks App.listen fs
    = answered received (getAllTasks (mkRequest None JNull) fs).
Proof.
  intros fs. unfold TasksService.getAllTasks.
  rewrite (makeRequest_answered GET "/tasks" None None JNull);
    reflexivity.
Qed.

(** The list shows what the store holds. After [invalidateCache] of
    [useTasks], the tasks of the hook are the [tasks] property of the
    document of the store, as it is; the hook is healthy, without an
    error, and the store is as before. *)
Theorem the_list_shows_the_stored_tasks :
  forall fs o tasks,
    readData fs = Some (Return (JObj o), fs) ->
    obj_get "tasks" o = Some tasks ->
    useTasks.invalidateCache App.listen fs
    = Some ([useTasks.setTasks (JArr []);
             useTasks.setLoading true;
             useTasks.setError None;
             useTasks.setTasks tasks;
             useTasks.setIsHealthy true;
             useTasks.setLoading false], fs).
Proof.
  intros fs o tasks R Htasks.
  unfold useTasks.invalidateCache, useTasks.fetchTasks.
  rewrite listing_over_listen.
  unfold getAllTasks, try_catch, bind. rewrite R.
  cbn [get_prop ret]. rewrite Htasks. reflexivity.
Qed.

(** An answer of the server never marks the API as unhealthy. Whatever
    the data file holds, when [fetchTasks] of [useTasks] gets an answer
    of the server it does not set [isHealthy] to false, also when the
    answer is an error; and the store is as before. *)
Theorem a_server_answer_never_marks_the_api_unhealthy :
  forall showLoading fs effects fs',
    useTasks.fetchTasks App.listen showLoading fs = Some (effects, fs') ->
    fs' = fs /\ ~ In (useTasks.setIsHealthy false) effects.
Proof.
  intros showLoading fs effects fs' H.
  unfold useTasks.fetchTasks in H. rewrite listing_over_listen in H.
  destruct (getAllTasks (mkRequest None JNull) fs) as [ [r fs1] | ] eqn:G;
    [ | discriminate H ].
  destruct (getAllTasks_cases _ _ _ _ G)
    as [-> [[data [l [_ [_ [_ ->]]]]] | [_ ->]]];
    cbn in H; inversion H; subst; (split; [ reflexivity | ]);
    destruct showLoading; cbn; intros Hin;
    repeat (destruct Hin as [Hin | Hin]; [ discriminate Hin | ]);
    exact Hin.
Qed.

Lemma wf_title :
  forall title, wf_value (JObj [("title", JStr title)]) = true.
Proof.
  intros title. apply wf_value_obj. split.
  - intros kv [<- | []]; reflexivity.
  - apply entries_ordered. reflexivity.
Qed.

(** Renaming a task in its item stores the trimmed title. On a store
    that can be written and holds a task of the id, [handleSaveEdit] with
    a title that is not blank, of at most 200 characters once trimmed,
    leaves the editing mode; the store then holds the task with the
    trimmed title in its place, its id and its completion unchanged. *)
Theorem renaming_in_the_item_stores_the_trimmed_title :
  forall id editTitle fs o before f after,
    readData fs = Some (Return (JObj o), fs) ->
    obj_get "tasks" o = Some (JArr (before ++ JObj f :: after)) ->
    no_match (Some id) before ->
    obj_get "id" f = Some (JNum id) ->
    writable fs = true ->
    trim editTitle <> EmptyString ->
    (String.length (trim editTitle) <= 200)%nat ->
    let f' := obj_put "title" (JStr (trim editTitle)) f in
    exists effects fs',
      TaskItem.handleSaveEdit App.listen id editTitle fs
      = Some ([TaskItem.updated effects; TaskItem.setIsEditing false], fs')
      /\ readData fs'
         = Some (Return
                   (JObj (obj_put "tasks"
                            (JArr (before ++ JObj f' :: after)) o)),
                 fs')
      /\ obj_get "id" f' = Some (JNum id)
      /\ obj_get "completed" f' = obj_get "completed" f.
Proof.
  intros id editTitle fs o before f after R Htasks Hno Hid Hw Htitle Hlen f'.
  pose proof (readData_wf _ _ _ R) as Hwf.
  pose proof (update_over_listen id [("title", JStr (trim editTitle))] fs o
                before f after (wf_title _) (title_fits _ Hlen) R Htasks Hno
                Hid Hw) as E.
  cbv zeta in E.
  change (patched (JObj [("title", JStr (trim editTitle))]) f) with f' in E.
  unfold TaskItem.handleSaveEdit. rewrite (not_blank _ Htitle).
  unfold useTasksManager.updateTask, useUpdateTask.updateTask.
  rewrite trim_trim, (not_blank _ Htitle).
  replace (200 <? String.length (trim editTitle))%nat with false
    by (symmetry; apply Nat.ltb_ge; exact Hlen).
  change (useUpdateTask.cleanUpdates (Some (trim editTitle)) None)
    with (JObj [("title", JStr (trim (trim editTitle)))]).
  rewrite trim_trim, E. cbn [truthy].
  do 2 eexists. split; [ reflexivity | ]. split; [ | split ].
  - apply readData_written.
    exact (wf_updated o before f after (JObj [("title", JStr (trim editTitle))])
             Hwf Htasks (wf_title _)).
  - unfold f'. rewrite obj_get_put. exact Hid.
  - unfold f'. rewrite obj_get_put. reflexivity.
Qed.

(** * The properties of the client at concrete inputs *)

Lemma one_task_store_holds :
  holds one_task_store [new_task 1 (JStr "Buy milk") (JBool false)] 2.
Proof.
  exists [("tasks", JArr [new_task 1 (JStr "Buy milk") (JBool false)]);
          ("nextId", JNum 2)].
  split; [ vm_compute; reflexivity | split; reflexivity ].
Defined.

Lemma read_only_store_holds :
  holds (mkFS (file one_task_store) false 0)
    [new_task 1 (JStr "Buy milk") (JBool false)] 2.
Proof.
  exists [("tasks", JArr [new_task 1 (JStr "Buy milk") (JBool false)]);
          ("nextId", JNum 2)].
  split; [ vm_compute; reflexivity | split; reflexivity ].
Defined.

Lemma three_tasks_store_holds :
  holds three_tasks_store
    [new_task 1 (JStr "A") (JBool false); new_task 2 (JStr "B") (JBool true);
     new_task 3 (JStr "C") (JBool false)] 4.
Proof.
  exists [("tasks",
           JArr [new_task 1 (JStr "A") (JBool false);
                 new_task 2 (JStr "B") (JBool true);
                 new_task 3 (JStr "C") (JBool false)]);
          ("nextId", JNum 4)].
  split; [ vm_compute; reflexivity | split; reflexivity ].
Defined.

Lemma service_receives_what_the_route_answers_witness :
  (TasksService.updateTask App.listen 1 (JObj [("completed", JBool true)])
     one_task_store
   = answered received
       (router PUT
          (mkRequest (Some "1"%string) (JObj [("completed", JBool true)]))
          one_task_store)
   /\ parse_id (mkRequest (Some "1"%string) (JObj [("completed", JBool true)]))
      = Some 1)
  /\ (TasksService.deleteTask App.listen 999 one_task_store
      = answered received_void
          (router DELETE (mkRequest (Some "999"%string) JNull) one_task_store)
      /\ parse_id (mkRequest (Some "999"%string) JNull) = Some 999).
Proof.
  split.
  - apply (proj1 (proj2 (proj2
             (service_receives_what_the_route_answers one_task_store))) 1
             [("completed", JBool true)]).
    + reflexivity.
    + reflexivity.
    + apply N.leb_le. vm_compute. reflexivity.
  - apply (proj2 (proj2 (proj2
             (service_receives_what_the_route_answers one_task_store))) 999).
    reflexivity.
Defined.

Lemma server_errors_reach_the_caller_witness :
  TasksService.makeRequest
    (fun (_ : Fetch.Request.t) (w : unit) =>
       Some (Fetch.Resolves
               (Fetch.Response.mk 503 "Service Unavailable" []
                  (inl (error_payload "prefetch failed"))), w))
    "/tasks" GET None tt
  = Some (inr (ApiError.mk TasksService.erreur_reseau 0
                 (Some (JStr "NETWORK_ERROR")) None), tt).
Proof.
  apply (server_errors_reach_the_caller unit
           (fun (_ : Fetch.Request.t) (w : unit) =>
              Some (Fetch.Resolves
                      (Fetch.Response.mk 503 "Service Unavailable" []
                         (inl (error_payload "prefetch failed"))), w))
           "/tasks" GET None tt
           (Fetch.Response.mk 503 "Service Unavailable" []
              (inl (error_payload "prefetch failed")))
           tt "prefetch failed");
    reflexivity.
Defined.

Lemma invalid_titles_are_not_sent_witness :
  useCreateTask.createTask
    (fun (_ : Fetch.Request.t) (_ : unit) => @None (Fetch.outcome * unit))
    "   " true tt
  = Some (None,
          [useCreateTask.setError
             (Some (validation_error useCreateTask.le_titre_est_requis));
           useCreateTask.onError
             (validation_error useCreateTask.le_titre_est_requis)], tt).
Proof.
  apply (proj1 (invalid_titles_are_not_sent unit
                  (fun (_ : Fetch.Request.t) (_ : unit) =>
                     @None (Fetch.outcome * unit))
                  "   " tt (or_introl eq_refl)) true).
Defined.

Lemma tasks_created_through_the_hook_have_clean_titles_witness :
  exists fs',
    useCreateTask.createTask App.listen "  Call Ann  " true one_task_store
    = Some (Some (new_task 2 (JStr "Call Ann") (JBool true)),
            [useCreateTask.setIsSubmitting true;
             useCreateTask.setError None;
             useCreateTask.setLastCreatedTask
               (new_task 2 (JStr "Call Ann") (JBool true));
             useCreateTask.onInvalidateCache;
             useCreateTask.onSuccess (new_task 2 (JStr "Call Ann") (JBool true));
             useCreateTask.setIsSubmitting false], fs')
    /\ holds fs'
         [new_task 1 (JStr "Buy milk") (JBool false);
          new_task 2 (JStr "Call Ann") (JBool true)] 3.
Proof.
  destruct (tasks_created_through_the_hook_have_clean_titles
              "  Call Ann  " true one_task_store
              [new_task 1 (JStr "Buy milk") (JBool false)] 2
              one_task_store_holds)
    as [fs' [E [H _]]].
  - reflexivity.
  - reflexivity.
  - discriminate.
  - simpl. lia.
  - exists fs'. split; [ exact E | exact H ].
Defined.

Lemma form_is_cleared_when_the_creation_fails_witness :
  exists fs',
    TaskForm.handleSubmit App.listen " Call Ann "
      (mkFS (file one_task_store) false 0)
    = Some ([TaskForm.preventDefault;
             TaskForm.submitted
               [useCreateTask.setIsSubmitting true;
                useCreateTask.setError None;
                useCreateTask.setError
                  (Some (ApiError.mk erreur_creation 500
                           (Some (JStr "HTTP_500")) None));
                useCreateTask.setIsSubmitting false];
             TaskForm.setTitle ""], fs')
    /\ file fs' = file one_task_store.
Proof.
  apply (form_is_cleared_when_the_creation_fails " Call Ann "
           (mkFS (file one_task_store) false 0)
           [new_task 1 (JStr "Buy milk") (JBool false)] 2
           read_only_store_holds).
  - reflexivity.
  - reflexivity.
  - discriminate.
  - simpl. lia.
Defined.

Lemma toggling_twice_restores_the_store_witness :
  exists effects1 fs1 effects2 fs2,
    useUpdateTask.toggleTaskCompletion App.listen 1 false one_task_store
    = Some (Some (new_task 1 (JStr "Buy milk") (JBool true)), effects1, fs1)
    /\ useUpdateTask.toggleTaskCompletion App.listen 1 true fs1
       = Some (Some (new_task 1 (JStr "Buy milk") (JBool false)), effects2, fs2)
    /\ readData fs2
       = Some (Return
                 (JObj [("tasks",
                         JArr [new_task 1 (JStr "Buy milk") (JBool false)]);
                        ("nextId", JNum 2)]), fs2).
Proof.
  apply (toggling_twice_restores_the_store 1 false one_task_store
           [("tasks", JArr [new_task 1 (JStr "Buy milk") (JBool false)]);
            ("nextId", JNum 2)]
           []
           [("id", JNum 1); ("title", JStr "Buy milk");
            ("completed", JBool false)]
           []).
  - vm_compute. reflexivity.
  - reflexivity.
  - constructor.
  - reflexivity.
  - reflexivity.
  - reflexivity.
Defined.

Lemma cleanup_deletes_every_task_witness :
  exists fs',
    ApiHelpers.cleanupAllTasks three_tasks_store = Some fs'
    /\ holds fs' [] 4.
Proof.
  apply (cleanup_deletes_every_task three_tasks_store
           [new_task 1 (JStr "A") (JBool false);
            new_task 2 (JStr "B") (JBool true);
            new_task 3 (JStr "C") (JBool false)] 4 [1; 2; 3]
           three_tasks_store_holds).
  - reflexivity.
  - reflexivity.
Defined.

Lemma the_list_shows_the_stored_tasks_witness :
  useTasks.invalidateCache App.listen three_tasks_store
  = Some ([useTasks.setTasks (JArr []);
           useTasks.setLoading true;
           useTasks.setError None;
           useTasks.setTasks
             (JArr [new_task 1 (JStr "A") (JBool false);
                    new_task 2 (JStr "B") (JBool true);
                    new_task 3 (JStr "C") (JBool false)]);
           useTasks.setIsHealthy true;
           useTasks.setLoading false], three_tasks_store).
Proof.
  apply (the_list_shows_the_stored_tasks three_tasks_store
           [("tasks",
             JArr [new_task 1 (JStr "A") (JBool false);
                   new_task 2 (JStr "B") (JBool true);
                   new_task 3 (JStr "C") (JBool false)]);
            ("nextId", JNum 4)]).
  - vm_compute. reflexivity.
  - reflexivity.
Defined.

Lemma a_server_answer_never_marks_the_api_unhealthy_witness :
  useTasks.fetchTasks App.listen true (mkFS (Some "null"%string) true 0)
  = Some ([useTasks.setLoading true;
           useTasks.setError None;
           useTasks.setError
             (Some (ApiError.mk erreur_recuperation 500
                      (Some (JStr "HTTP_500")) None));
           useTasks.setLoading false], mkFS (Some "null"%string) true 0)
  /\ ~ In (useTasks.setIsHealthy false)
         [useTasks.setLoading true;
          useTasks.setError None;
          useTasks.setError
            (Some (ApiError.mk erreur_recuperation 500
                     (Some (JStr "HTTP_500")) None));
          useTasks.setLoading false].
Proof.
  assert (E : useTasks.fetchTasks App.listen true
                (mkFS (Some "null"%string) true 0)
              = Some ([useTasks.setLoading true;
                       useTasks.setError None;
                       useTasks.setError
                         (Some (ApiError.mk erreur_recuperation 500
                                  (Some (JStr "HTTP_500")) None));
                       useTasks.setLoading false],
                      mkFS (Some "null"%string) true 0))
    by (vm_compute; reflexivity).
  split; [ exact E | ].
  exact (proj2 (a_server_answer_never_marks_the_api_unhealthy _ _ _ _ E)).
Defined.

Lemma renaming_in_the_item_stores_the_trimmed_title_witness :
  exists effects fs',
    TaskItem.handleSaveEdit App.listen 1 " Buy oat milk " one_task_store
    = Some ([TaskItem.updated effects; TaskItem.setIsEditing false], fs')
    /\ readData fs'
       = Some (Return
                 (JObj [("tasks",
                         JArr [new_task 1 (JStr "Buy oat milk") (JBool false)]);
                        ("nextId", JNum 2)]), fs').
Proof.
  destruct (renaming_in_the_item_stores_the_trimmed_title
              1 " Buy oat milk " one_task_store
              [("tasks", JArr [new_task 1 (JStr "Buy milk") (JBool false)]);
               ("nextId", JNum 2)]
              []
              [("id", JNum 1); ("title", JStr "Buy milk");
               ("completed", JBool false)]
              [])
    as [effects [fs' [E [R _]]]].
  - vm_compute. reflexivity.
  - reflexivity.
  - constructor.
  - reflexivity.
  - reflexivity.
  - discriminate.
  - simpl. lia.
  - exists effects, fs'. split; [ exact E | exact R ].
Defined.
